(** * CardDemo API: request pipeline, sensitive-data layer and database retry

    A shallow embedding of the parts of [carddemo-api] that the
    specification talks about:

    - [services/encryption_service.py]  (encrypt, decrypt, masking, sanitizing)
    - [services/auth_service.py]        (password verification)
    - [services/logging_service.py]     (DatabaseErrorHandler)
    - [database.py]                     (execute_with_retry)
    - [middleware/rate_limit.py]        (RateLimitMiddleware)
    - [middleware/error_handler.py]     (ErrorHandlerMiddleware and handlers)
    - [middleware/input_sanitizer.py]   (_sanitize_data)
    - [services/card_service.py]        (masking, migration of card numbers)
    - [main.py]                         (the middleware stack)

    Conventions.  A Python [str] is a [string] whose characters are the code
    points U+0000..U+00FF; [bytes] are strings of octets.  A function that can
    raise returns a [result].  Mutable objects ([self.retry_count], the
    per-IP deques of the rate limiter) are threaded as explicit state.
    Library code that is not part of the repository (Fernet, bcrypt, base64
    decoding, the OS random source, the CORS middleware) enters as a
    parameter, and so does the subtraction of doubles, of which the
    theorems use the properties named in their hypotheses. *)

From Stdlib Require Import String Ascii List ZArith QArith Lia Lqa Bool DecimalString.
From stdpp Require Import gmap strings.
Import ListNotations.
Set Warnings "-register-all".
Open Scope string_scope.
Open Scope nat_scope.

(** * Python values shared by all components *)

Definition bytes := string.

(** An exception object, as far as the code inspects it:
    [type(e).__name__], [str(e)], and whether its class derives from
    [Exception], which is what an [except Exception] clause catches.
    [SystemExit], [KeyboardInterrupt], [GeneratorExit] and the other
    classes that derive from [BaseException] only are not caught by it. *)
Record exn := mk_exc {
  exc_type : string;
  exc_msg : string;
  is_Exception : bool }.

(** An exception whose class derives from [Exception]. *)
Definition mk_exn (exc_type exc_msg : string) : exn :=
  mk_exc exc_type exc_msg true.

Inductive result (A : Type) : Type :=
| Ok (a : A)
| Raise (e : exn).
Arguments Ok {A} a.
Arguments Raise {A} e.

Definition ValueError (msg : string) : exn := mk_exn "ValueError" msg.

(** * Python string primitives *)
Module PyStr.

Definition code (c : ascii) : nat := nat_of_ascii c.

(** [str.isdigit] on U+0000..U+00FF: the ten decimal digits and the
    superscripts U+00B2, U+00B3, U+00B9. *)
Definition isdigit (c : ascii) : bool :=
  ((48 <=? code c) && (code c <=? 57))
  || (code c =? 178) || (code c =? 179) || (code c =? 185).

(** [str.isspace] on U+0000..U+00FF, the characters [str.strip()] removes. *)
Definition isspace (c : ascii) : bool :=
  ((9 <=? code c) && (code c <=? 13))
  || ((28 <=? code c) && (code c <=? 32))
  || (code c =? 133) || (code c =? 160).

(** [''.join(filter(f, s))] *)
Fixpoint filter (f : ascii -> bool) (s : string) : string :=
  match s with
  | EmptyString => EmptyString
  | String c r => if f c then String c (filter f r) else filter f r
  end.

(** ["c" * n] *)
Fixpoint repeat (c : ascii) (n : nat) : string :=
  match n with
  | O => EmptyString
  | S k => String c (repeat c k)
  end.

(** [s[i:j]] for [0 <= i <= j] *)
Definition slice (i j : nat) (s : string) : string := substring i (j - i) s.

(** [s[-n:]] for [n > 0] *)
Definition last_n (n : nat) (s : string) : string :=
  substring (String.length s - n) n s.

(** [range(0, stop, step)] *)
Definition range_step (stop step : nat) : list nat :=
  List.map (fun k => step * k) (seq 0 ((stop + (step - 1)) / step)).

(** [sep.join(parts)] *)
Fixpoint join (sep : string) (parts : list string) : string :=
  match parts with
  | [] => ""
  | [p] => p
  | p :: rest => p ++ sep ++ join sep rest
  end.

(** [str.lower] on U+0000..U+00FF. *)
Definition lower_char (c : ascii) : ascii :=
  let n := code c in
  if ((65 <=? n) && (n <=? 90))
     || ((192 <=? n) && (n <=? 222) && negb (n =? 215))
  then ascii_of_nat (n + 32) else c.

Fixpoint lower (s : string) : string :=
  match s with
  | EmptyString => EmptyString
  | String c r => String (lower_char c) (lower r)
  end.

(** [str.upper] and [str.capitalize]; the code applies them only to its
    literal ASCII patterns, where they act on the letters a-z and A-Z. *)
Definition upper_char (c : ascii) : ascii :=
  let n := code c in
  if (97 <=? n) && (n <=? 122) then ascii_of_nat (n - 32) else c.

Fixpoint upper (s : string) : string :=
  match s with
  | EmptyString => EmptyString
  | String c r => String (upper_char c) (upper r)
  end.

Definition capitalize (s : string) : string :=
  match s with
  | EmptyString => EmptyString
  | String c r => String (upper_char c) (lower r)
  end.

(** [needle in s] *)
Fixpoint contains (needle s : string) : bool :=
  if String.prefix needle s then true
  else match s with
       | EmptyString => false
       | String _ r => contains needle r
       end.

(** [s.replace(old, new)] for a non-empty [old]: leftmost, non-overlapping
    occurrences, scanned left to right. *)
Fixpoint replace_fuel (fuel : nat) (old new s : string) : string :=
  match fuel with
  | O => s
  | S f =>
      match s with
      | EmptyString => EmptyString
      | String c r =>
          if String.prefix old s
          then new ++ replace_fuel f old new
                        (substring (String.length old)
                                   (String.length s - String.length old) s)
          else String c (replace_fuel f old new r)
      end
  end.

Definition replace (old new s : string) : string :=
  replace_fuel (String.length s) old new s.

Fixpoint lstrip (s : string) : string :=
  match s with
  | EmptyString => EmptyString
  | String c r => if isspace c then lstrip r else s
  end.

Fixpoint rstrip (s : string) : string :=
  match s with
  | EmptyString => EmptyString
  | String c r =>
      match rstrip r with
      | EmptyString => if isspace c then EmptyString else String c EmptyString
      | r' => String c r'
      end
  end.

(** [s.strip()] *)
Definition strip (s : string) : string := rstrip (lstrip s).

(** [str(n)] for an integer *)
Definition str_of_Z (z : Z) : string := NilZero.string_of_int (Z.to_int z).

(** [s.encode()]: UTF-8 of code points below U+0100 (one octet below
    U+0080, two octets from there on). *)
Fixpoint encode (s : string) : bytes :=
  match s with
  | EmptyString => EmptyString
  | String c r =>
      let n := code c in
      if n <? 128 then String c (encode r)
      else String (ascii_of_nat (192 + n / 64))
             (String (ascii_of_nat (128 + n mod 64)) (encode r))
  end.

End PyStr.

(** * [base64.urlsafe_b64encode] *)
Module Base64.

Definition alphabet : string :=
  "ABCDEFGHIJKLMNOPQRSTUVWXYZabcdefghijklmnopqrstuvwxyz0123456789-_".

Definition sextet (n : nat) : ascii :=
  match String.get (n mod 64) alphabet with
  | Some c => c
  | None => "="%char
  end.

(** Three octets give four characters of six bits each; a rest of one or
    two octets is padded with [=]. *)
Fixpoint urlsafe_b64encode (b : bytes) : bytes :=
  match b with
  | EmptyString => EmptyString
  | String x EmptyString =>
      let x := PyStr.code x in
      String (sextet (x / 4)) (String (sextet (x mod 4 * 16)) "==")
  | String x (String y EmptyString) =>
      let x := PyStr.code x in
      let y := PyStr.code y in
      String (sextet (x / 4))
        (String (sextet (x mod 4 * 16 + y / 16))
           (String (sextet (y mod 16 * 4)) "="))
  | String x (String y (String z r)) =>
      let x := PyStr.code x in
      let y := PyStr.code y in
      let z := PyStr.code z in
      String (sextet (x / 4))
        (String (sextet (x mod 4 * 16 + y / 16))
           (String (sextet (y mod 16 * 4 + z / 64))
              (String (sextet z) (urlsafe_b64encode r))))
  end.

End Base64.

(** * services/encryption_service.py *)
Module EncryptionService.
Section Service.

(** The [Fernet] instance built in [__init__] from the derived key.
    [fernet_encrypt rnd data] is [self._fernet.encrypt(data)], where [rnd]
    stands for the timestamp and the fresh IV the library draws;
    [fernet_decrypt] is [self._fernet.decrypt].  [None] is a raised
    exception. *)
Variable fernet_encrypt : bytes -> bytes -> option bytes.
Variable fernet_decrypt : bytes -> option bytes.
(** [base64.urlsafe_b64decode] and [bytes.decode]. *)
Variable urlsafe_b64decode : bytes -> option bytes.
Variable decode : bytes -> option string.

Definition is_empty (s : string) : bool :=
  match s with EmptyString => true | _ => false end.

(** [encrypt]: the base64 text is ASCII, so its [.decode()] is the same
    sequence of characters. *)
Definition encrypt (rnd : bytes) (data : string) : result string :=
  if is_empty data then Ok data
  else
    match fernet_encrypt rnd (PyStr.encode data) with
    | Some encrypted_data => Ok (Base64.urlsafe_b64encode encrypted_data)
    | None => Raise (ValueError "Failed to encrypt data")
    end.

Definition decrypt (encrypted_data : string) : result string :=
  if is_empty encrypted_data then Ok encrypted_data
  else
    match urlsafe_b64decode (PyStr.encode encrypted_data) with
    | None => Raise (ValueError "Failed to decrypt data")
    | Some decoded_data =>
        match fernet_decrypt decoded_data with
        | None => Raise (ValueError "Failed to decrypt data")
        | Some decrypted_data =>
            match decode decrypted_data with
            | None => Raise (ValueError "Failed to decrypt data")
            | Some text => Ok text
            end
        end
    end.

Definition encrypt_card_number (rnd : bytes) (card_number : string)
  : result string :=
  let clean_number := PyStr.filter PyStr.isdigit card_number in
  encrypt rnd clean_number.

Definition decrypt_card_number (encrypted_card_number : string)
  : result string :=
  decrypt encrypted_card_number.

(** The text the masking code works on: the decrypted value when the
    argument is longer than 20 characters, the argument itself otherwise. *)
Definition mask_source (card_number : string) : result string :=
  if 20 <? String.length card_number
  then decrypt_card_number card_number
  else Ok card_number.

Definition mask_card_number (card_number : string) : string :=
  match mask_source card_number with
  | Raise _ => "**** **** **** ****"
  | Ok decrypted =>
      let clean_number := PyStr.filter PyStr.isdigit decrypted in
      if String.length clean_number <? 4
      then PyStr.repeat "*" (String.length clean_number)
      else
        let masked :=
          PyStr.repeat "*" (String.length clean_number - 4)
          ++ PyStr.last_n 4 clean_number in
        let formatted :=
          PyStr.join " "
            (List.map (fun i => PyStr.slice i (i + 4) masked)
                      (PyStr.range_step (String.length masked) 4)) in
        formatted
  end.

End Service.

Definition dangerous_patterns : list string :=
  [ "<script"; "</script>";
    "javascript:"; "vbscript:";
    "onload="; "onerror="; "onclick=";
    "eval("; "exec(";
    "DROP TABLE"; "DELETE FROM"; "INSERT INTO"; "UPDATE SET";
    "--"; "/*"; "*/";
    "UNION SELECT"; "OR 1=1"; "AND 1=1" ].

(** One round of the [for pattern in dangerous_patterns] loop. *)
Definition remove_pattern (sanitized pattern : string) : string :=
  let sanitized := PyStr.replace (PyStr.lower pattern) "" sanitized in
  let sanitized := PyStr.replace (PyStr.upper pattern) "" sanitized in
  let sanitized := PyStr.replace (PyStr.capitalize pattern) "" sanitized in
  sanitized.

(** The double quote character. *)
Definition double_quote : string := String "034"%char "".

Definition escape_special (sanitized : string) : string :=
  let sanitized := PyStr.replace "<" "&lt;" sanitized in
  let sanitized := PyStr.replace ">" "&gt;" sanitized in
  let sanitized := PyStr.replace double_quote "&quot;" sanitized in
  let sanitized := PyStr.replace "'" "&#x27;" sanitized in
  let sanitized := PyStr.replace "&" "&amp;" sanitized in
  sanitized.

Definition sanitize_input (input_data : string) : string :=
  if is_empty input_data then input_data
  else
    let sanitized := input_data in
    let sanitized := fold_left remove_pattern dangerous_patterns sanitized in
    let sanitized := escape_special sanitized in
    PyStr.strip sanitized.

End EncryptionService.

(** * services/auth_service.py *)
Module AuthService.
Section Service.

(** [bcrypt.checkpw] belongs to the bcrypt library.  One of its answers
    is the same in the releases 3, 4 and 5: for a password of at most 72
    octets without a NUL, a stored value with no [$] separator in it and
    no NUL has none of the three parts of a bcrypt hash and is answered
    with [ValueError("Invalid salt")].  (A longer password is cut to 72
    octets by the releases 3 and 4 and refused with another [ValueError]
    by release 5, before the stored value is read; release 3 refuses a
    NUL on either side beforehand.)  Everything else the library does
    (reading version, cost and salt, the Blowfish rounds, the
    constant-time comparison, its other errors) is [bcrypt_rest]. *)
Variable bcrypt_rest : bytes -> bytes -> result bool.

Definition nul : string := String "000"%char "".

Definition has_dollar_or_nul (hashed_password : bytes) : bool :=
  PyStr.contains "$" hashed_password || PyStr.contains nul hashed_password.

(** The passwords the library treats alike in every release. *)
Definition plain_password_bytes (password : bytes) : bool :=
  (String.length password <=? 72) && negb (PyStr.contains nul password).

Definition checkpw (password hashed_password : bytes) : result bool :=
  if plain_password_bytes password && negb (has_dollar_or_nul hashed_password)
  then Raise (ValueError "Invalid salt")
  else bcrypt_rest password hashed_password.

(** [verify_password] has no [try]: the library call is its last action. *)
Definition verify_password (plain_password hashed_password : string)
  : result bool :=
  let password_bytes := PyStr.encode plain_password in
  let hashed_bytes := PyStr.encode hashed_password in
  checkpw password_bytes hashed_bytes.

End Service.
End AuthService.

(** * services/logging_service.py: DatabaseErrorHandler *)
Module DatabaseErrorHandler.

(** The handler object: [self.retry_count], [self.max_retries],
    [self.retry_delay] (seconds). *)
Record t := mk {
  retry_count : nat;
  max_retries : nat;
  retry_delay : Q }.

(** [DatabaseErrorHandler(logger)] *)
Definition init : t :=
  {| retry_count := 0; max_retries := 3; retry_delay := 1 |}.

(** [any(indicator in error_str for indicator in indicators)] *)
Definition any_in (indicators : list string) (error_str : string) : bool :=
  existsb (fun indicator => PyStr.contains indicator error_str) indicators.

Definition _is_recoverable_error (error : exn) : bool :=
  let recoverable_errors :=
    ["OperationalError"; "DisconnectionError"; "TimeoutError"; "DatabaseError"] in
  let error_name := exc_type error in
  let error_str := PyStr.lower (exc_msg error) in
  if existsb (String.eqb error_name) recoverable_errors then true
  else
    let recoverable_indicators :=
      ["connection"; "timeout"; "network"; "temporary"; "retry"] in
    any_in recoverable_indicators error_str.

Definition _is_connection_error (error : exn) : bool :=
  let error_str := PyStr.lower (exc_msg error) in
  let connection_indicators :=
    ["connection"; "connect"; "network"; "host"; "server";
     "unreachable"; "refused"] in
  if PyStr.contains "timeout" error_str || PyStr.contains "time out" error_str
  then false
  else any_in connection_indicators error_str.

Definition _is_timeout_error (error : exn) : bool :=
  let error_str := PyStr.lower (exc_msg error) in
  PyStr.contains "timeout" error_str || PyStr.contains "time out" error_str.

Definition _is_constraint_error (error : exn) : bool :=
  let error_str := PyStr.lower (exc_msg error) in
  let constraint_indicators :=
    ["constraint"; "unique"; "foreign key"; "check constraint";
     "not null"; "primary key"] in
  any_in constraint_indicators error_str.

Definition _is_integrity_error (error : exn) : bool :=
  let error_name := exc_type error in
  existsb (String.eqb error_name) ["IntegrityError"; "DataError"].

(** The dictionary [handle_database_error] returns, without its clock
    reading.  The log lines it writes go through the secure logger and do
    not influence the control flow. *)
Record error_info := mk_info {
  error_type : string;
  operation : string;
  info_retry_count : nat;
  recoverable : bool;
  action_taken : string }.

Definition handle_database_error (self : t) (error : exn) (op : string)
  : error_info :=
  {| error_type := exc_type error;
     operation := op;
     info_retry_count := retry_count self;
     recoverable := _is_recoverable_error error;
     action_taken :=
       if _is_timeout_error error then "timeout_retry"
       else if _is_connection_error error then "connection_retry"
       else if _is_constraint_error error then "constraint_violation"
       else if _is_integrity_error error then "integrity_violation"
       else "unknown_error" |}.

Definition should_retry (self : t) (error : exn) : bool :=
  if max_retries self <=? retry_count self then false
  else _is_recoverable_error error.

Definition increment_retry (self : t) : t :=
  {| retry_count := retry_count self + 1;
     max_retries := max_retries self;
     retry_delay := retry_delay self |}.

Definition reset_retry_count (self : t) : t :=
  {| retry_count := 0;
     max_retries := max_retries self;
     retry_delay := retry_delay self |}.

(** [get_db_error_handler]: the module-level [_db_error_handler], created on
    first use and shared by every caller from then on. *)
Definition get_db_error_handler (_db_error_handler : option t)
  : t * option t :=
  match _db_error_handler with
  | None => (init, Some init)
  | Some h => (h, Some h)
  end.

End DatabaseErrorHandler.

(** * database.py: execute_with_retry *)
Module Database.
Import DatabaseErrorHandler.
Section Retry.

(** The wrapped operation acts on a store of type [W]; each invocation
    returns or raises and leaves the store in a new state. *)
Context {W A : Type}.
Variable operation : W -> result A * W.
Variable operation_name : string.

(** What one call of [execute_with_retry] did: the value returned or the
    exception that propagated, the arguments of [time.sleep] in order, how
    often the operation ran, and the classifications reported by
    [handle_database_error]. *)
Record run := mk_run {
  outcome : result A;
  sleeps : list Q;
  attempts : nat;
  reports : list error_info }.

(** The [while True] loop.  [fuel] bounds the number of iterations. *)
Fixpoint retry_loop (fuel : nat) (error_handler : t) (w : W)
    (slept : list Q) (tried : nat) (seen : list error_info)
  : option (run * t * W) :=
  match fuel with
  | O => None
  | S fuel' =>
      match operation w with
      | (Ok result, w') =>
          let error_handler := reset_retry_count error_handler in
          Some (mk_run (Ok result) slept (S tried) seen, error_handler, w')
      | (Raise e, w') =>
          if is_Exception e then
            let info :=
              handle_database_error error_handler e operation_name in
            if should_retry error_handler e then
              let error_handler := increment_retry error_handler in
              let delay :=
                (retry_delay error_handler
                 * inject_Z (Z.of_nat (retry_count error_handler)))%Q in
              retry_loop fuel' error_handler w'
                         (slept ++ [delay])%list (S tried) (seen ++ [info])%list
            else
              Some (mk_run (Raise e) slept (S tried) (seen ++ [info])%list,
                    error_handler, w')
          else
            (* not caught by [except Exception]: it leaves the loop at once *)
            Some (mk_run (Raise e) slept (S tried) seen, error_handler, w')
      end
  end.

(** [execute_with_retry(operation, operation_name)] on the process state
    [g] (the module-level handler) and the store [w].  Every retry raises
    the counter, which never passes [max_retries], so
    [max_retries - retry_count + 1] iterations are enough. *)
Definition execute_with_retry (g : option t) (w : W)
  : option (run * option t * W) :=
  let '(error_handler, _) := get_db_error_handler g in
  match retry_loop (S (max_retries error_handler - retry_count error_handler))
                   error_handler w [] 0 [] with
  | None => None
  | Some (r, error_handler', w') => Some (r, Some error_handler', w')
  end.

End Retry.
End Database.

(** * HTTP values (Starlette) *)
Module Http.

(** JSON documents; an object keeps its keys in insertion order. *)
Inductive json : Type :=
| JNull
| JBool (b : bool)
| JNum (z : Z)
| JStr (s : string)
| JArr (items : list json)
| JObj (fields : list (string * json)).

(** The letter U+00E1 of the Spanish messages. *)
Definition a_acute : string := String "225"%char "".

(** [obj[key]] on a JSON value *)
Definition field (key : string) (j : json) : option json :=
  match j with
  | JObj fields =>
      match find (fun kv => String.eqb (fst kv) key) fields with
      | Some kv => Some (snd kv)
      | None => None
      end
  | _ => None
  end.

(** Header lists hold lower-cased names, as Starlette stores them. *)
Definition headers := list (string * string).

(** [headers.get(name)] *)
Definition header_get (name : string) (hs : headers) : option string :=
  match find (fun kv => String.eqb (fst kv) (PyStr.lower name)) hs with
  | Some kv => Some (snd kv)
  | None => None
  end.

(** [MutableHeaders.__setitem__]: the first entry of that name is
    overwritten and later ones are dropped; a new name is appended. *)
Fixpoint header_replace (key value : string) (hs : headers) : headers :=
  match hs with
  | [] => []
  | kv :: rest =>
      if String.eqb (fst kv) key
      then (key, value)
             :: List.filter (fun kv' => negb (String.eqb (fst kv') key)) rest
      else kv :: header_replace key value rest
  end.

Definition header_set (name value : string) (hs : headers) : headers :=
  let key := PyStr.lower name in
  if existsb (fun kv => String.eqb (fst kv) key) hs
  then header_replace key value hs
  else (hs ++ [(key, value)])%list.

(** The part of a request the middleware reads: headers, the peer address
    ([request.client.host], absent without [request.client]), the URL path,
    the method, and [request.state.correlation_id] when it has been set. *)
Record Request := mk_request {
  req_headers : headers;
  req_client_host : option string;
  req_path : string;
  req_method : string;
  req_correlation_id : option string }.

Definition set_correlation_id (cid : string) (r : Request) : Request :=
  {| req_headers := req_headers r;
     req_client_host := req_client_host r;
     req_path := req_path r;
     req_method := req_method r;
     req_correlation_id := Some cid |}.

(** A response: status, JSON content, and the headers the application
    sets (the length and type headers of the transport are left out). *)
Record Response := mk_response {
  status_code : Z;
  content : json;
  resp_headers : headers }.

(** [JSONResponse(status_code=..., content=..., headers={...})] *)
Definition JSONResponse (status : Z) (body : json) (hs : headers) : Response :=
  {| status_code := status;
     content := body;
     resp_headers := List.map (fun kv => (PyStr.lower (fst kv), snd kv)) hs |}.

(** [response.headers[name] = value] *)
Definition with_header (name value : string) (r : Response) : Response :=
  {| status_code := status_code r;
     content := content r;
     resp_headers := header_set name value (resp_headers r) |}.

(** One entry of [exc.errors()]: the location path, whose items are field
    names or list positions, the message and the error type. *)
Inductive loc_item : Type :=
| LocName (s : string)
| LocIndex (i : Z).

Record validation_error := mk_verr {
  loc : list loc_item;
  msg : string;
  type_ : string }.

(** Exceptions as the middleware tells them apart with [except] and
    [isinstance].  [HTTPException] is [fastapi.HTTPException], the class
    the routes raise and [error_handler.py] imports;
    [StarletteHTTPException] is an instance of its base class
    [starlette.exceptions.HTTPException] that is not a
    [fastapi.HTTPException], as the router raises for an unknown path (404)
    or method (405), with the headers it carries. *)
Inductive web_exn : Type :=
| HTTPException (status : Z) (detail : string)
| RequestValidationError (errors : list validation_error)
| SQLAlchemyError (e : exn)
| OtherException (e : exn)
| StarletteHTTPException (status : Z) (detail : string) (hs : headers).

Inductive outcome : Type :=
| Returned (r : Response)
| Raised (e : web_exn).

(** [response.body.error.correlation_id] *)
Definition body_correlation_id (r : Response) : option json :=
  match field "error" (content r) with
  | Some err => field "correlation_id" err
  | None => None
  end.

Definition body_error_field (key : string) (r : Response) : option json :=
  match field "error" (content r) with
  | Some err => field key err
  | None => None
  end.

End Http.

(** * middleware/rate_limit.py *)
Module RateLimit.
Import Http.

(** The middleware object.  Each of the three dictionaries maps a key
    ["<ip>:burst"], ["<ip>:minute"], ["<ip>:hour"] to its deque of request
    times, oldest first. *)
Record t := mk {
  calls_per_minute : Z;
  calls_per_hour : Z;
  burst_limit : Z;
  cleanup_interval : Z;
  minute_requests : gmap string (list Q);
  hour_requests : gmap string (list Q);
  burst_requests : gmap string (list Q);
  last_cleanup : Q }.

(** [__init__]; [now] is the reading of [time.time()]. *)
Definition init (calls_per_minute calls_per_hour burst_limit
                 cleanup_interval : Z) (now : Q) : t :=
  {| calls_per_minute := calls_per_minute;
     calls_per_hour := calls_per_hour;
     burst_limit := burst_limit;
     cleanup_interval := cleanup_interval;
     minute_requests := empty;
     hour_requests := empty;
     burst_requests := empty;
     last_cleanup := now |}.

Definition Qgt_bool (x y : Q) : bool := negb (Qle_bool x y).

(** [s.split(",")[0]] *)
Fixpoint before_comma (s : string) : string :=
  match s with
  | EmptyString => EmptyString
  | String c r =>
      if Ascii.eqb c ","%char then EmptyString else String c (before_comma r)
  end.

Definition truthy (o : option string) : option string :=
  match o with
  | Some EmptyString => None
  | _ => o
  end.

Definition _get_client_ip (request : Request) : string :=
  match truthy (header_get "X-Forwarded-For" (req_headers request)) with
  | Some forwarded_for => PyStr.strip (before_comma forwarded_for)
  | None =>
      match truthy (header_get "X-Real-IP" (req_headers request)) with
      | Some real_ip => real_ip
      | None =>
          match req_client_host request with
          | Some host => host
          | None => "unknown"
          end
      end
  end.

Section Float.

(** The clock readings are Python floats, doubles, given here as the
    rationals they denote.  [fsub a b] is [a - b] as the interpreter
    computes it on two doubles: the exact difference rounded to the
    nearest double. *)
Variable fsub : Q -> Q -> Q.

(** [while requests and current_time - requests[0] > horizon:
        requests.popleft()] *)
Fixpoint evict (horizon current_time : Q) (requests : list Q) : list Q :=
  match requests with
  | [] => []
  | oldest :: rest =>
      if Qgt_bool (fsub current_time oldest) horizon
      then evict horizon current_time rest
      else requests
  end.

(** [d[key]] on a [defaultdict(deque)]: a missing key reads as an empty
    deque (and is entered into the dictionary by the caller's update). *)
Definition window (d : gmap string (list Q)) (key : string) : list Q :=
  default [] (d !! key).

Definition _is_sensitive_endpoint (path : string) : bool :=
  let sensitive_patterns := ["/auth/login"; "/auth/logout"; "/auth/me"] in
  existsb (fun pattern => PyStr.contains pattern path) sensitive_patterns.

Definition set_burst (self : t) (d : gmap string (list Q)) : t :=
  mk (calls_per_minute self) (calls_per_hour self) (burst_limit self)
     (cleanup_interval self) (minute_requests self) (hour_requests self)
     d (last_cleanup self).

Definition set_minute (self : t) (d : gmap string (list Q)) : t :=
  mk (calls_per_minute self) (calls_per_hour self) (burst_limit self)
     (cleanup_interval self) d (hour_requests self)
     (burst_requests self) (last_cleanup self).

Definition set_hour (self : t) (d : gmap string (list Q)) : t :=
  mk (calls_per_minute self) (calls_per_hour self) (burst_limit self)
     (cleanup_interval self) (minute_requests self) d
     (burst_requests self) (last_cleanup self).

Definition len (requests : list Q) : Z := Z.of_nat (List.length requests).

(** [_is_rate_limited]: the verdict and the object after the evictions the
    checks made on the way. *)
Definition _is_rate_limited (self : t) (client_ip path : string)
    (current_time : Q) : bool * t :=
  let burst_key := client_ip ++ ":burst" in
  let burst := evict 10 current_time (window (burst_requests self) burst_key) in
  let self := set_burst self (<[burst_key := burst]> (burst_requests self)) in
  if (burst_limit self <=? len burst)%Z then (true, self)
  else
    let minute_key := client_ip ++ ":minute" in
    let minute :=
      evict 60 current_time (window (minute_requests self) minute_key) in
    let self :=
      set_minute self (<[minute_key := minute]> (minute_requests self)) in
    if (calls_per_minute self <=? len minute)%Z then (true, self)
    else
      let hour_key := client_ip ++ ":hour" in
      let hour :=
        evict 3600 current_time (window (hour_requests self) hour_key) in
      let self := set_hour self (<[hour_key := hour]> (hour_requests self)) in
      if (calls_per_hour self <=? len hour)%Z then (true, self)
      else
        if _is_sensitive_endpoint path then
          let auth_limit := Z.min 10 (calls_per_minute self / 6) in
          if (auth_limit <=? len minute)%Z then (true, self)
          else (false, self)
        else (false, self).

Definition append (d : gmap string (list Q)) (key : string) (x : Q)
  : gmap string (list Q) :=
  <[key := (window d key ++ [x])%list]> d.

Definition _record_request (self : t) (client_ip : string) (current_time : Q)
  : t :=
  let self :=
    set_burst self
      (append (burst_requests self) (client_ip ++ ":burst") current_time) in
  let self :=
    set_minute self
      (append (minute_requests self) (client_ip ++ ":minute") current_time) in
  set_hour self
    (append (hour_requests self) (client_ip ++ ":hour") current_time).

(** One of the three loops of [_cleanup_old_requests]. *)
Definition sweep (horizon current_time : Q) (d : gmap string (list Q))
  : gmap string (list Q) :=
  omap (fun requests =>
          match evict horizon current_time requests with
          | [] => None
          | kept => Some kept
          end) d.

Definition _cleanup_old_requests (self : t) (current_time : Q) : t :=
  let self :=
    set_burst self (sweep 10 current_time (burst_requests self)) in
  let self :=
    set_minute self (sweep 60 current_time (minute_requests self)) in
  set_hour self (sweep 3600 current_time (hour_requests self)).

(** [timestamp] is the text [time.strftime] produces from the clock. *)
Definition _create_rate_limit_response (client_ip : string)
    (request : Request) (timestamp : string) : Response :=
  let correlation_id :=
    match req_correlation_id request with
    | Some cid => cid
    | None => "unknown"
    end in
  let error_response :=
    JObj [("error",
           JObj [("code", JStr "RATE_LIMIT_EXCEEDED");
                 ("message",
                  JStr ("Demasiadas solicitudes. Intente nuevamente m"
                        ++ a_acute ++ "s tarde."));
                 ("correlation_id", JStr correlation_id);
                 ("timestamp", JStr timestamp);
                 ("path", JStr (req_path request));
                 ("method", JStr (req_method request))])] in
  let headers :=
    [("X-Correlation-ID", correlation_id); ("Retry-After", "60")] in
  JSONResponse 429 error_response headers.

(** [int(x)] for a float: truncation toward zero. *)
Definition int_of_Q (x : Q) : Z := Z.quot (Qnum x) (Zpos (Qden x)).

Definition _add_rate_limit_headers (self : t) (response : Response)
    (client_ip : string) (current_time : Q) : Response :=
  let minute_requests :=
    len (window (minute_requests self) (client_ip ++ ":minute")) in
  let hour_requests :=
    len (window (hour_requests self) (client_ip ++ ":hour")) in
  let remaining_minute := Z.max 0 (calls_per_minute self - minute_requests) in
  let remaining_hour := Z.max 0 (calls_per_hour self - hour_requests) in
  let response :=
    with_header "X-RateLimit-Limit-Minute"
                (PyStr.str_of_Z (calls_per_minute self)) response in
  let response :=
    with_header "X-RateLimit-Remaining-Minute"
                (PyStr.str_of_Z remaining_minute) response in
  let response :=
    with_header "X-RateLimit-Limit-Hour"
                (PyStr.str_of_Z (calls_per_hour self)) response in
  let response :=
    with_header "X-RateLimit-Remaining-Hour"
                (PyStr.str_of_Z remaining_hour) response in
  let reset_time :=
    (int_of_Q current_time + (60 - int_of_Q current_time mod 60))%Z in
  with_header "X-RateLimit-Reset" (PyStr.str_of_Z reset_time) response.

Definition set_last_cleanup (self : t) (now : Q) : t :=
  mk (calls_per_minute self) (calls_per_hour self) (burst_limit self)
     (cleanup_interval self) (minute_requests self) (hour_requests self)
     (burst_requests self) now.

(** The opening of [dispatch]: the sweep runs when more than
    [cleanup_interval] seconds have passed since the last one. *)
Definition periodic_cleanup (self : t) (current_time : Q) : t :=
  if Qgt_bool (fsub current_time (last_cleanup self))
              (inject_Z (cleanup_interval self))
  then set_last_cleanup (_cleanup_old_requests self current_time) current_time
  else self.

Section Dispatch.

(** The rest of the application, acting on its own state [S]. *)
Context {S : Type}.
Variable call_next : Request -> S -> outcome * S.

(** [dispatch]; [current_time] is the reading of [time.time()] and
    [timestamp] the clock text used in a 429 body. *)
Definition dispatch (current_time : Q) (timestamp : string)
    (request : Request) (self : t) (s : S) : outcome * t * S :=
  let client_ip := _get_client_ip request in
  let self := periodic_cleanup self current_time in
  let '(limited, self) :=
    _is_rate_limited self client_ip (req_path request) current_time in
  if limited
  then (Returned (_create_rate_limit_response client_ip request timestamp),
        self, s)
  else
    let self := _record_request self client_ip current_time in
    match call_next request s with
    | (Returned response, s') =>
        (Returned (_add_rate_limit_headers self response client_ip
                                           current_time), self, s')
    | (Raised e, s') => (Raised e, self, s')
    end.

(** Requests handled one after the other: each entry is a request with
    the clock readings it meets. *)
Fixpoint serve (arrivals : list (Request * Q * string)) (self : t) (s : S)
  : list outcome * t * S :=
  match arrivals with
  | [] => ([], self, s)
  | (request, current_time, timestamp) :: rest =>
      let '(o, self', s') := dispatch current_time timestamp request self s in
      let '(os, self'', s'') := serve rest self' s' in
      (o :: os, self'', s'')
  end.

End Dispatch.

End Float.

(** The configuration is never written after [__init__]. *)
Definition same_config (a b : t) : Prop :=
  calls_per_minute a = calls_per_minute b
  /\ calls_per_hour a = calls_per_hour b
  /\ burst_limit a = burst_limit b
  /\ cleanup_interval a = cleanup_interval b.

(** The windows of one client: the minute and the hour deque both hold
    [seen], and the burst deque holds at most [b] entries. *)
Definition tracks (self : t) (client_ip : string) (seen : list Q) (b : nat)
  : Prop :=
  window (minute_requests self) (client_ip ++ ":minute") = seen
  /\ window (hour_requests self) (client_ip ++ ":hour") = seen
  /\ List.length (window (burst_requests self) (client_ip ++ ":burst")) <= b.

(** The oldest entry of a deque is at most [horizon] seconds old. *)
Definition fresh (horizon current_time : Q) (requests : list Q) : Prop :=
  match requests with
  | [] => True
  | oldest :: _ => (current_time - oldest <= horizon)%Q
  end.

(** No deque of [after] holds an entry that [before] lacks: each is what is
    left of the old one once entries were taken from its front. *)
Definition nothing_appended (before after : t) : Prop :=
  forall key,
    window (burst_requests after) key `suffix_of`
      window (burst_requests before) key
    /\ window (minute_requests after) key `suffix_of`
         window (minute_requests before) key
    /\ window (hour_requests after) key `suffix_of`
         window (hour_requests before) key.

End RateLimit.

(** The three horizons of the rate limiter, in seconds. *)
Definition is_horizon (h : Q) : Prop := h = 10%Q \/ h = 60%Q \/ h = 3600%Q.

(** What is used of the subtraction of doubles.  Rounding to the nearest
    double is monotone and 10, 60 and 3600 are doubles, so a difference
    that is at most a horizon is not rounded above it: *)
Definition rounds_within (fsub : Q -> Q -> Q) : Prop :=
  forall a b h, is_horizon h -> (a - b <= h)%Q -> (fsub a b <= h)%Q.

(** and the computed difference grows with its first argument and falls
    with its second. *)
Definition rounds_monotone (fsub : Q -> Q -> Q) : Prop :=
  forall a a' b b',
    (a <= a')%Q -> (b' <= b)%Q -> (fsub a b <= fsub a' b')%Q.

(** * middleware/error_handler.py *)
Module ErrorHandler.
Import Http.

(** [_create_error_response]; [timestamp] is
    [datetime.now(timezone.utc).isoformat()].  [details] is attached when
    it is given and not empty. *)
Definition _create_error_response (status : Z) (error_code message
    correlation_id : string) (request : Request) (timestamp : string)
    (details : option (list json)) : Response :=
  let error :=
    [("code", JStr error_code);
     ("message", JStr message);
     ("correlation_id", JStr correlation_id);
     ("timestamp", JStr timestamp);
     ("path", JStr (req_path request));
     ("method", JStr (req_method request))] in
  let error :=
    match details with
    | Some (d :: ds) => (error ++ [("details", JArr (d :: ds))])%list
    | _ => error
    end in
  JSONResponse status (JObj [("error", JObj error)])
               [("X-Correlation-ID", correlation_id)].

(** [str(loc)] for one item of a location path *)
Definition str_loc (l : loc_item) : string :=
  match l with
  | LocName s => s
  | LocIndex i => PyStr.str_of_Z i
  end.

(** [" -> ".join(str(loc) for loc in error["loc"])] *)
Definition field_path (error : validation_error) : string :=
  PyStr.join " -> " (List.map str_loc (loc error)).

(** One pass of the formatting loop (the same in
    [_format_validation_errors] and in [validation_exception_handler]). *)
Definition format_error (error : validation_error) : json :=
  JObj [("field", JStr (field_path error));
        ("message", JStr (msg error));
        ("type", JStr (type_ error))].

Definition _format_validation_errors (errors : list validation_error)
  : list json :=
  List.map format_error errors.

(** [getattr(request.state, 'correlation_id', str(uuid.uuid4()))]: the
    default is computed before the lookup, [fresh] is its value. *)
Definition correlation_id_or (fresh : string) (request : Request) : string :=
  match req_correlation_id request with
  | Some cid => cid
  | None => fresh
  end.

Definition http_exception_handler (request : Request) (status : Z)
    (detail : string) (fresh timestamp : string) : Response :=
  let correlation_id := correlation_id_or fresh request in
  let error_response :=
    JObj [("error",
           JObj [("code", JStr "HTTP_EXCEPTION");
                 ("message", JStr detail);
                 ("correlation_id", JStr correlation_id);
                 ("timestamp", JStr timestamp);
                 ("path", JStr (req_path request));
                 ("method", JStr (req_method request))])] in
  JSONResponse status error_response [("X-Correlation-ID", correlation_id)].

Definition validation_exception_handler (request : Request)
    (errors : list validation_error) (fresh timestamp : string) : Response :=
  let correlation_id := correlation_id_or fresh request in
  let formatted_errors := List.map format_error errors in
  let error_response :=
    JObj [("error",
           JObj [("code", JStr "VALIDATION_ERROR");
                 ("message",
                  JStr ("Los datos proporcionados no son v" ++ a_acute
                        ++ "lidos"));
                 ("details", JArr formatted_errors);
                 ("correlation_id", JStr correlation_id);
                 ("timestamp", JStr timestamp);
                 ("path", JStr (req_path request));
                 ("method", JStr (req_method request))])] in
  JSONResponse 422 error_response [("X-Correlation-ID", correlation_id)].

(** [fastapi.utils.is_body_allowed_for_status_code] *)
Definition is_body_allowed_for_status_code (status : Z) : bool :=
  negb ((status <? 200) || (status =? 204) || (status =? 205)
        || (status =? 304))%Z.

(** [fastapi.exception_handlers.http_exception_handler], the handler of
    FastAPI for Starlette's [HTTPException]: the body is
    [{"detail": exc.detail}], or there is no body (here the content
    [JNull]) when the status allows none; the headers are those of the
    exception. *)
Definition default_http_exception_handler (status : Z) (detail : string)
    (hs : headers) : Response :=
  if is_body_allowed_for_status_code status
  then JSONResponse status (JObj [("detail", JStr detail)]) hs
  else JSONResponse status JNull hs.

Section Middleware.

(** [uuid4 n] is the text of the [n]-th value that [uuid.uuid4()] hands out
    in this process; the number of calls made so far is part of the state. *)
Variable uuid4 : nat -> string.

Context {S : Type}.

(** The handlers around the routes.  [setup_exception_handlers] registers
    its two handlers for [fastapi.HTTPException] and for
    [RequestValidationError]; an instance of Starlette's [HTTPException]
    that is not a [fastapi.HTTPException] goes to the handler FastAPI
    registers for that class by default; any other exception travels
    on. *)
Definition exception_handlers (route : Request -> S -> outcome * S)
    (timestamp : string) (request : Request) (st : nat * S)
  : outcome * (nat * S) :=
  let '(calls, s) := st in
  match route request s with
  | (Returned response, s') => (Returned response, (calls, s'))
  | (Raised (HTTPException status detail), s') =>
      (Returned (http_exception_handler request status detail
                                        (uuid4 calls) timestamp),
       (calls + 1, s'))
  | (Raised (RequestValidationError errors), s') =>
      (Returned (validation_exception_handler request errors
                                              (uuid4 calls) timestamp),
       (calls + 1, s'))
  | (Raised (StarletteHTTPException status detail hs), s') =>
      (Returned (default_http_exception_handler status detail hs),
       (calls, s'))
  | (Raised e, s') => (Raised e, (calls, s'))
  end.

(** [ErrorHandlerMiddleware.dispatch] *)
Definition dispatch (call_next : Request -> nat * S -> outcome * (nat * S))
    (timestamp : string) (request : Request) (st : nat * S)
  : outcome * (nat * S) :=
  let '(calls, s) := st in
  let correlation_id := uuid4 calls in
  let request := set_correlation_id correlation_id request in
  match call_next request (calls + 1, s) with
  | (Returned response, st') =>
      (Returned (with_header "X-Correlation-ID" correlation_id response), st')
  | (Raised (SQLAlchemyError _), st') =>
      (Returned
         (_create_error_response 500 "DATABASE_ERROR"
            "Error interno del servidor - problema de base de datos"
            correlation_id request timestamp None), st')
  | (Raised (HTTPException status detail), st') =>
      (Raised (HTTPException status detail), st')
  | (Raised (OtherException e), st') =>
      if is_Exception e then
        (Returned
           (_create_error_response 500 "INTERNAL_SERVER_ERROR"
              "Error interno del servidor"
              correlation_id request timestamp None), st')
      else
        (* not caught by [except Exception] *)
        (Raised (OtherException e), st')
  | (Raised _, st') =>
      (Returned
         (_create_error_response 500 "INTERNAL_SERVER_ERROR"
            "Error interno del servidor"
            correlation_id request timestamp None), st')
  end.

End Middleware.
End ErrorHandler.

(** * main.py: the middleware stack

    [add_middleware] puts the middleware added last outermost, so a request
    passes [CORSMiddleware], then [ErrorHandlerMiddleware], then
    [RateLimitMiddleware], then the registered exception handlers and the
    route. *)
Module App.
Import Http.

(** What one request finds: the reading of [time.time()], the clock text
    of [datetime.now(timezone.utc).isoformat()] and that of
    [time.strftime]. *)
Record arrival := mk_arrival {
  request : Request;
  current_time : Q;
  timestamp : string;
  gmtime_text : string }.

(** Process state: the number of [uuid.uuid4()] calls so far, the rate
    limiter, and the state [S] behind the routes.  Of the five middlewares
    of [main.py] the stack has the three that answer requests themselves:
    [CORSMiddleware], added last and so the outermost,
    [ErrorHandlerMiddleware] and [RateLimitMiddleware];
    [InputSanitizerMiddleware] passes every response on as it is. *)
Section Stack.

Variable fsub : Q -> Q -> Q.
Variable uuid4 : nat -> string.

(** Starlette's [CORSMiddleware] as configured in [main.py]:
    [preflight_response] is its answer to a preflight request, built from
    the headers of the request, and [simple_response] is what it does to
    the headers of a response to any other request that names an origin. *)
Variable preflight_response : headers -> Response.
Variable simple_response : headers -> Response -> Response.

Context {S : Type}.
Variable route : Request -> S -> outcome * S.

Definition limited_routes (a : arrival) (req : Request)
    (st : nat * (RateLimit.t * S)) : outcome * (nat * (RateLimit.t * S)) :=
  let '(calls, (limiter, s)) := st in
  let '(o, limiter', (calls', s')) :=
    RateLimit.dispatch fsub
      (ErrorHandler.exception_handlers uuid4 route (timestamp a))
      (current_time a) (gmtime_text a) req limiter (calls, s) in
  (o, (calls', (limiter', s'))).

(** The stack inside [CORSMiddleware]. *)
Definition handled (a : arrival) (st : nat * (RateLimit.t * S))
  : outcome * (nat * (RateLimit.t * S)) :=
  ErrorHandler.dispatch uuid4 (limited_routes a) (timestamp a) (request a) st.

(** [method == "OPTIONS" and "access-control-request-method" in headers] *)
Definition is_preflight (r : Request) : bool :=
  String.eqb (req_method r) "OPTIONS"
  && match header_get "access-control-request-method" (req_headers r) with
     | Some _ => true
     | None => false
     end.

(** [CORSMiddleware.__call__]: a request without [Origin] goes to the
    wrapped application untouched; a preflight request is answered at
    once; any other request goes on and the headers of its response are
    completed. *)
Definition app (a : arrival) (st : nat * (RateLimit.t * S))
  : outcome * (nat * (RateLimit.t * S)) :=
  match header_get "origin" (req_headers (request a)) with
  | None => handled a st
  | Some _ =>
      if is_preflight (request a)
      then (Returned (preflight_response (req_headers (request a))), st)
      else
        match handled a st with
        | (Returned response, st') =>
            (Returned (simple_response (req_headers (request a)) response),
             st')
        | (Raised e, st') => (Raised e, st')
        end
  end.

(** The requests [CORSMiddleware] answers itself. *)
Definition answered_by_cors (a : arrival) : bool :=
  match header_get "origin" (req_headers (request a)) with
  | None => false
  | Some _ => is_preflight (request a)
  end.

(** Requests served one after the other. *)
Fixpoint serve (arrivals : list arrival) (st : nat * (RateLimit.t * S))
  : list outcome * (nat * (RateLimit.t * S)) :=
  match arrivals with
  | [] => ([], st)
  | a :: rest =>
      let '(o, st') := app a st in
      let '(os, st'') := serve rest st' in
      (o :: os, st'')
  end.

End Stack.

(** What is used of Starlette's [CORSMiddleware]: on the way out it adds
    the headers of the CORS protocol and leaves the status, the body and
    [X-Correlation-ID] as they are; *)
Definition completes_headers
    (simple_response : headers -> Response -> Response) : Prop :=
  forall hs r,
    status_code (simple_response hs r) = status_code r
    /\ content (simple_response hs r) = content r
    /\ header_get "X-Correlation-ID" (resp_headers (simple_response hs r))
       = header_get "X-Correlation-ID" (resp_headers r).

(** and its answer to a preflight request is a plain text with the headers
    of the protocol only. *)
Definition preflight_is_plain (preflight_response : headers -> Response)
  : Prop :=
  forall hs,
    header_get "X-Correlation-ID" (resp_headers (preflight_response hs))
    = None
    /\ field "error" (content (preflight_response hs)) = None.

(** The exceptions of a route that the application's own handlers answer:
    [fastapi.HTTPException] and [RequestValidationError] by the registered
    handlers, [SQLAlchemyError] and whatever else derives from [Exception]
    by [ErrorHandlerMiddleware].  Starlette's own [HTTPException] is
    answered by FastAPI's handler, and an exception outside [Exception] by
    nobody. *)
Definition answered_by_application (e : web_exn) : bool :=
  match e with
  | HTTPException _ _ => true
  | RequestValidationError _ => true
  | SQLAlchemyError _ => true
  | OtherException e => is_Exception e
  | StarletteHTTPException _ _ _ => false
  end.

End App.

(** * Stand-ins for the libraries

    Used to run the services on concrete inputs: a token format that keeps
    the Fernet framing (version octet, then the random part, then the
    payload), a key that authenticates no token, and a bcrypt back end that
    matches nothing. *)
Module Fixture.

Definition fernet_encrypt (rnd data : bytes) : option bytes :=
  Some (String (ascii_of_nat 128) (rnd ++ data)).

Definition fernet_decrypt (token : bytes) : option bytes := None.

Definition urlsafe_b64decode (b : bytes) : option bytes := Some b.

Definition decode (b : bytes) : option string := Some b.

Definition bcrypt_rest (password hashed : bytes) : result bool := Ok false.

(** An operation that raises the same exception at every attempt. *)
Definition always_raises (e : exn) (w : unit) : result unit * unit :=
  (Raise e, w).

(** The operation of the repository's retry test: it fails twice with a
    transient error and then succeeds. *)
Definition fails_twice (calls : nat) : result string * nat :=
  if calls <? 2
  then (Raise (mk_exn "Exception" "temporary failure"), Datatypes.S calls)
  else (Ok "success_test_operation", Datatypes.S calls).

(** A client behind a proxy asking for a plain route, and a route that
    answers 200 and counts its calls. *)
Definition request : Http.Request :=
  Http.mk_request [("x-forwarded-for", "10.0.0.7, 172.16.0.1")]
                  (Some "testclient") "/test" "GET" None.

Definition ok_response : Http.Response :=
  Http.mk_response 200 (Http.JObj [("message", Http.JStr "success")]) [].

Definition route (r : Http.Request) (calls : nat) : Http.outcome * nat :=
  (Http.Returned ok_response, Datatypes.S calls).

(** A route whose database query fails. *)
Definition failing_route (r : Http.Request) (calls : nat)
  : Http.outcome * nat :=
  (Http.Raised (Http.SQLAlchemyError
                  (mk_exn "OperationalError" "database is locked")),
   Datatypes.S calls).

(** A source of identifiers that never repeats. *)
Definition uuid4 (n : nat) : string :=
  "00000000-0000-4000-8000-" ++ PyStr.repeat "0" n.

(** Clock readings whose differences are doubles: the subtraction is
    exact. *)
Definition fsub (a b : Q) : Q := a - b.

(** A path no route is registered for: the router raises Starlette's
    [HTTPException(status_code=404)], whose detail is the phrase of the
    status. *)
Definition unknown_route (r : Http.Request) (calls : nat)
  : Http.outcome * nat :=
  (Http.Raised (Http.StarletteHTTPException 404 "Not Found" []), calls).

(** A route that is interrupted: [KeyboardInterrupt] is no [Exception]. *)
Definition interrupted_route (r : Http.Request) (calls : nat)
  : Http.outcome * nat :=
  (Http.Raised (Http.OtherException (mk_exc "KeyboardInterrupt" "" false)),
   calls).

(** The CORS middleware with [allow_origins=["*"]] and
    [allow_credentials=True], for requests without cookies. *)
Definition preflight_response (hs : Http.headers) : Http.Response :=
  Http.mk_response 200 (Http.JStr "OK")
    [("access-control-allow-origin", "*");
     ("access-control-allow-credentials", "true");
     ("vary", "Origin")].

Definition simple_response (hs : Http.headers) (r : Http.Response)
  : Http.Response :=
  Http.with_header "access-control-allow-credentials" "true"
    (Http.with_header "access-control-allow-origin" "*" r).

(** The request of [Fixture.request] as a browser sends it from another
    origin, and the preflight request that precedes it. *)
Definition cross_origin_request : Http.Request :=
  Http.mk_request [("x-forwarded-for", "10.0.0.7, 172.16.0.1");
                   ("origin", "https://example.org")]
                  (Some "testclient") "/test" "GET" None.

Definition preflight_request : Http.Request :=
  Http.mk_request [("origin", "https://example.org");
                   ("access-control-request-method", "GET")]
                  (Some "testclient") "/test" "OPTIONS" None.

End Fixture.

(** * The specification's reading of a validation detail

    The specification describes an entry of [details] as
    [{field, message, kind}] with [field] a dotted path.  These two
    definitions follow its words; they are compared with [format_error]. *)
Module SpecReading.
Import Http.

Definition dotted_path (error : validation_error) : string :=
  PyStr.join "." (List.map ErrorHandler.str_loc (loc error)).

Definition detail_entry (error : validation_error) : json :=
  JObj [("field", JStr (dotted_path error));
        ("message", JStr (msg error));
        ("kind", JStr (type_ error))].

End SpecReading.

(** Two calls of [execute_with_retry] in a row in one process: the second
    finds the handler as the first left it. *)
Definition execute_twice {W A : Type} (operation : W -> result A * W)
    (operation_name : string) (w : W)
  : option (Database.run * option DatabaseErrorHandler.t * Database.run) :=
  match Database.execute_with_retry operation operation_name None w with
  | None => None
  | Some (first, g, w') =>
      match Database.execute_with_retry operation operation_name g w' with
      | None => None
      | Some (second, _, _) => Some (first, g, second)
      end
  end.

(** The states the module-level handler can be in: not yet created, or the
    object of [__init__] with some counter. *)
Definition handler_state (g : option DatabaseErrorHandler.t) : Prop :=
  g = None \/ exists n, g = Some (DatabaseErrorHandler.mk n 3 1).

(** The value of [X-Correlation-ID] on what a request got back. *)
Definition correlation_header (o : Http.outcome) : option string :=
  match o with
  | Http.Returned r => Http.header_get "X-Correlation-ID" (Http.resp_headers r)
  | Http.Raised _ => None
  end.

Fixpoint all_chars (f : ascii -> bool) (s : string) : bool :=
  match s with
  | EmptyString => true
  | String c r => f c && all_chars f r
  end.


(** * services/card_service.py *)
Module CardService.

(** A row of [credit_cards].  Amounts are decimal numbers, the creation
    time is kept as its text. *)
Record CreditCard := mk_card {
  id : option Z;
  account_id : Z;
  card_number : string;
  card_type : string;
  expiry_month : Z;
  expiry_year : Z;
  status : string;
  credit_limit : Q;
  available_credit : Q;
  created_at : string }.

(** [card.card_number = value] *)
Definition set_card_number (card : CreditCard) (value : string) : CreditCard :=
  mk_card (id card) (account_id card) value (card_type card)
          (expiry_month card) (expiry_year card) (status card)
          (credit_limit card) (available_credit card) (created_at card).

(** The session as far as the migration uses it: the card objects it has
    loaded, which the code updates in place, and the rows as last
    committed.  [commit_error] is the exception a commit raises, if any. *)
Record Session := mk_session {
  objects : list CreditCard;
  stored : list CreditCard;
  commit_error : option exn }.

Section Service.

Variable fernet_encrypt : bytes -> bytes -> option bytes.
Variable fernet_decrypt : bytes -> option bytes.
Variable urlsafe_b64decode : bytes -> option bytes.
Variable decode : bytes -> option string.

(** The randomness of the [n]-th encryption of the process. *)
Variable rnd : nat -> bytes.

(** [CardService.mask_card_number]: the service's function returns a
    string on every path, so the [except] branch of the wrapper is never
    entered. *)
Definition mask_card_number (card_number : string) : string :=
  EncryptionService.mask_card_number
    fernet_decrypt urlsafe_b64decode decode card_number.

(** The [for card in cards] loop of [encrypt_existing_card_numbers]:
    [calls] counts the encryptions made so far.  A card whose encryption
    raises is logged and skipped. *)
Fixpoint encrypt_loop (cards : list CreditCard) (calls updated_count : nat)
  : list CreditCard * nat * nat :=
  match cards with
  | [] => ([], calls, updated_count)
  | card :: rest =>
      if String.length (card_number card) <=? 20 then
        match EncryptionService.encrypt_card_number
                fernet_encrypt (rnd calls) (card_number card) with
        | Ok encrypted_number =>
            let '(rest', calls', count') :=
              encrypt_loop rest (calls + 1) (updated_count + 1) in
            (set_card_number card encrypted_number :: rest', calls', count')
        | Raise _ =>
            let '(rest', calls', count') :=
              encrypt_loop rest (calls + 1) updated_count in
            (card :: rest', calls', count')
        end
      else
        let '(rest', calls', count') :=
          encrypt_loop rest calls updated_count in
        (card :: rest', calls', count')
  end.

(** [encrypt_existing_card_numbers(session)]: the number of cards updated,
    or the exception of the commit. *)
Definition encrypt_existing_card_numbers (session : Session) (calls : nat)
  : result nat * Session * nat :=
  let '(cards, calls', updated_count) :=
    encrypt_loop (objects session) calls 0 in
  if 0 <? updated_count then
    match commit_error session with
    | Some e =>
        (Raise e, mk_session cards (stored session) (commit_error session),
         calls')
    | None =>
        (Ok updated_count, mk_session cards cards (commit_error session),
         calls')
    end
  else
    (Ok updated_count, mk_session cards (stored session) (commit_error session),
     calls').

End Service.
End CardService.

(** * Stand-ins that undo what they did

    A framing that a matching reader takes off again, a base64 reader for
    the alphabet of the encoder, and a UTF-8 reader for the code points the
    model has. *)
Module Loopback.

Definition frame (rnd : bytes) : bytes :=
  substring 0 24 (rnd ++ PyStr.repeat "0" 24).

Definition fernet_encrypt (rnd data : bytes) : option bytes :=
  Some (String (ascii_of_nat 128) (frame rnd ++ data)).

Definition fernet_decrypt (token : bytes) : option bytes :=
  match token with
  | EmptyString => None
  | String c r =>
      if (PyStr.code c =? 128) && (24 <=? String.length r)
      then Some (substring 24 (String.length r - 24) r)
      else None
  end.

Definition unsextet (c : ascii) : option nat :=
  String.index 0 (String c "") Base64.alphabet.

Definition pad : ascii := "="%char.

Fixpoint urlsafe_b64decode (s : bytes) : option bytes :=
  match s with
  | EmptyString => Some EmptyString
  | String a (String b (String c (String d r))) =>
      match unsextet a, unsextet b with
      | Some x, Some y =>
          let o1 := ascii_of_nat (x * 4 + y / 16) in
          if Ascii.eqb d pad then
            match r with
            | EmptyString =>
                if Ascii.eqb c pad then Some (String o1 "")
                else
                  match unsextet c with
                  | Some z =>
                      Some (String o1
                              (String (ascii_of_nat (y mod 16 * 16 + z / 4)) ""))
                  | None => None
                  end
            | _ => None
            end
          else
            match unsextet c, unsextet d, urlsafe_b64decode r with
            | Some z, Some w, Some rest =>
                Some (String o1
                        (String (ascii_of_nat (y mod 16 * 16 + z / 4))
                           (String (ascii_of_nat (z mod 4 * 64 + w)) rest)))
            | _, _, _ => None
            end
      | _, _ => None
      end
  | _ => None
  end.

Fixpoint decode (b : bytes) : option string :=
  match b with
  | EmptyString => Some EmptyString
  | String x r =>
      if PyStr.code x <? 128
      then option_map (String x) (decode r)
      else
        match r with
        | String y r' =>
            if ((PyStr.code x =? 194) || (PyStr.code x =? 195))
               && (128 <=? PyStr.code y) && (PyStr.code y <? 192)
            then option_map
                   (String (ascii_of_nat ((PyStr.code x - 192) * 64
                                          + (PyStr.code y - 128))))
                   (decode r')
            else None
        | EmptyString => None
        end
  end.

End Loopback.

(** The libraries undo, on one message, what they did to it: the token
    Fernet made of the message is not empty, the base64 reader gives it
    back from its text, Fernet opens it, and the octets read as UTF-8 give
    the message. *)
Definition libraries_invert
  (fernet_encrypt : bytes -> bytes -> option bytes)
  (fernet_decrypt : bytes -> option bytes)
  (urlsafe_b64decode : bytes -> option bytes)
  (decode : bytes -> option string)
  (rnd : bytes) (data : string) (token : bytes)
  : Prop :=
  fernet_encrypt rnd (PyStr.encode data) = Some token
  /\ token <> ""
  /\ urlsafe_b64decode (Base64.urlsafe_b64encode token) = Some token
  /\ fernet_decrypt token = Some (PyStr.encode data)
  /\ decode (PyStr.encode data) = Some data.

(** * services/auth_service.py: authenticate_user *)
Module Authentication.

(** A row of [users]; the two time stamps are kept as text. *)
Record User := mk_user {
  id : option Z;
  username : string;
  email : string;
  hashed_password : string;
  is_active : bool;
  created_at : string;
  updated_at : option string }.

Section Service.

Variable bcrypt_rest : bytes -> bytes -> result bool.

(** [authenticate_user(session, username, password)]; [users] are the rows
    of the table in the order the query returns them, and [.first()] is
    the first row that satisfies the [where] clause. *)
Definition authenticate_user (users : list User) (name password : string)
  : result (option User) :=
  match find (fun u => String.eqb (username u) name && is_active u) users with
  | None => Ok None
  | Some user =>
      match AuthService.verify_password bcrypt_rest password
              (hashed_password user) with
      | Raise e => Raise e
      | Ok false => Ok None
      | Ok true => Ok (Some user)
      end
  end.

End Service.
End Authentication.

(** * database.py: create_db_and_tables *)
Module Schema.
Import DatabaseErrorHandler.

Section Create.

(** [SQLModel.metadata.create_all(engine)] acting on the database [W]. *)
Context {W : Type}.
Variable create_all : W -> result unit * W.

(** The [while True] loop of [create_db_and_tables]; the bookkeeping is
    that of [Database.run]. *)
Fixpoint create_loop (fuel : nat) (error_handler : t) (w : W)
    (slept : list Q) (tried : nat) (seen : list error_info)
  : option (Database.run (A := unit) * t * W) :=
  match fuel with
  | O => None
  | S fuel' =>
      match create_all w with
      | (Ok _, w') =>
          let error_handler := reset_retry_count error_handler in
          Some (Database.mk_run (Ok tt) slept (S tried) seen, error_handler, w')
      | (Raise e, w') =>
          if is_Exception e then
            let info :=
              handle_database_error error_handler e "create_db_and_tables" in
            if should_retry error_handler e then
              let error_handler := increment_retry error_handler in
              let retry_delay :=
                (retry_delay error_handler
                 * inject_Z (Z.of_nat (retry_count error_handler)))%Q in
              create_loop fuel' error_handler w'
                          (slept ++ [retry_delay])%list (S tried)
                          (seen ++ [info])%list
            else
              Some (Database.mk_run (Raise e) slept (S tried)
                      (seen ++ [info])%list,
                    error_handler, w')
          else
            Some (Database.mk_run (Raise e) slept (S tried) seen,
                  error_handler, w')
      end
  end.

Definition create_db_and_tables (g : option t) (w : W)
  : option (Database.run (A := unit) * option t * W) :=
  let '(error_handler, _) := get_db_error_handler g in
  match create_loop (S (max_retries error_handler - retry_count error_handler))
                    error_handler w [] 0 [] with
  | None => None
  | Some (r, error_handler', w') => Some (r, Some error_handler', w')
  end.

End Create.
End Schema.

(** Calls of [execute_with_retry] made one after the other in one process,
    each with its operation and its name: every call finds the handler as
    the call before left it. *)
Fixpoint execute_all {W A : Type}
    (calls : list ((W -> result A * W) * string))
    (g : option DatabaseErrorHandler.t) (w : W)
  : option (list (Database.run (A := A)) * option DatabaseErrorHandler.t * W) :=
  match calls with
  | [] => Some ([], g, w)
  | (operation, operation_name) :: rest =>
      match Database.execute_with_retry operation operation_name g w with
      | None => None
      | Some (r, g', w') =>
          match execute_all rest g' w' with
          | None => None
          | Some (rs, g'', w'') => Some (r :: rs, g'', w'')
          end
      end
  end.

(** The number of sleeps of a list of runs. *)
Definition retries {A : Type} (rs : list (Database.run (A := A))) : nat :=
  list_sum (List.map (fun r => List.length (Database.sleeps r)) rs).

(** * A run of the rate limiter *)
Module RateLimitRun.
Import Http RateLimit.

Section Run.

Variable fsub : Q -> Q -> Q.
Context {S : Type}.
Variable call_next : Request -> S -> outcome * S.

(** The verdict [dispatch] reaches on a request: the value of
    [self._is_rate_limited(...)], taken after the periodic sweep. *)
Definition verdict (current_time : Q) (request : Request) (self : t) : bool :=
  fst (_is_rate_limited fsub (periodic_cleanup fsub self current_time)
         (_get_client_ip request) (req_path request) current_time).

(** The requests of a run that the limiter let through, each with its
    client and its time, in the order of their arrival. *)
Fixpoint passed_on (arrivals : list (Request * Q * string)) (self : t) (s : S)
  : list (string * Q) :=
  match arrivals with
  | [] => []
  | (request, current_time, timestamp) :: rest =>
      let '(_, self', s') :=
        dispatch fsub call_next current_time timestamp request self s in
      ((if verdict current_time request self then []
        else [(_get_client_ip request, current_time)])
       ++ passed_on rest self' s')%list
  end.

End Run.

(** The times logged for one client. *)
Definition by_ip (client_ip : string) (log : list (string * Q)) : list Q :=
  List.map snd (List.filter (fun e => String.eqb (fst e) client_ip) log).

(** How many logged requests of the client lie at most [horizon] seconds
    before [current_time]. *)
Definition recent (horizon : Q) (client_ip : string) (current_time : Q)
    (log : list (string * Q)) : nat :=
  List.length
    (List.filter (fun x => Qle_bool (current_time - x) horizon)
       (by_ip client_ip log)).

(** The same count with the ages as the code computes them, by the
    subtraction of doubles. *)
Definition computed_recent (fsub : Q -> Q -> Q) (horizon : Q)
    (client_ip : string) (current_time : Q) (log : list (string * Q)) : nat :=
  List.length
    (List.filter (fun x => Qle_bool (fsub current_time x) horizon)
       (by_ip client_ip log)).

(** The clock readings of successive requests never go back. *)
Fixpoint clock_from (now : Q) (times : list Q) : Prop :=
  match times with
  | [] => True
  | t :: rest => (now <= t)%Q /\ clock_from t rest
  end.

Definition clock_runs_forward (times : list Q) : Prop :=
  match times with
  | [] => True
  | t :: rest => clock_from t rest
  end.

(** The deque of a client holds the end of its log, and what is missing
    from it is older than the horizon; [age] is the difference of two
    clock readings, exact or as computed. *)
Definition window_holds_recent (age : Q -> Q -> Q)
    (get : t -> gmap string (list Q))
    (suffix : string) (horizon : Q)
    (log : list (string * Q)) (now : Q) (self : t) : Prop :=
  forall client_ip,
  exists dropped,
    by_ip client_ip log
    = (dropped ++ window (get self) (client_ip ++ suffix))%list
    /\ Forall (fun x => Qle_bool (age now x) horizon = false) dropped.

End RateLimitRun.

(** The entries of a deque come in the order of their times. *)
Fixpoint ascending (l : list Q) : Prop :=
  match l with
  | [] => True
  | x :: r => Forall (fun y => (x <= y)%Q) r /\ ascending r
  end.

(** Every deque of a dictionary is in the order of its times, and holds
    no time after [now]. *)
Definition windows_ascend (get : RateLimit.t -> gmap string (list Q))
    (now : Q) (self : RateLimit.t) : Prop :=
  forall key,
    ascending (RateLimit.window (get self) key)
    /\ Forall (fun x => (x <= now)%Q) (RateLimit.window (get self) key).

(** The state of the limiter agrees with the log of the requests it let
    through. *)
Definition limiter_tracks (age : Q -> Q -> Q) (log : list (string * Q))
    (now : Q) (self : RateLimit.t) : Prop :=
  RateLimitRun.window_holds_recent age
    RateLimit.burst_requests ":burst" 10 log now self
  /\ RateLimitRun.window_holds_recent age
       RateLimit.minute_requests ":minute" 60 log now self
  /\ RateLimitRun.window_holds_recent age
       RateLimit.hour_requests ":hour" 3600 log now self
  /\ windows_ascend RateLimit.burst_requests now self
  /\ windows_ascend RateLimit.minute_requests now self
  /\ windows_ascend RateLimit.hour_requests now self.

(** * middleware/input_sanitizer.py *)
Module InputSanitizer.

(** What [json.loads] returns: [dict] (its keys are strings, in insertion
    order and without repetition), [list], [str], [int], [float] (the 64
    bits of the double), [bool] and [None]. *)
Inductive value : Type :=
| VNone
| VBool (b : bool)
| VInt (z : Z)
| VFloat (bits : Z)
| VStr (s : string)
| VList (items : list value)
| VDict (fields : list (string * value)).

(** [d[key] = v]: an existing key keeps its place and takes the new value,
    a new key goes to the end. *)
Fixpoint dict_set (key : string) (v : value) (d : list (string * value))
  : list (string * value) :=
  match d with
  | [] => [(key, v)]
  | (k, x) :: r =>
      if String.eqb k key then (k, v) :: r else (k, x) :: dict_set key v r
  end.

(** [_sanitize_data]: the keys of the data are strings, so the test
    [isinstance(key, str)] holds and [str(key)] is the key. *)
Fixpoint _sanitize_data (data : value) : value :=
  match data with
  | VDict fields =>
      VDict
        (fold_left
           (fun sanitized kv =>
              let sanitized_key := EncryptionService.sanitize_input (fst kv) in
              let sanitized_value := _sanitize_data (snd kv) in
              dict_set sanitized_key sanitized_value sanitized)
           fields [])
  | VList items => VList (List.map _sanitize_data items)
  | VStr s => VStr (EncryptionService.sanitize_input s)
  | other => other
  end.

(** [d.get(key)] *)
Definition dict_get (key : string) (d : list (string * value))
  : option value :=
  match find (fun kv => String.eqb (fst kv) key) d with
  | Some kv => Some (snd kv)
  | None => None
  end.

(** The entries of a [dict]; no entries for another value. *)
Definition items (data : value) : list (string * value) :=
  match data with
  | VDict fields => fields
  | _ => []
  end.

End InputSanitizer.

(** The characters that [sanitize_input] turns into entities, without and
    with the ampersand. *)
Definition markup (c : ascii) : bool :=
  Ascii.eqb c "<" || Ascii.eqb c ">" || Ascii.eqb c "034" || Ascii.eqb c "'".

Definition special (c : ascii) : bool := markup c || Ascii.eqb c "&".

(** One of the three spellings of a pattern that [sanitize_input] looks
    for occurs in the string. *)
Definition mentions (s pattern : string) : bool :=
  PyStr.contains (PyStr.lower pattern) s
  || PyStr.contains (PyStr.upper pattern) s
  || PyStr.contains (PyStr.capitalize pattern) s.

(** No string of a value, key or text, holds a markup character. *)
Fixpoint free_of_markup (v : InputSanitizer.value) : bool :=
  match v with
  | InputSanitizer.VStr s => all_chars (fun c => negb (markup c)) s
  | InputSanitizer.VList items => forallb free_of_markup items
  | InputSanitizer.VDict fields =>
      forallb (fun kv => all_chars (fun c => negb (markup c)) (fst kv)
                         && free_of_markup (snd kv)) fields
  | _ => true
  end.

(** A session with a plain card number, a number without digits, and a
    number that is stored encrypted. *)
Module CardFixture.

Definition card (number : string) : CardService.CreditCard :=
  CardService.mk_card (Some 1%Z) 1%Z number "VISA" 12%Z 2025%Z "ACTIVE"
    5000%Q 4200%Q "2024-01-01T00:00:00".

Definition cards : list CardService.CreditCard :=
  [ card "4532 1234 5678 1234";
    card "n/a";
    card "gGl2MDAwMDAwMDAwMDAwMDAwMDAwMDAwMDQxMTExMTExMTExMTExMTE=" ].

Definition session : CardService.Session :=
  CardService.mk_session cards cards None.

Definition rnd (n : nat) : bytes := "iv".

End CardFixture.

(** The test the migration applies to a card, and the cards whose number
    holds no digit. *)
Definition looks_unencrypted (card : CardService.CreditCard) : bool :=
  String.length (CardService.card_number card) <=? 20.

Definition without_digits (card : CardService.CreditCard) : bool :=
  EncryptionService.is_empty
    (PyStr.filter PyStr.isdigit (CardService.card_number card)).

Fixpoint count {A : Type} (f : A -> bool) (l : list A) : nat :=
  match l with
  | [] => 0
  | x :: r => (if f x then 1 else 0) + count f r
  end.

(** * Verified properties *)

(** ** Strings *)

Lemma all_chars_filter (f : ascii -> bool) (s : string) :
  all_chars f (PyStr.filter f s) = true.
Proof.
  induction s as [|c r IH]; simpl; [reflexivity|].
  destruct (f c) eqn:E; simpl; [rewrite E|]; auto.
Qed.

Lemma filter_all_chars (f : ascii -> bool) (s : string) :
  all_chars f s = true -> PyStr.filter f s = s.
Proof.
  induction s as [|c r IH]; simpl; [reflexivity|].
  intros H. apply andb_prop in H. destruct H as [Hc Hr].
  rewrite Hc, (IH Hr). reflexivity.
Qed.

Lemma filter_app (f : ascii -> bool) (s t : string) :
  PyStr.filter f (s ++ t) = PyStr.filter f s ++ PyStr.filter f t.
Proof.
  induction s as [|c r IH]; simpl; [reflexivity|].
  destruct (f c); simpl; rewrite IH; reflexivity.
Qed.

Lemma all_chars_substring (f : ascii -> bool) (s : string) (n m : nat) :
  all_chars f s = true -> all_chars f (substring n m s) = true.
Proof.
  revert n m. induction s as [|c r IH]; intros n m H.
  - destruct n, m; reflexivity.
  - simpl in H. apply andb_prop in H. destruct H as [Hc Hr].
    destruct n as [|n]; destruct m as [|m]; simpl; auto.
    rewrite Hc. simpl. auto.
Qed.

Lemma length_repeat (c : ascii) (n : nat) :
  String.length (PyStr.repeat c n) = n.
Proof. induction n; simpl; congruence. Qed.

(** ** Encryption service: masking *)
Section MaskFacts.

Variable fernet_decrypt : bytes -> option bytes.
Variable urlsafe_b64decode : bytes -> option bytes.
Variable decode : bytes -> option string.

Abbreviation decrypt_card_number :=
  (EncryptionService.decrypt_card_number fernet_decrypt urlsafe_b64decode decode).
Abbreviation mask_source :=
  (EncryptionService.mask_source fernet_decrypt urlsafe_b64decode decode).
Abbreviation mask_card_number :=
  (EncryptionService.mask_card_number fernet_decrypt urlsafe_b64decode decode).

Lemma mask_source_plain (s : string) :
  String.length s <= 20 -> mask_source s = Ok s.
Proof.
  intros H. unfold EncryptionService.mask_source.
  destruct (Nat.ltb_spec 20 (String.length s)); [lia|reflexivity].
Qed.

Lemma mask_source_long (s : string) :
  20 < String.length s -> mask_source s = decrypt_card_number s.
Proof.
  intros H. unfold EncryptionService.mask_source.
  destruct (Nat.ltb_spec 20 (String.length s)); [reflexivity|lia].
Qed.

Lemma decrypt_nonempty (s : string) :
  20 < String.length s ->
  decrypt_card_number s
  = match urlsafe_b64decode (PyStr.encode s) with
    | None => Raise (ValueError "Failed to decrypt data")
    | Some decoded_data =>
        match fernet_decrypt decoded_data with
        | None => Raise (ValueError "Failed to decrypt data")
        | Some decrypted_data =>
            match decode decrypted_data with
            | None => Raise (ValueError "Failed to decrypt data")
            | Some text => Ok text
            end
        end
    end.
Proof.
  intros H. unfold EncryptionService.decrypt_card_number,
    EncryptionService.decrypt.
  destruct s; [cbn in H; lia|reflexivity].
Qed.

Lemma mask_of_short_text (card_number text : string) :
  mask_source card_number = Ok text ->
  String.length (PyStr.filter PyStr.isdigit text) < 4 ->
  mask_card_number card_number
  = PyStr.repeat "*" (String.length (PyStr.filter PyStr.isdigit text))
  /\ (PyStr.filter PyStr.isdigit text = ""
      -> mask_card_number card_number = "")
  /\ mask_card_number card_number <> "**** **** **** ****".
Proof.
  intros Hsrc Hlen.
  assert (E : mask_card_number card_number
              = PyStr.repeat "*"
                  (String.length (PyStr.filter PyStr.isdigit text))).
  { unfold EncryptionService.mask_card_number. rewrite Hsrc.
    destruct (Nat.ltb_spec
                (String.length (PyStr.filter PyStr.isdigit text)) 4);
      [reflexivity|lia]. }
  rewrite E. repeat split.
  - intros H0. rewrite H0. reflexivity.
  - intros Habs. apply (f_equal String.length) in Habs.
    rewrite length_repeat in Habs. simpl in Habs. lia.
Qed.

(** C10, as the code has it.  An argument of at most 20 characters is
    masked as it stands: with fewer than 4 digits in it the result is that
    many asterisks and nothing else, the empty string when it holds no
    digit.  An argument of more than 20 characters is decrypted first,
    whatever it holds: when base64 decoding, Fernet and UTF-8 decoding
    succeed in turn and the text they give has fewer than 4 digits, the
    result is that many asterisks; when one of the three fails, the result
    is the placeholder, also for an argument without any digit. *)
Theorem mask_card_number_short (card_number : string) :
  (String.length card_number <= 20 ->
   String.length (PyStr.filter PyStr.isdigit card_number) < 4 ->
   mask_card_number card_number
   = PyStr.repeat "*"
       (String.length (PyStr.filter PyStr.isdigit card_number))
   /\ (PyStr.filter PyStr.isdigit card_number = ""
       -> mask_card_number card_number = "")
   /\ mask_card_number card_number <> "**** **** **** ****")
  /\ (forall decoded_data decrypted_data text,
         20 < String.length card_number ->
         urlsafe_b64decode (PyStr.encode card_number) = Some decoded_data ->
         fernet_decrypt decoded_data = Some decrypted_data ->
         decode decrypted_data = Some text ->
         String.length (PyStr.filter PyStr.isdigit text) < 4 ->
         mask_card_number card_number
         = PyStr.repeat "*" (String.length (PyStr.filter PyStr.isdigit text))
         /\ (PyStr.filter PyStr.isdigit text = ""
             -> mask_card_number card_number = "")
         /\ mask_card_number card_number <> "**** **** **** ****")
  /\ (20 < String.length card_number ->
      urlsafe_b64decode (PyStr.encode card_number) = None
      \/ (exists decoded_data,
             urlsafe_b64decode (PyStr.encode card_number) = Some decoded_data
             /\ (fernet_decrypt decoded_data = None
                 \/ exists decrypted_data,
                      fernet_decrypt decoded_data = Some decrypted_data
                      /\ decode decrypted_data = None)) ->
      mask_card_number card_number = "**** **** **** ****").
Proof.
  split; [|split].
  - intros Hlen Hdig.
    apply mask_of_short_text; [apply mask_source_plain, Hlen|exact Hdig].
  - intros decoded_data decrypted_data text Hlen H1 H2 H3 Hdig.
    apply mask_of_short_text; [|exact Hdig].
    rewrite (mask_source_long _ Hlen), (decrypt_nonempty _ Hlen), H1, H2, H3.
    reflexivity.
  - intros Hlen Hfail.
    unfold EncryptionService.mask_card_number.
    rewrite (mask_source_long _ Hlen), (decrypt_nonempty _ Hlen).
    destruct Hfail as [-> | (decoded_data & -> & [-> | (decrypted_data
                                                        & -> & ->)])];
      reflexivity.
Qed.

(** C6: a value of at most 20 characters with exactly 16 digits is masked as
    twelve asterisks and its last four digits in groups of four, 19
    characters in all, and the only digits of the result are those four;
    a value longer than 20 characters whose decryption raises gives the
    fully masked placeholder. *)
Theorem mask_card_number_sixteen (card_number : string) :
  (String.length card_number <= 20 ->
   String.length (PyStr.filter PyStr.isdigit card_number) = 16 ->
   mask_card_number card_number
     = "**** **** **** "
       ++ PyStr.last_n 4 (PyStr.filter PyStr.isdigit card_number)
   /\ String.length (mask_card_number card_number) = 19
   /\ PyStr.filter PyStr.isdigit (mask_card_number card_number)
     = PyStr.last_n 4 (PyStr.filter PyStr.isdigit card_number))
  /\ (forall e : exn,
        20 < String.length card_number ->
        decrypt_card_number card_number = Raise e ->
        mask_card_number card_number = "**** **** **** ****").
Proof.
  split.
  - intros Hlen Hdig.
    unfold EncryptionService.mask_card_number.
    rewrite (mask_source_plain _ Hlen).
    pose proof (all_chars_filter PyStr.isdigit card_number) as Hall.
    assert (Hlast : PyStr.filter PyStr.isdigit
                      (PyStr.last_n 4 (PyStr.filter PyStr.isdigit card_number))
                    = PyStr.last_n 4 (PyStr.filter PyStr.isdigit card_number)).
    { apply filter_all_chars, all_chars_substring, Hall. }
    clear Hall.
    destruct (PyStr.filter PyStr.isdigit card_number) as [|c1 d] eqn:E;
      [discriminate|].
    do 15 (destruct d as [|? d]; [discriminate|]).
    destruct d; [|simpl in Hdig; lia].
    match goal with
    | |- ?m = _ /\ _ =>
        assert (Hm : m = "**** **** **** "
                         ++ PyStr.last_n 4
                              (String c1 (String a (String a0 (String a1
                                (String a2 (String a3 (String a4 (String a5
                                (String a6 (String a7 (String a8 (String a9
                                (String a10 (String a11 (String a12
                                (String a13 "")))))))))))))))))
          by (vm_compute; reflexivity)
    end.
    rewrite Hm. split; [reflexivity|]. split; [vm_compute; reflexivity|].
    rewrite filter_app, Hlast. reflexivity.
  - intros e Hlen Hdec.
    unfold EncryptionService.mask_card_number.
    rewrite (mask_source_long _ Hlen), Hdec. reflexivity.
Qed.

End MaskFacts.

Lemma mask_card_number_short_witness :
  EncryptionService.mask_card_number
    Loopback.fernet_decrypt Loopback.urlsafe_b64decode Loopback.decode "12-3"
  = "***"
  /\ EncryptionService.encrypt_card_number Loopback.fernet_encrypt "iv" "12-3"
     = Ok "gGl2MDAwMDAwMDAwMDAwMDAwMDAwMDAwMDEyMw=="
  /\ EncryptionService.mask_card_number
       Loopback.fernet_decrypt Loopback.urlsafe_b64decode Loopback.decode
       "gGl2MDAwMDAwMDAwMDAwMDAwMDAwMDAwMDEyMw=="
     = "***"
  /\ EncryptionService.encrypt Loopback.fernet_encrypt "iv" "n/a"
     = Ok "gGl2MDAwMDAwMDAwMDAwMDAwMDAwMDAwMG4vYQ=="
  /\ EncryptionService.mask_card_number
       Loopback.fernet_decrypt Loopback.urlsafe_b64decode Loopback.decode
       "gGl2MDAwMDAwMDAwMDAwMDAwMDAwMDAwMG4vYQ=="
     = "".
Proof.
  split; [|split; [reflexivity|split; [|split; [reflexivity|]]]].
  - apply (mask_card_number_short
             Loopback.fernet_decrypt Loopback.urlsafe_b64decode
             Loopback.decode "12-3").
    + vm_compute. lia.
    + vm_compute. lia.
  - apply (proj1 (proj2 (mask_card_number_short
                           Loopback.fernet_decrypt Loopback.urlsafe_b64decode
                           Loopback.decode
                           "gGl2MDAwMDAwMDAwMDAwMDAwMDAwMDAwMDEyMw=="))
             (String (ascii_of_nat 128) "iv0000000000000000000000123")
             "123" "123").
    + vm_compute. lia.
    + vm_compute. reflexivity.
    + vm_compute. reflexivity.
    + vm_compute. reflexivity.
    + vm_compute. lia.
  - apply (proj1 (proj2 (mask_card_number_short
                           Loopback.fernet_decrypt Loopback.urlsafe_b64decode
                           Loopback.decode
                           "gGl2MDAwMDAwMDAwMDAwMDAwMDAwMDAwMG4vYQ=="))
             (String (ascii_of_nat 128) "iv0000000000000000000000n/a")
             "n/a" "n/a").
    + vm_compute. lia.
    + vm_compute. reflexivity.
    + vm_compute. reflexivity.
    + vm_compute. reflexivity.
    + vm_compute. lia.
    + reflexivity.
Defined.

(** C10 as stated fails for an argument of more than 20 characters that
    holds no digit and is no token: its digit content is empty, yet the
    code does not return the empty string.  The 26 letters are no base64
    text (26 is no multiple of 4), decryption raises, and the result is
    the placeholder. *)
Lemma mask_card_number_placeholder_without_digits :
  let card_number := "abcdefghijklmnopqrstuvwxyz" in
  PyStr.filter PyStr.isdigit card_number = ""
  /\ String.length card_number = 26
  /\ Loopback.urlsafe_b64decode (PyStr.encode card_number) = None
  /\ EncryptionService.decrypt_card_number
       Loopback.fernet_decrypt Loopback.urlsafe_b64decode Loopback.decode
       card_number
     = Raise (ValueError "Failed to decrypt data")
  /\ EncryptionService.mask_card_number
       Loopback.fernet_decrypt Loopback.urlsafe_b64decode Loopback.decode
       card_number
     = "**** **** **** ****"
  /\ EncryptionService.mask_card_number
       Loopback.fernet_decrypt Loopback.urlsafe_b64decode Loopback.decode
       card_number
     <> "".
Proof. vm_compute. repeat split. discriminate. Qed.

Lemma mask_card_number_sixteen_witness :
  EncryptionService.mask_card_number
    Fixture.fernet_decrypt Fixture.urlsafe_b64decode Fixture.decode
    "4111-1111-1111-1234"
  = "**** **** **** 1234"
  /\ EncryptionService.mask_card_number
       Fixture.fernet_decrypt Fixture.urlsafe_b64decode Fixture.decode
       "Z0FBQUFBQm5vdC1hLXRva2Vu"
     = "**** **** **** ****".
Proof.
  split.
  - apply (mask_card_number_sixteen
             Fixture.fernet_decrypt Fixture.urlsafe_b64decode Fixture.decode
             "4111-1111-1111-1234").
    + vm_compute. lia.
    + reflexivity.
  - apply (proj2 (mask_card_number_sixteen
                    Fixture.fernet_decrypt Fixture.urlsafe_b64decode
                    Fixture.decode "Z0FBQUFBQm5vdC1hLXRva2Vu")
             (ValueError "Failed to decrypt data")).
    + vm_compute. lia.
    + reflexivity.
Defined.


(** ** Encryption service: sanitizing *)

(** C5 (the code at two inputs): a denylist entry written in title case is
    left in place, and [<] comes out as [&amp;lt;] because the ampersand is
    escaped last; an ampersand alone is escaped once. *)
Theorem sanitize_input_mixed_case_and_double_escape :
  EncryptionService.sanitize_input "Union Select 1" = "Union Select 1"
  /\ PyStr.contains "union select"
       (PyStr.lower (EncryptionService.sanitize_input "Union Select 1")) = true
  /\ EncryptionService.sanitize_input "a<b" = "a&amp;lt;b"
  /\ EncryptionService.sanitize_input "a&b" = "a&amp;b".
Proof. repeat split; vm_compute; reflexivity. Qed.

(** ** Auth service: password verification *)

Lemma prefix_nil (s : string) : String.prefix "" s = true.
Proof. destruct s; reflexivity. Qed.

Lemma contains_char_here (a : ascii) (r : string) :
  PyStr.contains (String a "") (String a r) = true.
Proof.
  cbn. destruct (ascii_dec a a); [|congruence]. rewrite prefix_nil. reflexivity.
Qed.

Lemma contains_char_later (a c : ascii) (r : string) :
  a <> c ->
  PyStr.contains (String a "") (String c r) = PyStr.contains (String a "") r.
Proof.
  intros H. cbn. destruct (ascii_dec a c); [contradiction|reflexivity].
Qed.

(** Neither octet of a two-octet UTF-8 sequence is an ASCII character. *)
Lemma lead_octet_not_ascii (c d : ascii) :
  PyStr.code d < 128 -> d <> ascii_of_nat (192 + PyStr.code c / 64).
Proof.
  intros Hd Heq. apply (f_equal nat_of_ascii) in Heq.
  pose proof (nat_ascii_bounded c) as Hc.
  assert (PyStr.code c / 64 < 4)
    by (apply Nat.Div0.div_lt_upper_bound; unfold PyStr.code; lia).
  rewrite nat_ascii_embedding in Heq by lia.
  unfold PyStr.code in *. lia.
Qed.

Lemma continuation_octet_not_ascii (c d : ascii) :
  PyStr.code d < 128 -> d <> ascii_of_nat (128 + PyStr.code c mod 64).
Proof.
  intros Hd Heq. apply (f_equal nat_of_ascii) in Heq.
  pose proof (Nat.mod_upper_bound (PyStr.code c) 64).
  rewrite nat_ascii_embedding in Heq by lia.
  unfold PyStr.code in *. lia.
Qed.

(** An ASCII character occurs in the UTF-8 form of a text exactly when it
    occurs in the text. *)
Lemma contains_char_encode (a : ascii) (h : string) :
  PyStr.code a < 128 ->
  PyStr.contains (String a "") (PyStr.encode h)
  = PyStr.contains (String a "") h.
Proof.
  intros Ha. induction h as [|c r IH]; [reflexivity|].
  cbn [PyStr.encode]. destruct (Nat.ltb_spec (PyStr.code c) 128) as [Hc|Hc].
  - destruct (ascii_dec a c) as [<-|Hne].
    + rewrite !contains_char_here. reflexivity.
    + rewrite !contains_char_later by exact Hne. exact IH.
  - rewrite contains_char_later by (apply lead_octet_not_ascii, Ha).
    rewrite contains_char_later by (apply continuation_octet_not_ascii, Ha).
    rewrite contains_char_later by (intros ->; lia).
    exact IH.
Qed.

Lemma has_dollar_or_nul_encode (h : string) :
  AuthService.has_dollar_or_nul (PyStr.encode h) = AuthService.has_dollar_or_nul h.
Proof.
  unfold AuthService.has_dollar_or_nul, AuthService.nul.
  rewrite !contains_char_encode by (vm_compute; lia). reflexivity.
Qed.

Lemma plain_password_bytes_encode (p : string) :
  AuthService.plain_password_bytes (PyStr.encode p)
  = (String.length (PyStr.encode p) <=? 72)
    && negb (PyStr.contains AuthService.nul p).
Proof.
  unfold AuthService.plain_password_bytes, AuthService.nul.
  rewrite contains_char_encode by (vm_compute; lia). reflexivity.
Qed.

(** C4, as the code has it: [verify_password] has no handler for what
    [bcrypt.checkpw] raises.  For a stored value with neither a [$] nor a
    NUL in it (it is no bcrypt hash) and a password whose UTF-8 form has
    at most 72 octets and no NUL, the call raises
    [ValueError("Invalid salt")] instead of returning false; for a stored
    value with a [$] or a NUL in it the call yields what the library
    yields on the UTF-8 forms, a boolean or an exception. *)
Theorem verify_password_propagates
    (bcrypt_rest : bytes -> bytes -> result bool)
    (plain_password hashed_password : string) :
  (String.length (PyStr.encode plain_password) <= 72 ->
   PyStr.contains AuthService.nul plain_password = false ->
   AuthService.has_dollar_or_nul hashed_password = false ->
   AuthService.verify_password bcrypt_rest plain_password hashed_password
     = Raise (ValueError "Invalid salt"))
  /\ (AuthService.has_dollar_or_nul hashed_password = true ->
      AuthService.verify_password bcrypt_rest plain_password hashed_password
        = bcrypt_rest (PyStr.encode plain_password)
                      (PyStr.encode hashed_password)).
Proof.
  unfold AuthService.verify_password, AuthService.checkpw.
  rewrite has_dollar_or_nul_encode, plain_password_bytes_encode.
  split.
  - intros Hlen Hnul ->. rewrite Hnul.
    destruct (Nat.leb_spec (String.length (PyStr.encode plain_password)) 72);
      [reflexivity|lia].
  - intros ->. rewrite andb_false_r. reflexivity.
Qed.

Lemma verify_password_propagates_witness :
  AuthService.verify_password Fixture.bcrypt_rest "secret" "not-a-hash"
  = Raise (ValueError "Invalid salt")
  /\ AuthService.verify_password Fixture.bcrypt_rest "secret"
       "$2b$12$abcdefghijklmnopqrstuuJ1u0pvb0JmqS9sYzv2xW5u1Zx0pQ8Eq"
     = Ok false.
Proof.
  split.
  - apply (proj1 (verify_password_propagates Fixture.bcrypt_rest "secret"
                    "not-a-hash")).
    + vm_compute. lia.
    + reflexivity.
    + reflexivity.
  - apply (proj2 (verify_password_propagates Fixture.bcrypt_rest "secret"
             "$2b$12$abcdefghijklmnopqrstuuJ1u0pvb0JmqS9sYzv2xW5u1Zx0pQ8Eq")).
    reflexivity.
Defined.

(** C4 as stated fails: with a malformed stored hash the call raises and
    yields no boolean. *)
Lemma verify_password_raises_on_malformed_hash :
  AuthService.verify_password Fixture.bcrypt_rest "secret" "not-a-hash"
    = Raise (ValueError "Invalid salt")
  /\ AuthService.verify_password Fixture.bcrypt_rest "secret" "not-a-hash"
     <> Ok false.
Proof. split; [reflexivity|discriminate]. Qed.

(** ** Encryption service: ciphertext length *)

Lemma string_ind3 (P : string -> Prop) :
  P "" ->
  (forall x, P (String x "")) ->
  (forall x y, P (String x (String y ""))) ->
  (forall x y z r, P r -> P (String x (String y (String z r)))) ->
  forall s, P s.
Proof.
  intros H0 H1 H2 H3.
  assert (H : forall s, P s /\ (forall x, P (String x s))
                        /\ (forall x y, P (String x (String y s)))).
  { induction s as [|c r [IH0 [IH1 IH2]]]; auto. }
  intros s. apply H.
Qed.

Lemma length_urlsafe_b64encode (b : bytes) :
  String.length (Base64.urlsafe_b64encode b) = 4 * ((String.length b + 2) / 3).
Proof.
  induction b as [| x | x y | x y z r IH] using string_ind3;
    try reflexivity.
  cbn [Base64.urlsafe_b64encode String.length]. rewrite IH.
  replace (S (S (S (String.length r))) + 2) with (String.length r + 2 + 1 * 3)
    by lia.
  rewrite Nat.div_add by lia. lia.
Qed.

Lemma length_encode (s : string) :
  String.length s <= String.length (PyStr.encode s).
Proof.
  induction s as [|c r IH]; simpl; [lia|].
  destruct (PyStr.code c <? 128); simpl; lia.
Qed.

Lemma length_append (s t : string) :
  String.length (s ++ t) = String.length s + String.length t.
Proof.
  induction s as [|c s IH]; [reflexivity|].
  change (S (String.length (s ++ t)) = S (String.length s + String.length t)).
  rewrite IH. reflexivity.
Qed.

Section EncryptFacts.

Variable fernet_encrypt : bytes -> bytes -> option bytes.
Variable fernet_decrypt : bytes -> option bytes.
Variable urlsafe_b64decode : bytes -> option bytes.
Variable decode : bytes -> option string.

(** A Fernet token frames the padded ciphertext with a version octet, a
    timestamp, the IV and an HMAC, so it is never shorter than the message. *)
Hypothesis fernet_token_length :
  forall rnd data token,
    fernet_encrypt rnd data = Some token ->
    String.length data <= String.length token.

Abbreviation encrypt :=
  (EncryptionService.encrypt fernet_encrypt).

(** C8, as the code has it: the empty plaintext is returned as it is; for
    every other plaintext the call returns exactly when the Fernet library
    yields a token, and then the text returned is the base64 form of that
    token and is strictly longer than the plaintext. *)
Theorem encrypt_longer_unless_empty (rnd : bytes) (data : string) :
  encrypt rnd "" = Ok ""
  /\ (data <> "" ->
      (forall token,
          fernet_encrypt rnd (PyStr.encode data) = Some token ->
          encrypt rnd data = Ok (Base64.urlsafe_b64encode token))
      /\ (forall ciphertext,
            encrypt rnd data = Ok ciphertext ->
            String.length data < String.length ciphertext)).
Proof.
  split; [reflexivity|].
  intros Hne. unfold EncryptionService.encrypt.
  destruct data as [|c r]; [congruence|]. cbn [EncryptionService.is_empty].
  split.
  - intros token ->. reflexivity.
  - intros ciphertext H.
    destruct (fernet_encrypt rnd (PyStr.encode (String c r))) as [token|] eqn:E;
      [|discriminate].
    injection H as <-.
    apply fernet_token_length in E.
    pose proof (length_encode (String c r)) as He.
    rewrite length_urlsafe_b64encode.
    assert (Hpos : 1 <= String.length (String c r)) by (simpl; lia).
    revert E He Hpos.
    generalize (String.length (PyStr.encode (String c r))) as k.
    generalize (String.length (String c r)) as m.
    generalize (String.length token) as n.
    intros n m k E He Hpos.
    pose proof (Nat.div_mod_eq (n + 2) 3).
    pose proof (Nat.mod_upper_bound (n + 2) 3). lia.
Qed.

End EncryptFacts.

Lemma fixture_token_length (rnd data token : bytes) :
  Fixture.fernet_encrypt rnd data = Some token ->
  String.length data <= String.length token.
Proof.
  unfold Fixture.fernet_encrypt. intros [= <-].
  cbn [String.length]. rewrite length_append. lia.
Qed.

Lemma encrypt_longer_unless_empty_witness :
  String.length "4111111111111111"
  < String.length "gE5WNDExMTExMTExMTExMTExMQ==".
Proof.
  apply (proj2 (encrypt_longer_unless_empty
                  Fixture.fernet_encrypt fixture_token_length
                  "NV" "4111111111111111")).
  - discriminate.
  - reflexivity.
Defined.

(** C8 as stated fails at the empty plaintext: what comes back is the empty
    string, which is not longer than the plaintext. *)
Lemma encrypt_empty_not_longer :
  EncryptionService.encrypt Fixture.fernet_encrypt "NV" "" = Ok ""
  /\ ~ String.length "" < String.length "".
Proof. split; [reflexivity|simpl; lia]. Qed.

(** ** Database retry *)
Section RetryFacts.
Import DatabaseErrorHandler.

Context {W A : Type}.
Variable operation : W -> result A * W.
Variable operation_name : string.

Abbreviation retry_loop := (Database.retry_loop operation operation_name).
Abbreviation execute_with_retry :=
  (Database.execute_with_retry operation operation_name).

(** The loop ends within [max_retries - retry_count + 1] iterations. *)
Lemma retry_loop_fuel_enough (fuel : nat) :
  forall h w slept tried seen,
    max_retries h - retry_count h < fuel ->
    exists r h' w', retry_loop fuel h w slept tried seen = Some (r, h', w').
Proof.
  induction fuel as [|fuel IH]; intros h w slept tried seen Hfuel; [lia|].
  cbn [Database.retry_loop].
  destruct (operation w) as [[v|e] w']; [eauto|].
  destruct (is_Exception e); [|eauto].
  unfold should_retry.
  destruct (Nat.leb_spec (max_retries h) (retry_count h)); [eauto|].
  destruct (_is_recoverable_error e); [|eauto].
  apply IH. cbn. lia.
Qed.

Lemma execute_with_retry_returns (g : option t) (w : W) :
  exists r h' w', execute_with_retry g w = Some (r, Some h', w').
Proof.
  unfold Database.execute_with_retry.
  destruct (get_db_error_handler g) as [h g0].
  destruct (retry_loop_fuel_enough
              (S (max_retries h - retry_count h)) h w [] 0 [])
    as (r & h' & w' & E); [lia|].
  rewrite E. eauto.
Qed.

(** Nothing but the counter of the handler ever changes, and a call that
    returns a value leaves it at zero. *)
Lemma retry_loop_handler (fuel : nat) :
  forall h w slept tried seen r h' w',
    retry_loop fuel h w slept tried seen = Some (r, h', w') ->
    max_retries h' = max_retries h
    /\ retry_delay h' = retry_delay h
    /\ (forall v, Database.outcome r = Ok v -> retry_count h' = 0).
Proof.
  induction fuel as [|fuel IH]; intros h w slept tried seen r h' w' E;
    [discriminate|].
  cbn [Database.retry_loop] in E.
  destruct (operation w) as [[v|e] w1].
  - injection E as <- <- <-. cbn. auto.
  - destruct (is_Exception e).
    + destruct (should_retry h e).
      * apply IH in E. cbn in E. exact E.
      * injection E as <- <- <-. cbn. repeat split. intros v Hv. discriminate.
    + injection E as <- <- <-. cbn. repeat split. intros v Hv. discriminate.
Qed.

(** An operation that raises the same retryable exception at every attempt:
    the loop sleeps [retry_delay * n] for every [n] from the counter at
    entry up to [max_retries], runs the operation once more after each
    sleep, and lets the exception through with the counter at
    [max_retries]. *)
Lemma retry_loop_exhausts (e : exn) :
  (forall w, fst (operation w) = Raise e) ->
  is_Exception e = true ->
  _is_recoverable_error e = true ->
  forall fuel h w slept tried seen,
    retry_count h <= max_retries h ->
    max_retries h - retry_count h < fuel ->
    exists r h' w',
      retry_loop fuel h w slept tried seen = Some (r, h', w')
      /\ Database.outcome r = Raise e
      /\ Database.sleeps r
         = (slept ++ List.map
                      (fun n => (retry_delay h * inject_Z (Z.of_nat n))%Q)
                      (seq (S (retry_count h))
                           (max_retries h - retry_count h)))%list
      /\ Database.attempts r
         = tried + S (max_retries h - retry_count h)
      /\ retry_count h' = max_retries h.
Proof.
  intros Hop Hexc Hrec.
  induction fuel as [|fuel IH]; intros h w slept tried seen Hle Hfuel; [lia|].
  cbn [Database.retry_loop].
  specialize (Hop w). destruct (operation w) as [o w1]. cbn in Hop. subst o.
  rewrite Hexc. unfold should_retry. rewrite Hrec.
  destruct (Nat.leb_spec (max_retries h) (retry_count h)) as [Hge|Hlt].
  - assert (Hz : max_retries h - retry_count h = 0) by lia.
    rewrite Hz. cbn. rewrite app_nil_r.
    eexists _, _, _. repeat split; cbn; lia.
  - destruct (IH (increment_retry h) w1
                 (slept ++ [(retry_delay (increment_retry h)
                             * inject_Z (Z.of_nat
                                 (retry_count (increment_retry h))))%Q])%list
                 (S tried)
                 (seen ++ [handle_database_error h e operation_name])%list)
      as (r & h' & w' & E & Ho & Hs & Ha & Hc); [cbn; lia|cbn; lia|].
    exists r, h', w'. rewrite E. split; [reflexivity|].
    cbn in Hs, Ha, Hc. split; [exact Ho|]. split; [|split; [lia|exact Hc]].
    rewrite Hs, <- app_assoc. f_equal.
    replace (max_retries h - retry_count h)
      with (S (max_retries h - (retry_count h + 1))) by lia.
    cbn [seq List.map app]. rewrite Nat.add_1_r. reflexivity.
Qed.

(** An exception that [_is_recoverable_error] rejects goes through at its
    first occurrence: one attempt, no sleep. *)
Lemma retry_loop_no_retry (e : exn) (fuel : nat) h w w1 slept tried seen :
  operation w = (Raise e, w1) ->
  is_Exception e = true ->
  _is_recoverable_error e = false ->
  retry_loop (S fuel) h w slept tried seen
  = Some (Database.mk_run (Raise e) slept (S tried)
            (seen ++ [handle_database_error h e operation_name])%list, h, w1).
Proof.
  intros Hop Hexc Hrec. cbn [Database.retry_loop]. rewrite Hop, Hexc.
  unfold should_retry. rewrite Hrec.
  destruct (max_retries h <=? retry_count h); reflexivity.
Qed.

End RetryFacts.


(** ** Headers *)
Section HeaderFacts.
Import Http.

Lemma find_filter_other (k k' : string) (hs : headers) :
  k <> k' ->
  find (fun kv => String.eqb (fst kv) k')
       (List.filter (fun kv => negb (String.eqb (fst kv) k)) hs)
  = find (fun kv => String.eqb (fst kv) k') hs.
Proof.
  intros Hne. induction hs as [|a hs IH]; [reflexivity|]. cbn.
  destruct (String.eqb (fst a) k) eqn:E; cbn.
  - apply String.eqb_eq in E.
    destruct (String.eqb_spec (fst a) k'); [congruence|exact IH].
  - destruct (String.eqb (fst a) k'); [reflexivity|exact IH].
Qed.

Lemma find_header_replace_eq (k v : string) (hs : headers) :
  existsb (fun kv => String.eqb (fst kv) k) hs = true ->
  find (fun kv => String.eqb (fst kv) k) (header_replace k v hs) = Some (k, v).
Proof.
  induction hs as [|a hs IH]; cbn; [discriminate|].
  destruct (String.eqb (fst a) k) eqn:E; cbn.
  - intros _. rewrite String.eqb_refl. reflexivity.
  - rewrite E. exact IH.
Qed.

Lemma find_header_replace_ne (k k' v : string) (hs : headers) :
  k <> k' ->
  find (fun kv => String.eqb (fst kv) k') (header_replace k v hs)
  = find (fun kv => String.eqb (fst kv) k') hs.
Proof.
  intros Hne. induction hs as [|a hs IH]; [reflexivity|]. cbn.
  destruct (String.eqb (fst a) k) eqn:E; cbn.
  - apply String.eqb_eq in E.
    destruct (String.eqb_spec k k'); [congruence|].
    destruct (String.eqb_spec (fst a) k'); [congruence|].
    apply find_filter_other, Hne.
  - destruct (String.eqb (fst a) k'); [reflexivity|exact IH].
Qed.

Lemma find_absent (k : string) (hs : headers) :
  existsb (fun kv => String.eqb (fst kv) k) hs = false ->
  find (fun kv => String.eqb (fst kv) k) hs = None.
Proof.
  induction hs as [|a hs IH]; cbn; [reflexivity|].
  destruct (String.eqb (fst a) k); [discriminate|exact IH].
Qed.

Lemma find_app_last (k k' v : string) (hs : headers) :
  find (fun kv => String.eqb (fst kv) k') (hs ++ [(k, v)])%list
  = match find (fun kv => String.eqb (fst kv) k') hs with
    | Some kv => Some kv
    | None => if String.eqb k k' then Some (k, v) else None
    end.
Proof.
  induction hs as [|a hs IH]; cbn; [reflexivity|].
  destruct (String.eqb (fst a) k'); [reflexivity|exact IH].
Qed.

(** Reading back the header that was just set. *)
Lemma header_get_set (name value : string) (hs : headers) :
  header_get name (header_set name value hs) = Some value.
Proof.
  unfold header_get, header_set.
  destruct (existsb _ hs) eqn:E.
  - rewrite find_header_replace_eq by exact E. reflexivity.
  - rewrite find_app_last, (find_absent _ _ E), String.eqb_refl. reflexivity.
Qed.

(** Setting one header leaves the others as they were. *)
Lemma header_get_set_other (name name' value : string) (hs : headers) :
  PyStr.lower name' <> PyStr.lower name ->
  header_get name (header_set name' value hs) = header_get name hs.
Proof.
  intros Hne. unfold header_get, header_set.
  destruct (existsb _ hs) eqn:E.
  - rewrite find_header_replace_ne by exact Hne. reflexivity.
  - rewrite find_app_last.
    destruct (find _ hs); [reflexivity|].
    destruct (String.eqb_spec (PyStr.lower name') (PyStr.lower name));
      [congruence|reflexivity].
Qed.

End HeaderFacts.

(** ** Rate limiter *)
Section RateLimitFacts.
Import Http RateLimit.

Variable fsub : Q -> Q -> Q.
Abbreviation evict := (RateLimit.evict fsub).
Abbreviation sweep := (RateLimit.sweep fsub).
Abbreviation _is_rate_limited := (RateLimit._is_rate_limited fsub).
Abbreviation _cleanup_old_requests := (RateLimit._cleanup_old_requests fsub).
Abbreviation periodic_cleanup := (RateLimit.periodic_cleanup fsub).
Abbreviation dispatch := (RateLimit.dispatch fsub).
Abbreviation serve := (RateLimit.serve fsub).

Lemma Qgt_bool_false (x y : Q) : (x <= y)%Q -> Qgt_bool x y = false.
Proof.
  intros H. unfold Qgt_bool. apply negb_false_iff, Qle_bool_iff, H.
Qed.

Hypothesis fsub_within : rounds_within fsub.

Lemma horizon_burst : is_horizon 10.
Proof. left. reflexivity. Qed.

Lemma horizon_minute : is_horizon 60.
Proof. right. left. reflexivity. Qed.

Lemma horizon_hour : is_horizon 3600.
Proof. right. right. reflexivity. Qed.

Lemma evict_fresh (h t : Q) (l : list Q) :
  is_horizon h -> fresh h t l -> evict h t l = l.
Proof.
  intros Hh. destruct l as [|x l]; cbn; [reflexivity|].
  intros H. rewrite Qgt_bool_false by (apply fsub_within; assumption).
  reflexivity.
Qed.

(** Whether the oldest entry stays is decided by its computed age.  With
    doubles [10.3 - 0.3] is [10.0], so an entry made at 0.3 is still in
    the burst deque at 10.3. *)
Lemma evict_keeps (h t x : Q) (l : list Q) :
  (fsub t x <= h)%Q -> evict h t (x :: l) = x :: l.
Proof.
  intros H. cbn [RateLimit.evict]. rewrite Qgt_bool_false by exact H.
  reflexivity.
Qed.

Lemma evict_drops (h t x : Q) (l : list Q) :
  (h < fsub t x)%Q -> evict h t (x :: l) = evict h t l.
Proof.
  intros H. cbn [RateLimit.evict]. unfold Qgt_bool.
  destruct (Qle_bool (fsub t x) h) eqn:E; [|reflexivity].
  apply Qle_bool_iff in E. lra.
Qed.

Lemma evict_suffix (h t : Q) (l : list Q) : evict h t l `suffix_of` l.
Proof.
  induction l as [|x l IH]; cbn; [reflexivity|].
  destruct (Qgt_bool (fsub t x) h); [|reflexivity].
  apply suffix_cons_r, IH.
Qed.

Lemma evict_length (h t : Q) (l : list Q) :
  List.length (evict h t l) <= List.length l.
Proof. apply suffix_length, evict_suffix. Qed.

Lemma window_insert (d : gmap string (list Q)) (k : string) (v : list Q) :
  window (<[k := v]> d) k = v.
Proof. unfold window. rewrite lookup_insert_eq. reflexivity. Qed.

Lemma window_insert_other (d : gmap string (list Q)) (k k' : string)
    (v : list Q) :
  k <> k' -> window (<[k := v]> d) k' = window d k'.
Proof. intros H. unfold window. rewrite lookup_insert_ne by exact H. reflexivity. Qed.

Lemma window_sweep (h t : Q) (d : gmap string (list Q)) (k : string) :
  window (sweep h t d) k = evict h t (window d k).
Proof.
  unfold window, RateLimit.sweep. rewrite lookup_omap.
  destruct (d !! k) as [l|]; cbn; [|reflexivity].
  destruct (evict h t l); reflexivity.
Qed.

Lemma window_insert_evict_suffix (h t : Q) (d : gmap string (list Q))
    (k key : string) :
  window (<[k := evict h t (window d k)]> d) key `suffix_of` window d key.
Proof.
  destruct (decide (k = key)) as [->|Hne].
  - rewrite window_insert. apply evict_suffix.
  - rewrite window_insert_other by exact Hne. reflexivity.
Qed.

Lemma nothing_appended_refl (self : t) : nothing_appended self self.
Proof. intros key. repeat split; reflexivity. Qed.

Lemma nothing_appended_trans (a b c : t) :
  nothing_appended a b -> nothing_appended b c -> nothing_appended a c.
Proof.
  intros Hab Hbc key.
  destruct (Hab key) as (H1 & H2 & H3), (Hbc key) as (H4 & H5 & H6).
  repeat split; etrans; eauto.
Qed.

(** The sweep only takes entries away. *)
Lemma periodic_cleanup_nothing_appended (self : t) (t0 : Q) :
  nothing_appended self (periodic_cleanup self t0).
Proof.
  unfold RateLimit.periodic_cleanup.
  destruct (Qgt_bool _ _); [|apply nothing_appended_refl].
  intros key.
  unfold RateLimit._cleanup_old_requests, set_last_cleanup, set_hour, set_minute,
    set_burst.
  cbn [burst_requests minute_requests hour_requests].
  rewrite !window_sweep. repeat split; apply evict_suffix.
Qed.

(** The checks only take entries away, whatever their verdict. *)
Lemma is_rate_limited_nothing_appended (self : t) (ip path : string) (t0 : Q) :
  nothing_appended self (snd (_is_rate_limited self ip path t0)).
Proof.
  unfold RateLimit._is_rate_limited. cbn.
  repeat match goal with
         | |- context [if ?c then _ else _] => destruct c
         end;
    cbn; intros key; repeat split;
    first [apply window_insert_evict_suffix | reflexivity].
Qed.

Lemma periodic_cleanup_config (self : t) (t0 : Q) :
  same_config (periodic_cleanup self t0) self.
Proof.
  unfold RateLimit.periodic_cleanup, same_config.
  destruct (Qgt_bool _ _); cbn; auto.
Qed.

Lemma fresh_hour (t0 : Q) (l : list Q) : fresh 60 t0 l -> fresh 3600 t0 l.
Proof. destruct l; cbn; [trivial|]. intros H. lra. Qed.

Lemma periodic_cleanup_tracks (self : t) (ip : string) (seen : list Q)
    (b : nat) (t0 : Q) :
  tracks self ip seen b -> fresh 60 t0 seen ->
  tracks (periodic_cleanup self t0) ip seen b.
Proof.
  intros (Hm & Hh & Hb) Hf. unfold RateLimit.periodic_cleanup.
  destruct (Qgt_bool _ _); [|repeat split; assumption].
  unfold tracks, RateLimit._cleanup_old_requests, set_last_cleanup, set_hour,
    set_minute, set_burst.
  cbn [burst_requests minute_requests hour_requests].
  rewrite !window_sweep, Hm, Hh.
  rewrite (evict_fresh 60 t0 seen horizon_minute Hf).
  rewrite (evict_fresh 3600 t0 seen horizon_hour (fresh_hour _ _ Hf)).
  repeat split. etrans; [apply evict_length|exact Hb].
Qed.

Lemma is_rate_limited_pass (self : t) (ip path : string) (t0 : Q)
    (seen : list Q) (b : nat) :
  tracks self ip seen b -> fresh 60 t0 seen ->
  (Z.of_nat b < burst_limit self)%Z ->
  (len seen < calls_per_minute self)%Z ->
  (len seen < calls_per_hour self)%Z ->
  _is_sensitive_endpoint path = false ->
  exists self',
    _is_rate_limited self ip path t0 = (false, self')
    /\ tracks self' ip seen b /\ same_config self' self.
Proof.
  intros (Hm & Hh & Hb) Hf Hburst Hmin Hhour Hpath.
  unfold RateLimit._is_rate_limited.
  cbn [burst_limit calls_per_minute calls_per_hour set_burst set_minute
       set_hour burst_requests minute_requests hour_requests].
  rewrite Hpath, Hm, Hh.
  rewrite (evict_fresh 60 t0 seen horizon_minute Hf).
  rewrite (evict_fresh 3600 t0 seen horizon_hour (fresh_hour _ _ Hf)).
  pose proof (evict_length 10 t0 (window (burst_requests self) (ip ++ ":burst")))
    as Hev.
  destruct (Z.leb_spec (burst_limit self)
              (len (evict 10 t0 (window (burst_requests self) (ip ++ ":burst")))));
    [unfold len in *; lia|].
  destruct (Z.leb_spec (calls_per_minute self) (len seen)); [lia|].
  destruct (Z.leb_spec (calls_per_hour self) (len seen)); [lia|].
  eexists. split; [reflexivity|]. split; [|repeat split].
  unfold tracks. cbn. rewrite !window_insert. repeat split. lia.
Qed.

Lemma is_rate_limited_minute (self : t) (ip path : string) (t0 : Q)
    (seen : list Q) (b : nat) :
  tracks self ip seen b -> fresh 60 t0 seen ->
  (Z.of_nat b < burst_limit self)%Z ->
  (calls_per_minute self <= len seen)%Z ->
  exists self',
    _is_rate_limited self ip path t0 = (true, self')
    /\ tracks self' ip seen b /\ same_config self' self.
Proof.
  intros (Hm & Hh & Hb) Hf Hburst Hmin.
  unfold RateLimit._is_rate_limited.
  cbn [burst_limit calls_per_minute calls_per_hour set_burst set_minute
       set_hour burst_requests minute_requests hour_requests].
  rewrite Hm.
  rewrite (evict_fresh 60 t0 seen horizon_minute Hf).
  pose proof (evict_length 10 t0 (window (burst_requests self) (ip ++ ":burst")))
    as Hev.
  destruct (Z.leb_spec (burst_limit self)
              (len (evict 10 t0 (window (burst_requests self) (ip ++ ":burst")))));
    [unfold len in *; lia|].
  destruct (Z.leb_spec (calls_per_minute self) (len seen)); [|lia].
  eexists. split; [reflexivity|]. split; [|repeat split].
  unfold tracks. cbn. rewrite !window_insert. repeat split; [exact Hh|lia].
Qed.

Lemma window_append (d : gmap string (list Q)) (k : string) (x : Q) :
  window (append d k x) k = (window d k ++ [x])%list.
Proof. unfold append. apply window_insert. Qed.

Lemma record_request_tracks (self : t) (ip : string) (t0 : Q)
    (seen : list Q) (b : nat) :
  tracks self ip seen b ->
  tracks (_record_request self ip t0) ip (seen ++ [t0]) (Datatypes.S b)
  /\ same_config (_record_request self ip t0) self.
Proof.
  intros (Hm & Hh & Hb). split; [|repeat split].
  unfold tracks, _record_request. cbn. rewrite !window_append, Hm, Hh.
  repeat split. rewrite length_app. cbn. lia.
Qed.

Lemma same_config_trans (a b c : t) :
  same_config a b -> same_config b c -> same_config a c.
Proof. unfold same_config. intuition congruence. Qed.

(** The header that reports the rest of the minute quota. *)
Lemma remaining_minute_header (self : t) (p : Response) (ip : string)
    (t0 : Q) :
  header_get "X-RateLimit-Remaining-Minute"
    (resp_headers (_add_rate_limit_headers self p ip t0))
  = Some (PyStr.str_of_Z
            (Z.max 0 (calls_per_minute self
                      - len (window (minute_requests self) (ip ++ ":minute"))))).
Proof.
  unfold _add_rate_limit_headers, with_header. cbn [resp_headers].
  rewrite !header_get_set_other by (vm_compute; discriminate).
  apply header_get_set.
Qed.

Section Dispatch.

Context {S : Type}.
Variable call_next : Request -> S -> outcome * S.

(** A request below every limit is recorded and forwarded. *)
Lemma dispatch_forwards (self : t) (s s' : S) (request : Request)
    (p : Response) (t0 : Q) (stamp ip : string) (seen : list Q) (b : nat) :
  tracks self ip seen b -> fresh 60 t0 seen ->
  (Z.of_nat b < burst_limit self)%Z ->
  (len seen < calls_per_minute self)%Z ->
  (len seen < calls_per_hour self)%Z ->
  _get_client_ip request = ip ->
  _is_sensitive_endpoint (req_path request) = false ->
  call_next request s = (Returned p, s') ->
  exists self',
    dispatch call_next t0 stamp request self s
    = (Returned (_add_rate_limit_headers self' p ip t0), self', s')
    /\ tracks self' ip (seen ++ [t0]) (Datatypes.S b)
    /\ same_config self' self.
Proof.
  intros Htr Hf Hb Hm Hh Hip Hpath Hnext.
  pose proof (periodic_cleanup_config self t0) as (C1 & C2 & C3 & C4).
  destruct (is_rate_limited_pass (periodic_cleanup self t0) ip
              (req_path request) t0 seen b)
    as (self1 & E & Htr1 & Hc1);
    [apply periodic_cleanup_tracks; assumption|assumption|lia|lia|lia
    |assumption|].
  destruct (record_request_tracks self1 ip t0 seen b Htr1) as (Htr2 & Hc2).
  exists (_record_request self1 ip t0).
  unfold RateLimit.dispatch. rewrite Hip, E, Hnext. split; [reflexivity|].
  split; [exact Htr2|].
  eapply same_config_trans; [exact Hc2|].
  eapply same_config_trans; [exact Hc1|]. apply periodic_cleanup_config.
Qed.

(** A request that meets a full minute window is answered with 429, is not
    forwarded, and leaves no entry in any window. *)
Lemma dispatch_limits (self : t) (s : S) (request : Request)
    (t0 : Q) (stamp ip : string) (seen : list Q) (b : nat) :
  tracks self ip seen b -> fresh 60 t0 seen ->
  (Z.of_nat b < burst_limit self)%Z ->
  (calls_per_minute self <= len seen)%Z ->
  _get_client_ip request = ip ->
  exists self',
    dispatch call_next t0 stamp request self s
    = (Returned (_create_rate_limit_response ip request stamp), self', s)
    /\ tracks self' ip seen b
    /\ same_config self' self
    /\ nothing_appended self self'.
Proof.
  intros Htr Hf Hb Hm Hip.
  pose proof (periodic_cleanup_config self t0) as (C1 & C2 & C3 & C4).
  destruct (is_rate_limited_minute (periodic_cleanup self t0) ip
              (req_path request) t0 seen b)
    as (self1 & E & Htr1 & Hc1);
    [apply periodic_cleanup_tracks; assumption|assumption|lia|lia|].
  exists self1. unfold RateLimit.dispatch. rewrite Hip, E.
  split; [reflexivity|]. split; [exact Htr1|]. split.
  - eapply same_config_trans; [exact Hc1|]. apply periodic_cleanup_config.
  - eapply nothing_appended_trans;
      [apply periodic_cleanup_nothing_appended|].
    pose proof (is_rate_limited_nothing_appended
                  (periodic_cleanup self t0) ip (req_path request) t0) as H.
    rewrite E in H. exact H.
Qed.

End Dispatch.

End RateLimitFacts.

Ltac known_horizon :=
  first [exact horizon_burst | exact horizon_minute | exact horizon_hour].

(** C2: with a minute limit of 3, a burst and an hour limit above 3 and
    empty windows, five requests of one client on a non-sensitive path
    within one minute go as follows.  The first three reach the rest of the
    application, whose responses come back with their status and content
    and the rate-limit headers, the third with
    [X-RateLimit-Remaining-Minute: 0].  The last two are answered with 429
    and [Retry-After: 60], do not reach the rest of the application (its
    state stays where the third request left it), and no window gets an
    entry for them: the minute and hour windows of the client still hold
    the three earlier times.  The subtraction of doubles [fsub] enters
    through [rounds_within] only; the exact difference is one instance. *)
Theorem five_requests_three_per_minute
    (fsub : Q -> Q -> Q)
    {S : Type} (call_next : Http.Request -> S -> Http.outcome * S)
    (self : RateLimit.t) (ip : string)
    (r1 r2 r3 r4 r5 : Http.Request) (t1 t2 t3 t4 t5 : Q)
    (c1 c2 c3 c4 c5 : string)
    (s0 s1 s2 s3 : S) (p1 p2 p3 : Http.Response) :
  rounds_within fsub ->
  RateLimit.calls_per_minute self = 3%Z ->
  (3 < RateLimit.burst_limit self)%Z ->
  (3 < RateLimit.calls_per_hour self)%Z ->
  RateLimit.minute_requests self = empty ->
  RateLimit.hour_requests self = empty ->
  RateLimit.burst_requests self = empty ->
  Forall (fun r => RateLimit._get_client_ip r = ip
                   /\ RateLimit._is_sensitive_endpoint (Http.req_path r) = false)
         [r1; r2; r3; r4; r5] ->
  (t1 <= t2)%Q -> (t2 <= t3)%Q -> (t3 <= t4)%Q -> (t4 <= t5)%Q ->
  (t5 - t1 <= 60)%Q ->
  call_next r1 s0 = (Http.Returned p1, s1) ->
  call_next r2 s1 = (Http.Returned p2, s2) ->
  call_next r3 s2 = (Http.Returned p3, s3) ->
  exists (q1 q2 q3 : Http.Response) (self3 self4 self5 : RateLimit.t),
    RateLimit.serve fsub call_next
      [(r1, t1, c1); (r2, t2, c2); (r3, t3, c3); (r4, t4, c4); (r5, t5, c5)]
      self s0
    = ([Http.Returned q1; Http.Returned q2; Http.Returned q3;
        Http.Returned (RateLimit._create_rate_limit_response ip r4 c4);
        Http.Returned (RateLimit._create_rate_limit_response ip r5 c5)],
       self5, s3)
    /\ RateLimit.serve fsub call_next [(r1, t1, c1); (r2, t2, c2); (r3, t3, c3)]
         self s0
       = ([Http.Returned q1; Http.Returned q2; Http.Returned q3], self3, s3)
    /\ RateLimit.dispatch fsub call_next t4 c4 r4 self3 s3
       = (Http.Returned (RateLimit._create_rate_limit_response ip r4 c4),
          self4, s3)
    /\ RateLimit.dispatch fsub call_next t5 c5 r5 self4 s3
       = (Http.Returned (RateLimit._create_rate_limit_response ip r5 c5),
          self5, s3)
    /\ (Http.status_code q1 = Http.status_code p1
        /\ Http.content q1 = Http.content p1)
    /\ (Http.status_code q2 = Http.status_code p2
        /\ Http.content q2 = Http.content p2)
    /\ (Http.status_code q3 = Http.status_code p3
        /\ Http.content q3 = Http.content p3)
    /\ Http.header_get "X-RateLimit-Remaining-Minute" (Http.resp_headers q3)
       = Some "0"
    /\ Http.status_code (RateLimit._create_rate_limit_response ip r4 c4) = 429%Z
    /\ Http.status_code (RateLimit._create_rate_limit_response ip r5 c5) = 429%Z
    /\ Http.header_get "Retry-After"
         (Http.resp_headers (RateLimit._create_rate_limit_response ip r4 c4))
       = Some "60"
    /\ Http.header_get "Retry-After"
         (Http.resp_headers (RateLimit._create_rate_limit_response ip r5 c5))
       = Some "60"
    /\ RateLimit.nothing_appended self3 self4
    /\ RateLimit.nothing_appended self4 self5
    /\ RateLimit.window (RateLimit.minute_requests self5) (ip ++ ":minute")
       = [t1; t2; t3]
    /\ RateLimit.window (RateLimit.hour_requests self5) (ip ++ ":hour")
       = [t1; t2; t3].
Proof.
  intros Hfs Hcpm Hburst Hhour Em Eh Eb Hreq H12 H23 H34 H45 H51 N1 N2 N3.
  repeat match goal with
         | H : Forall _ (_ :: _) |- _ =>
             apply Forall_cons_iff in H; destruct H as [[? ?] H]
         end.
  assert (T0 : RateLimit.tracks self ip [] 0).
  { unfold RateLimit.tracks, RateLimit.window. rewrite Em, Eh, Eb.
    rewrite !lookup_empty. cbn. auto. }
  destruct (dispatch_forwards fsub Hfs call_next self s0 s1 r1 p1 t1 c1 ip [] 0)
    as (a1 & E1 & T1 & (K1 & K1' & K1'' & _));
    [assumption|exact I|lia|unfold RateLimit.len; cbn; lia|unfold RateLimit.len; cbn; lia|assumption|assumption|assumption|].
  destruct (dispatch_forwards fsub Hfs call_next a1 s1 s2 r2 p2 t2 c2 ip [t1] 1)
    as (a2 & E2 & T2 & (K2 & K2' & K2'' & _));
    [assumption|cbn; lra|lia|unfold RateLimit.len; cbn; lia|unfold RateLimit.len; cbn; lia|assumption|assumption
    |assumption|].
  destruct (dispatch_forwards fsub Hfs call_next a2 s2 s3 r3 p3 t3 c3 ip [t1; t2] 2)
    as (a3 & E3 & T3 & (K3 & K3' & K3'' & _));
    [assumption|cbn; lra|lia|unfold RateLimit.len; cbn; lia|unfold RateLimit.len; cbn; lia|assumption|assumption
    |assumption|].
  destruct (dispatch_limits fsub Hfs call_next a3 s3 r4 t4 c4 ip [t1; t2; t3] 3)
    as (a4 & E4 & T4 & (K4 & K4' & K4'' & _) & A4);
    [assumption|cbn; lra|lia|unfold RateLimit.len; cbn; lia|assumption|].
  destruct (dispatch_limits fsub Hfs call_next a4 s3 r5 t5 c5 ip [t1; t2; t3] 3)
    as (a5 & E5 & T5 & (K5 & K5' & K5'' & _) & A5);
    [assumption|cbn; lra|lia|unfold RateLimit.len; cbn; lia|assumption|].
  eexists _, _, _, a3, a4, a5.
  cbn [RateLimit.serve]. rewrite E1, E2, E3, E4, E5.
  split; [reflexivity|]. split; [reflexivity|].
  split; [reflexivity|]. split; [reflexivity|].
  split; [split; reflexivity|]. split; [split; reflexivity|].
  split; [split; reflexivity|].
  split.
  { rewrite remaining_minute_header.
    destruct T3 as (-> & _ & _). rewrite K3, K2, K1, Hcpm. reflexivity. }
  split; [reflexivity|]. split; [reflexivity|].
  split; [reflexivity|]. split; [reflexivity|].
  split; [exact A4|]. split; [exact A5|].
  destruct T5 as (-> & -> & _). split; reflexivity.
Qed.


(** ** Error handler: validation failures *)

(** C7, as the code has it: the response to a validation failure has
    status 422 and code [VALIDATION_ERROR]; its [details] array has one
    entry per violation, in order, and an entry consists of [field], the
    location items joined with [" -> "], of [message] and of [type]. *)
Theorem validation_response_shape (request : Http.Request)
    (errors : list Http.validation_error) (fresh timestamp : string) :
  let r := ErrorHandler.validation_exception_handler
             request errors fresh timestamp in
  Http.status_code r = 422%Z
  /\ Http.body_error_field "code" r = Some (Http.JStr "VALIDATION_ERROR")
  /\ Http.body_error_field "details" r
     = Some (Http.JArr (List.map ErrorHandler.format_error errors))
  /\ List.length (List.map ErrorHandler.format_error errors)
     = List.length errors
  /\ forall error,
       ErrorHandler.format_error error
       = Http.JObj
           [("field",
             Http.JStr (PyStr.join " -> "
                          (List.map ErrorHandler.str_loc (Http.loc error))));
            ("message", Http.JStr (Http.msg error));
            ("type", Http.JStr (Http.type_ error))].
Proof.
  cbn. repeat split. apply length_map.
Qed.

(** C7 as stated fails: for a violation at [body.username] the entry the
    code builds has the field ["body -> username"] and no key [kind], so it
    is not the entry the specification describes. *)
Lemma validation_detail_not_dotted :
  let error := Http.mk_verr [Http.LocName "body"; Http.LocName "username"]
                            "Field required" "missing" in
  Http.body_error_field "details"
    (ErrorHandler.validation_exception_handler
       Fixture.request [error] "f" "2024-01-01T00:00:00+00:00")
  = Some (Http.JArr
            [Http.JObj [("field", Http.JStr "body -> username");
                        ("message", Http.JStr "Field required");
                        ("type", Http.JStr "missing")]])
  /\ SpecReading.dotted_path error = "body.username"
  /\ ErrorHandler.format_error error <> SpecReading.detail_entry error
  /\ Http.field "kind" (ErrorHandler.format_error error) = None.
Proof. cbn. repeat split. discriminate. Qed.

(** ** Error handler: correlation identifiers *)
Section CorrelationFacts.
Import Http.

Variable fsub : Q -> Q -> Q.

(** The identifiers [uuid.uuid4()] hands out in the process, in order.
    The library promises that no value comes twice. *)
Variable uuid4 : nat -> string.
Hypothesis uuid4_never_repeats : forall m n, uuid4 m = uuid4 n -> m = n.

Variable preflight_response : headers -> Response.
Variable simple_response : headers -> Response -> Response.
Hypothesis simple_response_completes : App.completes_headers simple_response.
Hypothesis preflight_response_plain : App.preflight_is_plain preflight_response.

Context {S : Type}.
Variable route : Request -> S -> outcome * S.

Abbreviation handled := (App.handled fsub uuid4 route).
Abbreviation app :=
  (App.app fsub uuid4 preflight_response simple_response route).
Abbreviation serve :=
  (App.serve fsub uuid4 preflight_response simple_response route).

(** What the stack inside the CORS middleware makes of one request: it
    draws an identifier; a response that comes back carries it in
    [X-Correlation-ID]; and when the request was rate limited or the route
    raised an exception that the application's handlers answer, a response
    comes back whose error object carries the same identifier. *)
Lemma handled_correlation (a : App.arrival) (calls : nat)
    (limiter : RateLimit.t) (s : S) :
  let cid := uuid4 calls in
  let request := set_correlation_id cid (App.request a) in
  exists o calls' limiter' s',
    handled a (calls, (limiter, s)) = (o, (calls', (limiter', s')))
    /\ calls < calls'
    /\ (forall resp, o = Returned resp ->
        header_get "X-Correlation-ID" (resp_headers resp) = Some cid)
    /\ (fst (RateLimit._is_rate_limited fsub
               (RateLimit.periodic_cleanup fsub limiter (App.current_time a))
               (RateLimit._get_client_ip request) (req_path request)
               (App.current_time a)) = true
        \/ (exists e, fst (route request s) = Raised e
                      /\ App.answered_by_application e = true) ->
        exists resp,
          o = Returned resp
          /\ body_correlation_id resp = Some (JStr cid)).
Proof.
  intros cid request.
  unfold App.handled, ErrorHandler.dispatch, App.limited_routes,
    RateLimit.dispatch, ErrorHandler.exception_handlers.
  fold cid. fold request.
  destruct (RateLimit._is_rate_limited _ _ _ _ _) as [[|] limiter1] eqn:E.
  - eexists _, _, _, _. split; [reflexivity|]. split; [lia|].
    split; [intros resp [= <-]; apply header_get_set|].
    intros _. eexists. split; reflexivity.
  - destruct (route request s) as [[resp|e] s1] eqn:R.
    + eexists _, _, _, _. split; [reflexivity|]. split; [lia|].
      split; [intros resp' [= <-]; apply header_get_set|].
      intros [H|(e & H & _)]; cbn in H; discriminate.
    + destruct e as [status detail|errors|e|e|status detail hs].
      * eexists _, _, _, _. split; [reflexivity|]. split; [lia|].
        split; [intros resp' [= <-]; apply header_get_set|].
        intros _. eexists. split; reflexivity.
      * eexists _, _, _, _. split; [reflexivity|]. split; [lia|].
        split; [intros resp' [= <-]; apply header_get_set|].
        intros _. eexists. split; reflexivity.
      * eexists _, _, _, _. split; [reflexivity|]. split; [lia|].
        split; [intros resp' [= <-]; reflexivity|].
        intros _. eexists. split; reflexivity.
      * destruct (is_Exception e) eqn:Hexc.
        -- eexists _, _, _, _. split; [reflexivity|]. split; [lia|].
           split; [intros resp' [= <-]; reflexivity|].
           intros _. eexists. split; reflexivity.
        -- eexists _, _, _, _. split; [reflexivity|]. split; [lia|].
           split; [intros resp' [=]|].
           intros [H|(e' & H & He')]; cbn in H; [discriminate|].
           injection H as <-. cbn in He'. congruence.
      * eexists _, _, _, _. split; [reflexivity|]. split; [lia|].
        split; [intros resp' [= <-]; apply header_get_set|].
        intros [H|(e' & H & He')]; cbn in H; [discriminate|].
        injection H as <-. cbn in He'. discriminate.
Qed.

(** The same through the CORS middleware, which answers a preflight
    request without drawing an identifier. *)
Lemma app_correlation (a : App.arrival) (calls : nat) (limiter : RateLimit.t)
    (s : S) :
  let cid := uuid4 calls in
  let request := set_correlation_id cid (App.request a) in
  exists o calls' limiter' s',
    app a (calls, (limiter, s)) = (o, (calls', (limiter', s')))
    /\ calls <= calls'
    /\ (forall cid', correlation_header o = Some cid' ->
        cid' = cid /\ calls < calls')
    /\ (App.answered_by_cors a = false ->
        (forall resp, o = Returned resp ->
           header_get "X-Correlation-ID" (resp_headers resp) = Some cid)
        /\ (fst (RateLimit._is_rate_limited fsub
                   (RateLimit.periodic_cleanup fsub limiter
                      (App.current_time a))
                   (RateLimit._get_client_ip request) (req_path request)
                   (App.current_time a)) = true
            \/ (exists e, fst (route request s) = Raised e
                          /\ App.answered_by_application e = true) ->
            exists resp,
              o = Returned resp
              /\ header_get "X-Correlation-ID" (resp_headers resp) = Some cid
              /\ body_correlation_id resp = Some (JStr cid))).
Proof.
  intros cid request.
  destruct (handled_correlation a calls limiter s)
    as (o & calls' & limiter' & s' & E & Hlt & Hh & Hb).
  fold cid in Hh, Hb. fold request in Hb.
  unfold App.app, App.answered_by_cors.
  destruct (header_get "origin" _) as [origin|].
  - destruct (App.is_preflight _).
    + eexists _, _, _, _. split; [reflexivity|]. split; [lia|].
      split; [|discriminate].
      intros cid' H. cbn in H.
      rewrite (proj1 (preflight_response_plain _)) in H. discriminate.
    + rewrite E. destruct o as [resp|e].
      * eexists _, _, _, _. split; [reflexivity|]. split; [lia|].
        destruct (simple_response_completes
                    (req_headers (App.request a)) resp) as (_ & Hc & Hx).
        assert (Hid : header_get "X-Correlation-ID"
                        (resp_headers
                           (simple_response (req_headers (App.request a))
                                            resp)) = Some cid).
        { rewrite Hx. apply Hh. reflexivity. }
        split.
        { intros cid' H. cbn in H. rewrite Hid in H.
          injection H as <-. split; [reflexivity|exact Hlt]. }
        intros _. split; [intros resp' [= <-]; exact Hid|].
        intros H. destruct (Hb H) as (resp' & [= <-] & Hbody).
        eexists. split; [reflexivity|]. split; [exact Hid|].
        unfold body_correlation_id in *. rewrite Hc. exact Hbody.
      * eexists _, _, _, _. split; [reflexivity|]. split; [lia|].
        split; [intros cid' H; discriminate|].
        intros _. split; [intros resp [=]|].
        intros H. destruct (Hb H) as (resp' & [=] & _).
  - rewrite E. eexists _, _, _, _. split; [reflexivity|]. split; [lia|].
    split.
    { intros cid' H. destruct o as [resp|e]; [|discriminate].
      cbn in H. rewrite (Hh resp eq_refl) in H. injection H as <-.
      split; [reflexivity|exact Hlt]. }
    intros _. split; [exact Hh|].
    intros H. destruct (Hb H) as (resp & -> & Hbody).
    exists resp. split; [reflexivity|]. split; [apply Hh; reflexivity|].
    exact Hbody.
Qed.

(** An [HTTPException] of Starlette itself gets the header, and a body
    without an error object. *)
Lemma app_starlette_exception (a : App.arrival) (calls : nat)
    (limiter : RateLimit.t) (s s1 : S) (status : Z) (detail : string)
    (hs : headers) :
  let cid := uuid4 calls in
  let request := set_correlation_id cid (App.request a) in
  App.answered_by_cors a = false ->
  fst (RateLimit._is_rate_limited fsub
         (RateLimit.periodic_cleanup fsub limiter (App.current_time a))
         (RateLimit._get_client_ip request) (req_path request)
         (App.current_time a)) = false ->
  route request s = (Raised (StarletteHTTPException status detail hs), s1) ->
  exists resp st',
    app a (calls, (limiter, s)) = (Returned resp, st')
    /\ status_code resp = status
    /\ header_get "X-Correlation-ID" (resp_headers resp) = Some cid
    /\ body_correlation_id resp = None.
Proof.
  intros cid request Hcors Hpass Hroute.
  assert (E : exists resp st',
             handled a (calls, (limiter, s)) = (Returned resp, st')
             /\ status_code resp = status
             /\ header_get "X-Correlation-ID" (resp_headers resp) = Some cid
             /\ body_correlation_id resp = None).
  { unfold App.handled, ErrorHandler.dispatch, App.limited_routes,
      RateLimit.dispatch, ErrorHandler.exception_handlers.
    fold cid. fold request.
    destruct (RateLimit._is_rate_limited _ _ _ _ _) as [limited limiter1].
    cbn [fst] in Hpass. subst limited. rewrite Hroute.
    eexists _, _. split; [reflexivity|].
    split; [|split; [apply header_get_set|]].
    - unfold ErrorHandler.default_http_exception_handler.
      destruct (ErrorHandler.is_body_allowed_for_status_code status);
        reflexivity.
    - unfold ErrorHandler.default_http_exception_handler.
      destruct (ErrorHandler.is_body_allowed_for_status_code status);
        reflexivity. }
  destruct E as (resp & st' & E & Hst & Hh & Hb).
  unfold App.app. unfold App.answered_by_cors in Hcors.
  destruct (header_get "origin" _) as [origin|]; [|eauto 10].
  rewrite Hcors, E.
  destruct (simple_response_completes (req_headers (App.request a)) resp)
    as (Hs & Hc & Hx).
  eexists _, _. split; [reflexivity|].
  split; [rewrite Hs; exact Hst|]. split; [rewrite Hx; exact Hh|].
  unfold body_correlation_id in *. rewrite Hc. exact Hb.
Qed.

Lemma serve_correlation (arrivals : list App.arrival) :
  forall calls limiter s,
    Forall (fun cid => exists n, calls <= n /\ cid = uuid4 n)
           (omap correlation_header
              (fst (serve arrivals (calls, (limiter, s)))))
    /\ NoDup (omap correlation_header
                (fst (serve arrivals (calls, (limiter, s))))).
Proof.
  induction arrivals as [|a rest IH]; intros calls limiter s.
  - cbn. split; constructor.
  - cbn [App.serve].
    destruct (app_correlation a calls limiter s)
      as (o & calls' & limiter' & s' & E & Hle & Hh & _).
    rewrite E.
    destruct (IH calls' limiter' s') as (Hall & Hnd).
    destruct (App.serve _ _ _ _ _ rest (calls', (limiter', s')))
      as [os st''].
    cbn [fst omap list_omap] in *.
    assert (Hall' : Forall (fun cid => exists n, calls <= n /\ cid = uuid4 n)
                           (omap correlation_header os)).
    { eapply Forall_impl; [exact Hall|].
      intros cid (n & Hn & Ho). exists n. split; [lia|exact Ho]. }
    destruct (correlation_header o) as [cid|] eqn:Ho;
      [|split; assumption].
    destruct (Hh cid eq_refl) as (-> & Hlt).
    split.
    + constructor; [|exact Hall'].
      exists calls. split; [lia|reflexivity].
    + constructor; [|exact Hnd].
      intros Hin. rewrite Forall_forall in Hall.
      destruct (Hall _ Hin) as (n & Hn & Heq).
      apply uuid4_never_repeats in Heq. lia.
Qed.


End CorrelationFacts.

Lemma fixture_uuid4_never_repeats (m n : nat) :
  Fixture.uuid4 m = Fixture.uuid4 n -> m = n.
Proof.
  unfold Fixture.uuid4. intros H.
  apply (f_equal String.length) in H.
  rewrite !length_append, !length_repeat in H. lia.
Qed.

Lemma fixture_simple_response_completes :
  App.completes_headers Fixture.simple_response.
Proof.
  intros hs r. split; [reflexivity|]. split; [reflexivity|].
  unfold Fixture.simple_response, Http.with_header. cbn [Http.resp_headers].
  rewrite !header_get_set_other by (vm_compute; discriminate).
  reflexivity.
Qed.

Lemma fixture_preflight_response_plain :
  App.preflight_is_plain Fixture.preflight_response.
Proof. intros hs. split; reflexivity. Qed.

Lemma fixture_rounds_within : rounds_within Fixture.fsub.
Proof. intros a b h _ H. exact H. Qed.

Lemma fixture_rounds_monotone : rounds_monotone Fixture.fsub.
Proof. intros a a' b b' Ha Hb. unfold Fixture.fsub. lra. Qed.



Lemma five_requests_three_per_minute_witness :
  exists q3 : Http.Response,
    nth_error
      (fst (fst (RateLimit.serve Fixture.fsub Fixture.route
                   [(Fixture.request, 100%Q, "g1");
                    (Fixture.request, 101%Q, "g2");
                    (Fixture.request, 102%Q, "g3");
                    (Fixture.request, 103%Q, "g4");
                    (Fixture.request, 104%Q, "g5")]
                   (RateLimit.init 3 1000 10 300 0) 0))) 2
    = Some (Http.Returned q3)
    /\ Http.header_get "X-RateLimit-Remaining-Minute" (Http.resp_headers q3)
       = Some "0".
Proof.
  destruct (five_requests_three_per_minute
              Fixture.fsub Fixture.route (RateLimit.init 3 1000 10 300 0) "10.0.0.7"
              Fixture.request Fixture.request Fixture.request
              Fixture.request Fixture.request
              100 101 102 103 104 "g1" "g2" "g3" "g4" "g5"
              0 1 2 3
              Fixture.ok_response Fixture.ok_response Fixture.ok_response)
    as (q1 & q2 & q3 & self3 & self4 & self5 & E & _ & _ & _ & _ & _ & _ & H & _);
    try reflexivity; try (cbn; lia); try (unfold Qle; cbn; lia).
  - exact fixture_rounds_within.
  - repeat constructor.
  - exists q3. rewrite E. split; [reflexivity|exact H].
Defined.

(** ** Database retry: the claims *)

(** What the loop does by its own test, [_is_recoverable_error], with the
    exceptions that [except Exception] catches: on a
    fresh handler an operation that keeps raising an exception the test
    accepts is run four times with sleeps of 1, 2 and 3 times
    [retry_delay], in increasing order, before the exception goes through;
    an exception the test rejects goes through at once; and a call that
    returns a value leaves the counter at zero. *)
Lemma execute_with_retry_by_recoverability
    {W A : Type} (operation : W -> result A * W) (name : string)
    (g : option DatabaseErrorHandler.t) (w : W) :
  exists r h' w',
    Database.execute_with_retry operation name g w = Some (r, Some h', w')
    /\ (forall v, Database.outcome r = Ok v ->
                  DatabaseErrorHandler.retry_count h' = 0)
    /\ (forall e,
          g = None ->
          (forall w0, fst (operation w0) = Raise e) ->
          is_Exception e = true ->
          DatabaseErrorHandler._is_recoverable_error e = true ->
          Database.outcome r = Raise e
          /\ Database.sleeps r
             = [(1 * inject_Z 1)%Q; (1 * inject_Z 2)%Q; (1 * inject_Z 3)%Q]
          /\ (1 * inject_Z 1 < 1 * inject_Z 2 < 1 * inject_Z 3)%Q
          /\ Database.attempts r = 4
          /\ DatabaseErrorHandler.retry_count h' = 3)
    /\ (forall e w1,
          operation w = (Raise e, w1) ->
          is_Exception e = true ->
          DatabaseErrorHandler._is_recoverable_error e = false ->
          Database.outcome r = Raise e
          /\ Database.sleeps r = []
          /\ Database.attempts r = 1).
Proof.
  destruct (execute_with_retry_returns operation name g w)
    as (r & h' & w' & E).
  exists r, h', w'. split; [exact E|].
  unfold Database.execute_with_retry in E.
  destruct (DatabaseErrorHandler.get_db_error_handler g) as [h g0] eqn:G.
  destruct (Database.retry_loop _ _ _ _ _ _ _ _) as [[[r1 h1] w1]|] eqn:L;
    [|discriminate].
  injection E as -> -> ->.
  split; [|split].
  - intros v Hv. eapply retry_loop_handler in L. apply L in Hv. exact Hv.
  - intros e -> Hop Hexc Hrec. cbn in G. injection G as <- _.
    destruct (retry_loop_exhausts operation name e Hop Hexc Hrec 4
                DatabaseErrorHandler.init w [] 0 [])
      as (r2 & h2 & w2 & E2 & Ho & Hs & Ha & Hc); [cbn; lia|cbn; lia|].
    cbn in L. cbn in E2. rewrite E2 in L. injection L as <- <- <-.
    split; [exact Ho|]. split; [exact Hs|].
    split; [unfold Qlt; cbn; lia|]. split; [exact Ha|exact Hc].
  - intros e w2 Hop Hexc Hrec.
    rewrite (retry_loop_no_retry operation name e _ h w w2 [] 0 [] Hop Hexc Hrec)
      in L.
    injection L as <- _ _. cbn. auto.
Qed.

(** C1 (the code at two inputs).  An [InterfaceError] saying that the
    server has gone away is reported as a connection error, yet the call
    runs the operation once and never sleeps; an [OperationalError] with a
    constraint message is reported as a constraint violation, yet the call
    sleeps 1, 2 and 3 seconds and runs the operation four times. *)
Theorem execute_with_retry_against_classification :
  let gone_away := mk_exn "InterfaceError" "(0, 'MySQL server has gone away')" in
  let violation :=
    mk_exn "OperationalError"
           "(3819, Check constraint 'chk_balance' is violated.)" in
  DatabaseErrorHandler._is_connection_error gone_away = true
  /\ option_map
       (fun x => let r := fst (fst x) in
                 (Database.outcome r, Database.sleeps r, Database.attempts r,
                  List.map DatabaseErrorHandler.action_taken
                           (Database.reports r)))
       (Database.execute_with_retry
          (Fixture.always_raises gone_away) "query" None tt)
     = Some (Raise gone_away, [], 1, ["connection_retry"])
  /\ DatabaseErrorHandler._is_constraint_error violation = true
  /\ option_map
       (fun x => let r := fst (fst x) in
                 (Database.outcome r, Database.sleeps r, Database.attempts r,
                  List.map DatabaseErrorHandler.action_taken
                           (Database.reports r)))
       (Database.execute_with_retry
          (Fixture.always_raises violation) "query" None tt)
     = Some (Raise violation, [1%Q; 2%Q; 3%Q], 4,
             ["constraint_violation"; "constraint_violation";
              "constraint_violation"; "constraint_violation"]).
Proof. repeat split; vm_compute; reflexivity. Qed.

(** C9 as stated fails: of two calls in a row with an operation that always
    raises "connection refused", the first retries three times and leaves
    the counter of the shared handler at 3; the second starts from that
    counter and retries not once. *)
Lemma retry_counter_outlives_failed_call :
  option_map
    (fun x => (List.length (Database.sleeps (fst (fst x))),
               option_map DatabaseErrorHandler.retry_count (snd (fst x)),
               List.length (Database.sleeps (snd x))))
    (execute_twice
       (Fixture.always_raises (mk_exn "Exception" "connection refused"))
       "query" tt)
  = Some (3, Some 3, 0).
Proof. vm_compute. reflexivity. Qed.

(** C9, as the code has it: the counter lives in the one module-level
    handler, which every call shares and which outlives the call.  A call
    that returns a value leaves that handler as [__init__] made it, counter
    zero, so whatever is called next behaves as it would on a handler that
    was never used. *)
Theorem retry_counter_reset_by_success
    {W A W2 A2 : Type} (operation : W -> result A * W) (name : string)
    (g g' : option DatabaseErrorHandler.t) (w w' : W) (r : Database.run)
    (v : A) :
  handler_state g ->
  Database.execute_with_retry operation name g w = Some (r, g', w') ->
  Database.outcome r = Ok v ->
  g' = Some DatabaseErrorHandler.init
  /\ handler_state g'
  /\ forall (next : W2 -> result A2 * W2) (name2 : string) (w2 : W2),
       Database.execute_with_retry next name2 g' w2
       = Database.execute_with_retry next name2 None w2.
Proof.
  intros Hg E Hv.
  assert (Hinit : g' = Some DatabaseErrorHandler.init).
  { unfold Database.execute_with_retry in E.
    destruct (DatabaseErrorHandler.get_db_error_handler g) as [h g0] eqn:G.
    destruct (Database.retry_loop _ _ _ _ _ _ _ _) as [[[r1 h1] w1]|] eqn:L;
      [|discriminate].
    injection E as <- <- <-.
    apply retry_loop_handler in L. destruct L as (Hmax & Hdelay & Hcount).
    specialize (Hcount v Hv).
    assert (Hh : DatabaseErrorHandler.max_retries h = 3
                 /\ DatabaseErrorHandler.retry_delay h = 1%Q).
    { destruct Hg as [->|[n ->]]; cbn in G; injection G as <- _; auto. }
    destruct Hh as (H3 & H1). destruct h1 as [c m d]. cbn in *.
    subst. rewrite H3, H1. reflexivity. }
  subst g'. split; [reflexivity|]. split; [right; exists 0; reflexivity|].
  reflexivity.
Qed.

Lemma retry_counter_reset_by_success_witness :
  Database.execute_with_retry
    Fixture.fails_twice "again" (Some DatabaseErrorHandler.init) 0
  = Database.execute_with_retry Fixture.fails_twice "again" None 0.
Proof.
  apply (retry_counter_reset_by_success
           Fixture.fails_twice "test_operation" None
           (Some DatabaseErrorHandler.init) 0 3
           (Database.mk_run (Ok "success_test_operation") [1%Q; 2%Q] 3
              [DatabaseErrorHandler.mk_info "Exception" "test_operation" 0
                 true "unknown_error";
               DatabaseErrorHandler.mk_info "Exception" "test_operation" 1
                 true "unknown_error"])
           "success_test_operation").
  - left. reflexivity.
  - vm_compute. reflexivity.
  - reflexivity.
Defined.

(** * Further properties *)

(** ** Masking, for every length *)

Lemma substring_split (s : string) :
  forall a b, substring 0 a s ++ substring a b s = substring 0 (a + b) s.
Proof.
  induction s as [|c r IH]; intros a b.
  - destruct a, b; reflexivity.
  - destruct a as [|a].
    + destruct b; reflexivity.
    + cbn [substring Nat.add].
      change (String c (substring 0 a r ++ substring a b r)
              = String c (substring 0 (a + b) r)).
      rewrite IH. reflexivity.
Qed.

Lemma substring_whole (s : string) :
  forall n, String.length s <= n -> substring 0 n s = s.
Proof.
  induction s as [|c r IH]; intros n H.
  - destruct n; reflexivity.
  - destruct n as [|n]; [cbn in H; lia|].
    cbn in *. rewrite IH by lia. reflexivity.
Qed.

Lemma length_substring_prefix (s : string) :
  forall n, String.length (substring 0 n s) = Nat.min n (String.length s).
Proof.
  induction s as [|c r IH]; intros n.
  - destruct n; reflexivity.
  - destruct n as [|n]; [reflexivity|]. cbn. rewrite IH. reflexivity.
Qed.

Lemma append_assoc (a b c : string) : (a ++ b) ++ c = a ++ (b ++ c).
Proof.
  induction a as [|x a IH]; [reflexivity|].
  change (String x ((a ++ b) ++ c) = String x (a ++ (b ++ c))).
  rewrite IH. reflexivity.
Qed.

Lemma join_snoc (sep : string) (parts : list string) (x : string) :
  PyStr.join sep (parts ++ [x])
  = match parts with
    | [] => x
    | _ => PyStr.join sep parts ++ sep ++ x
    end.
Proof.
  induction parts as [|p rest IH]; [reflexivity|].
  destruct rest as [|q rest]; [reflexivity|].
  change (PyStr.join sep ((p :: q :: rest) ++ [x]))
    with (p ++ sep ++ PyStr.join sep ((q :: rest) ++ [x])).
  rewrite IH.
  change (PyStr.join sep (p :: q :: rest))
    with (p ++ sep ++ PyStr.join sep (q :: rest)).
  rewrite !append_assoc. reflexivity.
Qed.

(** The blocks of four, joined, are the text with a space after every
    fourth character but the last block. *)
Lemma blocks_of_four (s : string) (k : nat) :
  let blocks := List.map (fun i => PyStr.slice i (i + 4) s)
                         (List.map (fun j => 4 * j) (seq 0 k)) in
  (forall f, f " "%char = false ->
             PyStr.filter f (PyStr.join " " blocks)
             = PyStr.filter f (substring 0 (4 * k) s))
  /\ String.length (PyStr.join " " blocks)
     = String.length (substring 0 (4 * k) s) + (k - 1).
Proof.
  cbn zeta.
  assert (Hb : forall n,
             List.map (fun i => PyStr.slice i (i + 4) s)
                      (List.map (fun j => 4 * j) (seq 0 (Datatypes.S n)))
             = (List.map (fun i => PyStr.slice i (i + 4) s)
                         (List.map (fun j => 4 * j) (seq 0 n))
                ++ [substring (4 * n) 4 s])%list).
  { intros n. rewrite seq_S, !map_app. cbn [List.map].
    unfold PyStr.slice. rewrite Nat.add_0_l.
    replace (4 * n + 4 - 4 * n) with 4 by lia. reflexivity. }
  induction k as [|k [IHf IHl]].
  - split; [intros|]; cbn; destruct s; reflexivity.
  - rewrite Hb, join_snoc.
    replace (4 * Datatypes.S k) with (4 * k + 4) by lia.
    rewrite <- (substring_split s (4 * k) 4).
    destruct k as [|k].
    + cbn [seq List.map]. replace (4 * 0) with 0 by lia.
      assert (E0 : substring 0 0 s = "") by (destruct s; reflexivity).
      rewrite E0. split; [intros; reflexivity|].
      rewrite length_append. cbn [String.length]. lia.
    + rewrite Hb in *.
      destruct (List.map (fun i => PyStr.slice i (i + 4) s)
                  (List.map (fun j => 4 * j) (seq 0 k))
                ++ [substring (4 * k) 4 s])%list as [|b bs] eqn:E;
        [apply app_eq_nil in E; destruct E; discriminate|].
      split.
      * intros f Hf. rewrite !filter_app, IHf by exact Hf.
        cbn [PyStr.filter]. rewrite Hf. reflexivity.
      * rewrite !length_append, IHl. cbn [String.length]. lia.
Qed.

Lemma length_substring (s : string) :
  forall a b, a + b <= String.length s -> String.length (substring a b s) = b.
Proof.
  induction s as [|c r IH]; intros a b H.
  - cbn in H. assert (a = 0) by lia. assert (b = 0) by lia. subst. reflexivity.
  - destruct a as [|a].
    + destruct b as [|b]; [reflexivity|]. cbn in *. rewrite IH by lia.
      reflexivity.
    + cbn in *. apply IH. lia.
Qed.

Lemma filter_repeat_other (f : ascii -> bool) (c : ascii) (n : nat) :
  f c = false -> PyStr.filter f (PyStr.repeat c n) = "".
Proof. intros H. induction n; cbn; [|rewrite H]; auto. Qed.

Lemma filter_repeat_same (f : ascii -> bool) (c : ascii) (n : nat) :
  f c = true -> PyStr.filter f (PyStr.repeat c n) = PyStr.repeat c n.
Proof. intros H. induction n; cbn; [|rewrite H, IHn]; auto. Qed.

Lemma position_in_block (k p : nat) :
  p < 5 -> (p + k * 5) mod 5 = p /\ (p + k * 5) / 5 = k.
Proof.
  intros Hp. split.
  - rewrite Nat.Div0.mod_add. apply Nat.mod_small. exact Hp.
  - rewrite Nat.div_add by lia. rewrite Nat.div_small by exact Hp. reflexivity.
Qed.

(** The character at each position of [k] full blocks of four joined by
    spaces. *)
Lemma get_blocks_of_four (s : string) (k : nat) :
  4 * k <= String.length s ->
  let joined :=
    PyStr.join " "
      (List.map (fun i => PyStr.slice i (i + 4) s)
                (List.map (fun j => 4 * j) (seq 0 k))) in
  String.length joined = 5 * k - 1
  /\ forall i,
       i < 5 * k - 1 ->
       String.get i joined
       = if i mod 5 =? 4 then Some " "%char else String.get (i - i / 5) s.
Proof.
  cbn zeta.
  assert (Hb : forall n,
             List.map (fun i => PyStr.slice i (i + 4) s)
                      (List.map (fun j => 4 * j) (seq 0 (Datatypes.S n)))
             = (List.map (fun i => PyStr.slice i (i + 4) s)
                         (List.map (fun j => 4 * j) (seq 0 n))
                ++ [substring (4 * n) 4 s])%list).
  { intros n. rewrite seq_S, !map_app. cbn [List.map].
    unfold PyStr.slice. rewrite Nat.add_0_l.
    replace (4 * n + 4 - 4 * n) with 4 by lia. reflexivity. }
  induction k as [|k IH]; intros Hk.
  - split; [reflexivity|]. intros i Hi. cbn in Hi. lia.
  - destruct IH as (IHl & IHg); [lia|].
    assert (Hx : String.length (substring (4 * k) 4 s) = 4)
      by (apply length_substring; lia).
    assert (Hgx : forall p, p < 4 ->
               String.get p (substring (4 * k) 4 s)
               = String.get (p + 4 * k) s)
      by (intros p Hp; apply substring_correct1; exact Hp).
    rewrite Hb, join_snoc.
    destruct k as [|k].
    + cbn [seq List.map]. split; [exact Hx|].
      intros i Hi. rewrite Hgx by lia.
      rewrite Nat.mod_small, Nat.div_small by lia.
      destruct (Nat.eqb_spec i 4); [lia|].
      f_equal. lia.
    + rewrite Hb in *.
      destruct (List.map (fun i => PyStr.slice i (i + 4) s)
                  (List.map (fun j => 4 * j) (seq 0 k))
                ++ [substring (4 * k) 4 s])%list as [|b bs] eqn:E;
        [apply app_eq_nil in E; destruct E; discriminate|].
      set (joined := PyStr.join " " (b :: bs)) in *.
      split.
      * rewrite !length_append, IHl, Hx. cbn [String.length]. lia.
      * intros i Hi.
        destruct (Nat.lt_ge_cases i (5 * Datatypes.S k - 1)) as [Hlt|Hge].
        -- rewrite <- append_correct1 by (rewrite IHl; exact Hlt).
           apply IHg. exact Hlt.
        -- assert (Hi' : i = (i - (5 * Datatypes.S k - 1))
                             + String.length joined) by (rewrite IHl; lia).
           rewrite Hi' at 1. rewrite <- append_correct2.
           destruct (i - (5 * Datatypes.S k - 1)) as [|p] eqn:Hp.
           ++ assert (Hi4 : i = 4 + k * 5) by lia.
              destruct (position_in_block k 4 ltac:(lia)) as (Hm & _).
              rewrite Hi4, Hm. reflexivity.
           ++ change (String.get (Datatypes.S p) (" " ++ ?x))
                with (String.get p x).
              rewrite Hgx by lia.
              assert (Hi5 : i = p + Datatypes.S k * 5) by lia.
              destruct (position_in_block (Datatypes.S k) p ltac:(lia))
                as (Hm & Hd).
              rewrite Hi5, Hm, Hd.
              destruct (Nat.eqb_spec p 4); [lia|].
              f_equal. lia.
Qed.

(** The same when the last block is shorter. *)
Lemma get_blocks_to_the_end (s : string) (i : nat) :
  let n := String.length s in
  let joined :=
    PyStr.join " "
      (List.map (fun i => PyStr.slice i (i + 4) s) (PyStr.range_step n 4)) in
  1 <= n ->
  i < n + (n - 1) / 4 ->
  String.get i joined
  = if i mod 5 =? 4 then Some " "%char else String.get (i - i / 5) s.
Proof.
  intros n joined Hn Hi. subst joined. unfold PyStr.range_step.
  replace (4 - 1) with 3 by reflexivity.
  pose proof (Nat.div_mod_eq (n - 1) 4) as Hdm.
  pose proof (Nat.mod_upper_bound (n - 1) 4 ltac:(lia)) as Hmod.
  assert (Hk : (n + 3) / 4 = Datatypes.S ((n - 1) / 4)).
  { replace (n + 3) with (n - 1 + 1 * 4) by lia.
    rewrite Nat.div_add by lia. lia. }
  rewrite Hk. clear Hk. remember ((n - 1) / 4) as k eqn:Ek. clear Ek.
  destruct (get_blocks_of_four s k) as (Hl & Hg); [fold n; lia|].
  cbn zeta in Hl, Hg.
  assert (Hb :
             List.map (fun i => PyStr.slice i (i + 4) s)
                      (List.map (fun j => 4 * j) (seq 0 (Datatypes.S k)))
             = (List.map (fun i => PyStr.slice i (i + 4) s)
                         (List.map (fun j => 4 * j) (seq 0 k))
                ++ [substring (4 * k) 4 s])%list).
  { rewrite seq_S, !map_app. cbn [List.map].
    unfold PyStr.slice. rewrite Nat.add_0_l.
    replace (4 * k + 4 - 4 * k) with 4 by lia. reflexivity. }
  assert (Hgx : forall p, p < 4 ->
             String.get p (substring (4 * k) 4 s)
             = String.get (p + 4 * k) s)
    by (intros p Hp; apply substring_correct1; exact Hp).
  rewrite Hb, join_snoc.
  destruct k as [|k].
  - cbn [seq List.map]. rewrite Hgx by lia.
    rewrite Nat.mod_small, Nat.div_small by lia.
    destruct (Nat.eqb_spec i 4); [lia|]. f_equal. lia.
  - rewrite seq_S, !map_app in Hl, Hg |- *. cbn [List.map] in Hl, Hg |- *.
    destruct (List.map (fun i => PyStr.slice i (i + 4) s)
                (List.map (fun j => 4 * j) (seq 0 k))
              ++ [PyStr.slice (4 * (0 + k)) (4 * (0 + k) + 4) s])%list
      as [|b bs] eqn:E;
      [apply app_eq_nil in E; destruct E; discriminate|].
    set (joined := PyStr.join " " (b :: bs)) in *.
    destruct (Nat.lt_ge_cases i (5 * Datatypes.S k - 1)) as [Hlt|Hge].
    + rewrite <- append_correct1 by (rewrite Hl; exact Hlt).
      apply Hg. exact Hlt.
    + assert (Hi' : i = (i - (5 * Datatypes.S k - 1))
                        + String.length joined) by (rewrite Hl; lia).
      rewrite Hi' at 1. rewrite <- append_correct2.
      destruct (i - (5 * Datatypes.S k - 1)) as [|p] eqn:Hp.
      * assert (Hi4 : i = 4 + k * 5) by lia.
        destruct (position_in_block k 4 ltac:(lia)) as (Hm & _).
        rewrite Hi4, Hm. reflexivity.
      * change (String.get (Datatypes.S p) (" " ++ ?x))
          with (String.get p x).
        rewrite Hgx by lia.
        assert (Hi5 : i = p + Datatypes.S k * 5) by lia.
        destruct (position_in_block (Datatypes.S k) p ltac:(lia))
          as (Hm & Hd).
        rewrite Hi5, Hm, Hd.
        destruct (Nat.eqb_spec p 4); [lia|].
        f_equal. lia.
Qed.

Section MaskAnyLength.

Variable fernet_decrypt : bytes -> option bytes.
Variable urlsafe_b64decode : bytes -> option bytes.
Variable decode : bytes -> option string.

(** For a text with [n >= 4] digits the masked form shows [n - 4]
    asterisks and then the last four digits, with one space after every
    fourth character: [n + (n - 1) / 4] characters, of which the only
    digits are those four. *)
Lemma mask_card_number_blocks (card_number text : string) :
  let digits := PyStr.filter PyStr.isdigit text in
  let n := String.length digits in
  let masked :=
    EncryptionService.mask_card_number
      fernet_decrypt urlsafe_b64decode decode card_number in
  EncryptionService.mask_source
    fernet_decrypt urlsafe_b64decode decode card_number = Ok text ->
  4 <= n ->
  PyStr.filter PyStr.isdigit masked = PyStr.last_n 4 digits
  /\ PyStr.filter (fun c => negb (Ascii.eqb c " ")) masked
     = PyStr.repeat "*" (n - 4) ++ PyStr.last_n 4 digits
  /\ String.length masked = n + (n - 1) / 4.
Proof.
  intros digits n masked Hsrc Hn. subst masked.
  unfold EncryptionService.mask_card_number. rewrite Hsrc. fold digits. fold n.
  destruct (Nat.ltb_spec n 4); [lia|].
  assert (Hlast : String.length (PyStr.last_n 4 digits) = 4)
    by (apply length_substring; fold n; lia).
  assert (Hdig : PyStr.filter PyStr.isdigit (PyStr.last_n 4 digits)
                 = PyStr.last_n 4 digits).
  { apply filter_all_chars, all_chars_substring, all_chars_filter. }
  set (m := PyStr.repeat "*" (n - 4) ++ PyStr.last_n 4 digits).
  assert (Hm : String.length m = n).
  { unfold m. rewrite length_append, length_repeat, Hlast. lia. }
  unfold PyStr.range_step. rewrite Hm.
  replace (4 - 1) with 3 by reflexivity.
  destruct (blocks_of_four m ((n + 3) / 4)) as [Hf Hl]. cbn zeta in Hf, Hl.
  assert (Hk : n <= 4 * ((n + 3) / 4)).
  { pose proof (Nat.div_mod_eq (n + 3) 4).
    pose proof (Nat.mod_upper_bound (n + 3) 4). lia. }
  rewrite (substring_whole m) in Hf, Hl by lia.
  split; [|split].
  - rewrite Hf by reflexivity. unfold m.
    rewrite filter_app, filter_repeat_other, Hdig by reflexivity. reflexivity.
  - rewrite Hf by reflexivity. unfold m. rewrite filter_app.
    rewrite filter_repeat_same by reflexivity. f_equal.
    apply filter_all_chars.
    assert (Hd : all_chars PyStr.isdigit (PyStr.last_n 4 digits) = true)
      by apply all_chars_substring, all_chars_filter.
    revert Hd. generalize (PyStr.last_n 4 digits) as t.
    induction t as [|c t IH]; cbn; [reflexivity|].
    intros H1. apply andb_prop in H1. destruct H1 as [Hc Ht].
    rewrite (IH Ht), andb_true_r.
    destruct (Ascii.eqb_spec c " "); [subst c; discriminate Hc|reflexivity].
  - rewrite Hl, Hm.
    pose proof (Nat.div_mod_eq (n + 3) 4).
    pose proof (Nat.mod_upper_bound (n + 3) 4).
    pose proof (Nat.div_mod_eq (n - 1) 4).
    pose proof (Nat.mod_upper_bound (n - 1) 4).
    assert ((n + 3) / 4 = (n - 1) / 4 + 1).
    { replace (n + 3) with (n - 1 + 1 * 4) by lia.
      rewrite Nat.div_add by lia. reflexivity. }
    lia.
Qed.

(** Whatever the argument, and whatever the libraries make of it, the
    masked form holds at most four digits. *)
Lemma mask_card_number_at_most_four_digits (card_number : string) :
  String.length
    (PyStr.filter PyStr.isdigit
       (EncryptionService.mask_card_number
          fernet_decrypt urlsafe_b64decode decode card_number)) <= 4.
Proof.
  destruct (EncryptionService.mask_source
              fernet_decrypt urlsafe_b64decode decode card_number)
    as [text|e] eqn:Hsrc.
  - destruct (Nat.ltb_spec
                (String.length (PyStr.filter PyStr.isdigit text)) 4) as [Hlt|Hge].
    + unfold EncryptionService.mask_card_number. rewrite Hsrc.
      destruct (Nat.ltb_spec
                  (String.length (PyStr.filter PyStr.isdigit text)) 4); [|lia].
      rewrite filter_repeat_other by reflexivity. cbn. lia.
    + destruct (mask_card_number_blocks card_number text Hsrc Hge)
        as (-> & _).
      unfold PyStr.last_n. rewrite length_substring; lia.
  - unfold EncryptionService.mask_card_number. rewrite Hsrc.
    vm_compute. lia.
Qed.

(** Where the characters of the masked form stand. *)
Lemma mask_card_number_positions (card_number text : string) (i : nat) :
  let digits := PyStr.filter PyStr.isdigit text in
  let n := String.length digits in
  let masked :=
    EncryptionService.mask_card_number
      fernet_decrypt urlsafe_b64decode decode card_number in
  EncryptionService.mask_source
    fernet_decrypt urlsafe_b64decode decode card_number = Ok text ->
  4 <= n ->
  i < String.length masked ->
  String.get i masked
  = if i mod 5 =? 4 then Some " "%char
    else String.get (i - i / 5)
           (PyStr.repeat "*" (n - 4) ++ PyStr.last_n 4 digits).
Proof.
  intros digits n masked Hsrc Hn.
  destruct (mask_card_number_blocks card_number text Hsrc Hn)
    as (_ & _ & Hlen).
  fold digits in Hlen. fold n in Hlen. fold masked in Hlen. rewrite Hlen.
  subst masked.
  unfold EncryptionService.mask_card_number. rewrite Hsrc. fold digits. fold n.
  destruct (Nat.ltb_spec n 4); [lia|].
  assert (Hlast : String.length (PyStr.last_n 4 digits) = 4)
    by (apply length_substring; fold n; lia).
  set (m := PyStr.repeat "*" (n - 4) ++ PyStr.last_n 4 digits).
  assert (Hm : String.length m = n).
  { unfold m. rewrite length_append, length_repeat, Hlast. lia. }
  intros Hi. rewrite <- Hm in Hi.
  apply get_blocks_to_the_end; lia.
Qed.

Lemma mask_source_cases (card_number text : string) :
  String.length card_number <= 20 /\ text = card_number
  \/ 20 < String.length card_number
     /\ EncryptionService.decrypt_card_number
          fernet_decrypt urlsafe_b64decode decode card_number = Ok text ->
  EncryptionService.mask_source
    fernet_decrypt urlsafe_b64decode decode card_number = Ok text.
Proof.
  unfold EncryptionService.mask_source.
  intros [(Hlen & ->) | (Hlen & Hdec)];
    destruct (Nat.ltb_spec 20 (String.length card_number)); try lia;
    [reflexivity|exact Hdec].
Qed.

(** X1: the masked form never holds more than four digits, whatever the
    argument and whatever the libraries do.  When the text being masked
    (the argument itself when it has at most 20 characters, what
    [decrypt_card_number] returns for it when it is longer) has [n >= 4]
    digits, the masked form is [n - 4] asterisks followed by the last
    four digits, cut into blocks of four with one space between two
    blocks: [n + (n - 1) / 4] characters in all, of which those at the
    positions 4, 9, 14, ... are spaces and the others are, in order, the
    asterisks and the four digits. *)
Theorem mask_card_number_shows_last_four (card_number text : string) :
  let digits := PyStr.filter PyStr.isdigit text in
  let n := String.length digits in
  let masked :=
    EncryptionService.mask_card_number
      fernet_decrypt urlsafe_b64decode decode card_number in
  String.length (PyStr.filter PyStr.isdigit masked) <= 4
  /\ (String.length card_number <= 20 /\ text = card_number
      \/ 20 < String.length card_number
         /\ EncryptionService.decrypt_card_number
              fernet_decrypt urlsafe_b64decode decode card_number = Ok text ->
      4 <= n ->
      PyStr.filter PyStr.isdigit masked = PyStr.last_n 4 digits
      /\ PyStr.filter (fun c => negb (Ascii.eqb c " ")) masked
         = PyStr.repeat "*" (n - 4) ++ PyStr.last_n 4 digits
      /\ String.length masked = n + (n - 1) / 4
      /\ forall i,
           i < String.length masked ->
           String.get i masked
           = if i mod 5 =? 4 then Some " "%char
             else String.get (i - i / 5)
                    (PyStr.repeat "*" (n - 4) ++ PyStr.last_n 4 digits)).
Proof.
  split.
  - apply mask_card_number_at_most_four_digits.
  - intros Hsrc Hn. apply mask_source_cases in Hsrc.
    destruct (mask_card_number_blocks card_number text Hsrc Hn)
      as (H1 & H2 & H3).
    split; [exact H1|]. split; [exact H2|]. split; [exact H3|].
    intros i Hi. apply mask_card_number_positions; assumption.
Qed.

End MaskAnyLength.

Lemma mask_card_number_shows_last_four_witness :
  PyStr.filter PyStr.isdigit
    (EncryptionService.mask_card_number
       Fixture.fernet_decrypt Fixture.urlsafe_b64decode Fixture.decode
       "3782 822463 10005")
  = "0005"
  /\ String.length
       (EncryptionService.mask_card_number
          Fixture.fernet_decrypt Fixture.urlsafe_b64decode Fixture.decode
          "3782 822463 10005") = 18
  /\ String.get 14
       (EncryptionService.mask_card_number
          Fixture.fernet_decrypt Fixture.urlsafe_b64decode Fixture.decode
          "3782 822463 10005") = Some " "%char.
Proof.
  destruct (proj2 (mask_card_number_shows_last_four
                     Fixture.fernet_decrypt Fixture.urlsafe_b64decode
                     Fixture.decode "3782 822463 10005" "3782 822463 10005"))
    as (H1 & _ & H3 & H4).
  - left. split; [vm_compute; lia|reflexivity].
  - vm_compute. lia.
  - split; [exact H1|]. split; [exact H3|].
    rewrite (H4 14); [reflexivity|]. rewrite H3. vm_compute. lia.
Defined.


(** ** Encryption service: what [decrypt] gives back *)

Lemma encode_ascii (s : string) :
  all_chars (fun c => PyStr.code c <? 128) s = true -> PyStr.encode s = s.
Proof.
  induction s as [|c r IH]; [reflexivity|].
  cbn [all_chars PyStr.encode]. intros H.
  apply andb_prop in H. destruct H as [Hc Hr].
  rewrite Hc, (IH Hr). reflexivity.
Qed.

Lemma sextet_ascii (n : nat) : (PyStr.code (Base64.sextet n) <? 128) = true.
Proof.
  unfold Base64.sextet.
  assert (Hk : n mod 64 < 64) by (apply Nat.mod_upper_bound; lia).
  revert Hk. generalize (n mod 64) as k. intros k Hk.
  do 64 (destruct k as [|k]; [reflexivity|]). lia.
Qed.

Lemma urlsafe_b64encode_ascii (b : bytes) :
  all_chars (fun c => PyStr.code c <? 128) (Base64.urlsafe_b64encode b) = true.
Proof.
  induction b as [| x | x y | x y z r IH] using string_ind3;
    cbn [Base64.urlsafe_b64encode all_chars];
    rewrite ?sextet_ascii; try reflexivity.
  exact IH.
Qed.

Lemma urlsafe_b64encode_not_empty (b : bytes) :
  b <> "" -> EncryptionService.is_empty (Base64.urlsafe_b64encode b) = false.
Proof.
  destruct b as [|x [|y [|z r]]]; [congruence| | |]; reflexivity.
Qed.

Lemma is_empty_false (s : string) :
  s <> "" -> EncryptionService.is_empty s = false.
Proof. destruct s; [congruence|reflexivity]. Qed.

Section RoundTrip.

Variable fernet_encrypt : bytes -> bytes -> option bytes.
Variable fernet_decrypt : bytes -> option bytes.
Variable urlsafe_b64decode : bytes -> option bytes.
Variable decode : bytes -> option string.

Let encrypt := EncryptionService.encrypt fernet_encrypt.
Let decrypt :=
  EncryptionService.decrypt fernet_decrypt urlsafe_b64decode decode.
Let mask_card_number :=
  EncryptionService.mask_card_number fernet_decrypt urlsafe_b64decode decode.
Let libraries_invert :=
  libraries_invert fernet_encrypt fernet_decrypt urlsafe_b64decode decode.

Lemma decrypt_encrypt (rnd : bytes) (data : string) (token : bytes) :
  data <> "" ->
  libraries_invert rnd data token ->
  encrypt rnd data = Ok (Base64.urlsafe_b64encode token)
  /\ decrypt (Base64.urlsafe_b64encode token) = Ok data.
Proof.
  intros Hne (Henc & Htok & Hb64 & Hdec & Hutf). split.
  - unfold encrypt, EncryptionService.encrypt.
    rewrite (is_empty_false _ Hne), Henc. reflexivity.
  - unfold decrypt, EncryptionService.decrypt.
    rewrite (urlsafe_b64encode_not_empty _ Htok).
    rewrite (encode_ascii _ (urlsafe_b64encode_ascii token)).
    rewrite Hb64, Hdec, Hutf. reflexivity.
Qed.

(** X2: decrypting what [encrypt] returned gives the plaintext back.  The
    empty string goes through both functions unchanged, without any call
    to the libraries; for a non-empty plaintext the equation holds whenever
    the libraries invert what they did to it.  For a card number the text
    that comes back is its digits. *)
Theorem decrypt_inverts_encrypt
  (rnd : bytes) (data card_number : string) (token : bytes) :
  (encrypt rnd "" = Ok "" /\ decrypt "" = Ok "")
  /\ (data <> "" ->
      libraries_invert rnd data token ->
      exists ciphertext,
        encrypt rnd data = Ok ciphertext /\ decrypt ciphertext = Ok data)
  /\ (PyStr.filter PyStr.isdigit card_number <> "" ->
      libraries_invert rnd (PyStr.filter PyStr.isdigit card_number) token ->
      exists ciphertext,
        EncryptionService.encrypt_card_number fernet_encrypt rnd card_number
        = Ok ciphertext
        /\ EncryptionService.decrypt_card_number
             fernet_decrypt urlsafe_b64decode decode ciphertext
           = Ok (PyStr.filter PyStr.isdigit card_number)).
Proof.
  split; [split; reflexivity|]. split.
  - intros Hne Hlib. exists (Base64.urlsafe_b64encode token).
    apply decrypt_encrypt; assumption.
  - intros Hne Hlib. exists (Base64.urlsafe_b64encode token).
    apply (decrypt_encrypt rnd _ token); assumption.
Qed.

(** The stored form of a card number is longer than 20 characters as soon
    as the Fernet token has 16 octets or more. *)
Lemma ciphertext_longer_than_20 (token : bytes) :
  15 < String.length token ->
  20 < String.length (Base64.urlsafe_b64encode token).
Proof.
  intros H. rewrite length_urlsafe_b64encode.
  assert (6 <= (String.length token + 2) / 3).
  { apply Nat.div_le_lower_bound; lia. }
  lia.
Qed.

Lemma filter_idem (f : ascii -> bool) (s : string) :
  PyStr.filter f (PyStr.filter f s) = PyStr.filter f s.
Proof. apply filter_all_chars, all_chars_filter. Qed.

Lemma mask_of_ciphertext
  (rnd : bytes) (card_number ciphertext : string) :
  String.length card_number <= 20 ->
  EncryptionService.encrypt_card_number fernet_encrypt rnd card_number
  = Ok ciphertext ->
  (forall token,
      fernet_encrypt rnd (PyStr.encode (PyStr.filter PyStr.isdigit card_number))
      = Some token ->
      15 < String.length token
      /\ libraries_invert rnd (PyStr.filter PyStr.isdigit card_number) token) ->
  mask_card_number ciphertext = mask_card_number card_number.
Proof.
  intros Hlen Henc Hlib.
  assert (Hplain :
    EncryptionService.mask_source
      fernet_decrypt urlsafe_b64decode decode card_number = Ok card_number).
  { unfold EncryptionService.mask_source.
    destruct (Nat.ltb_spec 20 (String.length card_number)); [lia|reflexivity]. }
  unfold EncryptionService.encrypt_card_number, EncryptionService.encrypt
    in Henc.
  destruct (PyStr.filter PyStr.isdigit card_number) as [|c r] eqn:Hdigits.
  - cbn in Henc. injection Henc as <-.
    unfold mask_card_number, EncryptionService.mask_card_number.
    rewrite Hplain, Hdigits. reflexivity.
  - cbn [EncryptionService.is_empty] in Henc.
    destruct (fernet_encrypt rnd (PyStr.encode (String c r)))
      as [token|] eqn:Htoken; [|discriminate].
    injection Henc as <-.
    destruct (Hlib token eq_refl) as (Hlong & Hinv).
    destruct (decrypt_encrypt rnd (String c r) token) as (_ & Hdec);
      [discriminate|exact Hinv|].
    assert (Hcipher :
      EncryptionService.mask_source
        fernet_decrypt urlsafe_b64decode decode
        (Base64.urlsafe_b64encode token) = Ok (String c r)).
    { unfold EncryptionService.mask_source.
      pose proof (ciphertext_longer_than_20 token Hlong).
      destruct (Nat.ltb_spec 20
                  (String.length (Base64.urlsafe_b64encode token))); [|lia].
      exact Hdec. }
    unfold mask_card_number, EncryptionService.mask_card_number.
    rewrite Hplain, Hcipher, Hdigits, <- Hdigits, filter_idem.
    reflexivity.
Qed.

(** X3: masking the stored form of a card number shows what masking the
    number itself shows.  For a number of at most 20 characters that
    [encrypt_card_number] has encrypted, [mask_card_number] of the
    ciphertext equals [mask_card_number] of the number, whenever the token
    Fernet made has 16 octets or more and the libraries invert what they
    did (no assumption is needed for a number without digits, whose
    ciphertext is the empty string). *)
Theorem mask_card_number_of_ciphertext
  (rnd : bytes) (card_number ciphertext : string) :
  String.length card_number <= 20 ->
  EncryptionService.encrypt_card_number fernet_encrypt rnd card_number
  = Ok ciphertext ->
  (forall token,
      fernet_encrypt rnd (PyStr.encode (PyStr.filter PyStr.isdigit card_number))
      = Some token ->
      15 < String.length token
      /\ libraries_invert rnd (PyStr.filter PyStr.isdigit card_number) token) ->
  mask_card_number ciphertext = mask_card_number card_number.
Proof. apply mask_of_ciphertext. Qed.

End RoundTrip.

Lemma decrypt_inverts_encrypt_witness :
  exists ciphertext,
    EncryptionService.encrypt Loopback.fernet_encrypt "iv"
      ("Jos" ++ String "233"%char "") = Ok ciphertext
    /\ EncryptionService.decrypt
         Loopback.fernet_decrypt Loopback.urlsafe_b64decode Loopback.decode
         ciphertext
       = Ok ("Jos" ++ String "233"%char "").
Proof.
  apply (proj1 (proj2 (decrypt_inverts_encrypt
                         Loopback.fernet_encrypt Loopback.fernet_decrypt
                         Loopback.urlsafe_b64decode Loopback.decode
                         "iv" ("Jos" ++ String "233"%char "") ""
                         (String (ascii_of_nat 128)
                            (Loopback.frame "iv"
                             ++ PyStr.encode ("Jos" ++ String "233"%char "")))))).
  - vm_compute. discriminate.
  - unfold libraries_invert. repeat split; vm_compute; try reflexivity.
    discriminate.
Defined.

Lemma mask_card_number_of_ciphertext_witness :
  EncryptionService.mask_card_number
    Loopback.fernet_decrypt Loopback.urlsafe_b64decode Loopback.decode
    "gGl2MDAwMDAwMDAwMDAwMDAwMDAwMDAwMDQxMTExMTExMTExMTExMTE="
  = EncryptionService.mask_card_number
      Loopback.fernet_decrypt Loopback.urlsafe_b64decode Loopback.decode
      "4111 1111 1111 1111".
Proof.
  apply (mask_card_number_of_ciphertext
           Loopback.fernet_encrypt Loopback.fernet_decrypt
           Loopback.urlsafe_b64decode Loopback.decode "iv").
  - vm_compute. lia.
  - vm_compute. reflexivity.
  - intros token Htoken. vm_compute in Htoken. injection Htoken as <-.
    split; [vm_compute; lia|].
    unfold libraries_invert. repeat split; vm_compute; try reflexivity.
    discriminate.
Defined.

(** ** Card service: the migration of stored card numbers *)

Lemma set_card_number_same (c : CardService.CreditCard) :
  CardService.set_card_number c (CardService.card_number c) = c.
Proof. destruct c; reflexivity. Qed.

Lemma loopback_token_length (rnd data : bytes) :
  exists token,
    Loopback.fernet_encrypt rnd data = Some token
    /\ 15 < String.length token.
Proof.
  eexists. split; [reflexivity|].
  cbn [String.length]. rewrite length_append.
  unfold Loopback.frame. rewrite length_substring.
  - lia.
  - rewrite length_append, length_repeat. lia.
Qed.

Lemma triple_eq {A B C : Type} (a a' : A) (b b' : B) (c c' : C) :
  a = a' -> b = b' -> c = c' -> (a, b, c) = (a', b', c').
Proof. congruence. Qed.

Section Migration.

Variable fernet_encrypt : bytes -> bytes -> option bytes.
Variable fernet_decrypt : bytes -> option bytes.
Variable urlsafe_b64decode : bytes -> option bytes.
Variable decode : bytes -> option string.
Variable rnd : nat -> bytes.

Let encrypt_card_number :=
  EncryptionService.encrypt_card_number fernet_encrypt.
Let encrypt_loop := CardService.encrypt_loop fernet_encrypt rnd.
Let encrypt_existing_card_numbers :=
  CardService.encrypt_existing_card_numbers fernet_encrypt rnd.
Let mask_card_number :=
  CardService.mask_card_number fernet_decrypt urlsafe_b64decode decode.

(** What the loop does to one card, whatever Fernet does. *)
Lemma encrypt_loop_keeps (cards : list CardService.CreditCard) :
  forall calls k cards' calls' k',
    encrypt_loop cards calls k = (cards', calls', k') ->
    Forall2
      (fun c c' =>
         CardService.set_card_number c' (CardService.card_number c) = c
         /\ (looks_unencrypted c = false -> c' = c)
         /\ (c' = c
             \/ looks_unencrypted c = true
                /\ exists i,
                     encrypt_card_number (rnd i) (CardService.card_number c)
                     = Ok (CardService.card_number c')))
      cards cards'
    /\ k <= k' <= k + count looks_unencrypted cards.
Proof.
  unfold encrypt_loop.
  induction cards as [|card rest IH]; intros calls k cards' calls' k' H.
  - cbn in H. injection H as <- <- <-. split; [constructor|cbn; lia].
  - cbn [CardService.encrypt_loop] in H. cbn [count].
    fold (looks_unencrypted card) in H.
    destruct (looks_unencrypted card) eqn:Hplain.
    + destruct (EncryptionService.encrypt_card_number
                  fernet_encrypt (rnd calls) (CardService.card_number card))
        as [ct|e] eqn:Henc.
      * destruct (CardService.encrypt_loop fernet_encrypt rnd rest
                    (calls + 1) (k + 1)) as [[r c] n] eqn:Hrest.
        injection H as <- <- <-.
        destruct (IH _ _ _ _ _ Hrest) as (HF & Hk).
        split; [|lia]. constructor; [|exact HF].
        split; [destruct card; reflexivity|].
        split; [intros Hf; congruence|]. right. split; [exact Hplain|].
        exists calls. exact Henc.
      * destruct (CardService.encrypt_loop fernet_encrypt rnd rest
                    (calls + 1) k) as [[r c] n] eqn:Hrest.
        injection H as <- <- <-.
        destruct (IH _ _ _ _ _ Hrest) as (HF & Hk).
        split; [|lia]. constructor; [|exact HF].
        split; [apply set_card_number_same|]. split; [reflexivity|].
        left. reflexivity.
    + destruct (CardService.encrypt_loop fernet_encrypt rnd rest calls k)
        as [[r c] n] eqn:Hrest.
      injection H as <- <- <-.
      destruct (IH _ _ _ _ _ Hrest) as (HF & Hk).
      split; [|lia]. constructor; [|exact HF].
      split; [apply set_card_number_same|]. split; [reflexivity|].
      left. reflexivity.
Qed.

(** X4: the migration changes nothing but card numbers, and those only of
    the cards whose number has at most 20 characters: the cards keep their
    order and every other field, a card with a longer number is left as it
    is.  It commits only when it has updated a card; when the commit
    raises, the exception is what the call raises and the committed rows
    are as before. *)
Theorem migration_changes_card_numbers_only
  (session : CardService.Session) (calls : nat) :
  let '(r, session', _) := encrypt_existing_card_numbers session calls in
  Forall2
    (fun c c' =>
       CardService.set_card_number c' (CardService.card_number c) = c
       /\ (20 < String.length (CardService.card_number c) -> c' = c))
    (CardService.objects session) (CardService.objects session')
  /\ match r with
     | Ok n =>
         n <= count looks_unencrypted (CardService.objects session)
         /\ CardService.stored session'
            = (if 0 <? n then CardService.objects session'
               else CardService.stored session)
     | Raise e =>
         CardService.commit_error session = Some e
         /\ CardService.stored session' = CardService.stored session
     end.
Proof.
  unfold encrypt_existing_card_numbers,
    CardService.encrypt_existing_card_numbers.
  destruct (CardService.encrypt_loop fernet_encrypt rnd
              (CardService.objects session) calls 0)
    as [[cards calls'] n] eqn:Hloop.
  destruct (encrypt_loop_keeps _ _ _ _ _ _ Hloop) as (HF & Hn).
  assert (HF' :
    Forall2
      (fun c c' =>
         CardService.set_card_number c' (CardService.card_number c) = c
         /\ (20 < String.length (CardService.card_number c) -> c' = c))
      (CardService.objects session) cards).
  { eapply Forall2_impl; [exact HF|].
    intros c c' (H1 & H2 & _). split; [exact H1|].
    intros Hlong. apply H2. unfold looks_unencrypted.
    apply Nat.leb_gt. exact Hlong. }
  destruct (0 <? n) eqn:Hpos.
  - destruct (CardService.commit_error session) as [e|] eqn:Hc;
      cbn [CardService.objects CardService.stored].
    + split; [exact HF'|]. split; reflexivity.
    + split; [exact HF'|]. rewrite Hpos. split; [lia|reflexivity].
  - cbn [CardService.objects CardService.stored].
    split; [exact HF'|]. rewrite Hpos. split; [lia|reflexivity].
Qed.

(** From here on Fernet is taken never to refuse a message and to make
    tokens of 16 octets or more. *)
Lemma encrypt_loop_first_run
  (Hfernet : forall r data, exists token,
      fernet_encrypt r data = Some token /\ 15 < String.length token)
  (cards : list CardService.CreditCard) :
  forall calls k,
  exists cards',
    encrypt_loop cards calls k
    = (cards', calls + count looks_unencrypted cards,
       k + count looks_unencrypted cards)
    /\ Forall (fun c' => CardService.card_number c' = ""
                         \/ 20 < String.length (CardService.card_number c'))
         cards'
    /\ count (fun c' => EncryptionService.is_empty (CardService.card_number c'))
         cards'
       = count (fun c => looks_unencrypted c && without_digits c) cards.
Proof.
  unfold encrypt_loop.
  induction cards as [|card rest IH]; intros calls k.
  - exists []. cbn. rewrite !Nat.add_0_r. repeat split. constructor.
  - cbn [CardService.encrypt_loop count].
    fold (looks_unencrypted card).
    destruct (looks_unencrypted card) eqn:Hplain.
    + unfold EncryptionService.encrypt_card_number, EncryptionService.encrypt.
      unfold without_digits.
      destruct (PyStr.filter PyStr.isdigit (CardService.card_number card))
        as [|d ds] eqn:Hdigits.
      * cbn [EncryptionService.is_empty andb].
        destruct (IH (calls + 1) (k + 1)) as (cards' & -> & HF & Hc).
        eexists. split; [apply triple_eq; [reflexivity|lia|lia]|].
        split; [constructor; [left; reflexivity|exact HF]|].
        cbn [count CardService.card_number CardService.set_card_number
             EncryptionService.is_empty]. rewrite Hc. reflexivity.
      * cbn [EncryptionService.is_empty andb].
        destruct (Hfernet (rnd calls) (PyStr.encode (String d ds)))
          as (token & -> & Hlong).
        destruct (IH (calls + 1) (k + 1)) as (cards' & -> & HF & Hc).
        eexists. split; [apply triple_eq; [reflexivity|lia|lia]|].
        pose proof (ciphertext_longer_than_20 token Hlong) as Hct.
        split; [constructor; [right; exact Hct|exact HF]|].
        cbn [count CardService.card_number CardService.set_card_number].
        rewrite Hc.
        destruct (Base64.urlsafe_b64encode token); [cbn in Hct; lia|].
        reflexivity.
    + destruct (IH calls k) as (cards' & -> & HF & Hc).
      eexists. split; [apply triple_eq; [reflexivity|lia|lia]|].
      unfold looks_unencrypted in Hplain. apply Nat.leb_gt in Hplain.
      split; [constructor; [right; exact Hplain|exact HF]|].
      cbn [count andb]. rewrite Hc.
      destruct (CardService.card_number card); [cbn in Hplain; lia|].
      reflexivity.
Qed.

Lemma encrypt_loop_second_run (cards : list CardService.CreditCard) :
  Forall (fun c => CardService.card_number c = ""
                   \/ 20 < String.length (CardService.card_number c)) cards ->
  forall calls k,
    let m :=
      count (fun c => EncryptionService.is_empty (CardService.card_number c))
        cards in
    encrypt_loop cards calls k = (cards, calls + m, k + m).
Proof.
  unfold encrypt_loop.
  induction 1 as [|card rest Hcard _ IH]; intros calls k.
  - cbn. rewrite !Nat.add_0_r. reflexivity.
  - cbn [CardService.encrypt_loop count].
    destruct Hcard as [Hempty|Hlong].
    + rewrite Hempty. cbn. rewrite IH.
      rewrite <- Hempty, set_card_number_same.
      apply triple_eq; [reflexivity|lia|lia].
    + destruct (Nat.leb_spec
                  (String.length (CardService.card_number card)) 20); [lia|].
      rewrite IH.
      destruct (CardService.card_number card); [cbn in Hlong; lia|].
      cbn [EncryptionService.is_empty]. apply triple_eq; [reflexivity|lia|lia].
Qed.

(** X5: run on cards with plain numbers, the migration updates exactly the
    cards whose number has at most 20 characters; afterwards every number
    is longer than 20 characters or empty.  Run again, it changes no card:
    it reports the cards whose number had no digit (their stored number is
    the empty string, which it encrypts again into the empty string), and
    when there is no such card it returns 0 and leaves the session as it
    is. *)
Theorem migration_run_twice
  (session : CardService.Session) (calls : nat) :
  (forall r data, exists token,
      fernet_encrypt r data = Some token /\ 15 < String.length token) ->
  CardService.commit_error session = None ->
  let n := count looks_unencrypted (CardService.objects session) in
  let m := count (fun c => looks_unencrypted c && without_digits c)
             (CardService.objects session) in
  exists session' session'',
    encrypt_existing_card_numbers session calls
    = (Ok n, session', calls + n)
    /\ Forall (fun c => CardService.card_number c = ""
                        \/ 20 < String.length (CardService.card_number c))
         (CardService.objects session')
    /\ encrypt_existing_card_numbers session' (calls + n)
       = (Ok m, session'', calls + n + m)
    /\ CardService.objects session'' = CardService.objects session'
    /\ (m = 0 -> session'' = session').
Proof.
  intros Hfernet Hcommit n m.
  destruct (encrypt_loop_first_run Hfernet (CardService.objects session)
              calls 0) as (cards' & Hloop & Hpost & Hcount).
  unfold encrypt_existing_card_numbers,
    CardService.encrypt_existing_card_numbers.
  unfold encrypt_loop in Hloop. rewrite Hloop, Hcommit.
  fold n in Hloop |- *. cbn [Nat.add].
  pose proof (encrypt_loop_second_run cards' Hpost (calls + n) 0) as Hsecond.
  cbv zeta in Hsecond. rewrite Hcount in Hsecond. fold m in Hsecond.
  unfold encrypt_loop in Hsecond.
  destruct (0 <? n) eqn:Hn; destruct (0 <? m) eqn:Hm;
    (eexists; eexists; split; [reflexivity|];
     cbn [CardService.objects CardService.stored CardService.commit_error];
     split; [exact Hpost|]; rewrite Hsecond; cbn [Nat.add]; rewrite ?Hm;
     split; [reflexivity|]; split; [reflexivity|]);
    try (apply Nat.ltb_lt in Hm; lia).
  - reflexivity.
  - intros _. destruct session; reflexivity.
Qed.

Lemma Forall2_impl_in {A B : Type} (R Q : A -> B -> Prop) (l : list A) :
  forall l',
    Forall2 R l l' ->
    (forall a b, In a l -> R a b -> Q a b) ->
    Forall2 Q l l'.
Proof.
  induction l as [|a l IH]; intros l' HF HRQ; inversion HF; subst.
  - constructor.
  - constructor.
    + apply HRQ; [left; reflexivity|assumption].
    + apply IH; [assumption|].
      intros a' b' Hin. apply HRQ. right. exact Hin.
Qed.

(** X6: the migration does not change what the API shows of a card.  When
    the libraries invert what they do to the digits of the cards of the
    session, and Fernet tokens have 16 octets or more, every card has the
    same masked number after the migration as before. *)
Theorem migration_keeps_masked_numbers
  (session : CardService.Session) (calls : nat) :
  (forall i card token,
      In card (CardService.objects session) ->
      looks_unencrypted card = true ->
      fernet_encrypt (rnd i)
        (PyStr.encode
           (PyStr.filter PyStr.isdigit (CardService.card_number card)))
      = Some token ->
      15 < String.length token
      /\ libraries_invert fernet_encrypt fernet_decrypt urlsafe_b64decode
           decode (rnd i)
           (PyStr.filter PyStr.isdigit (CardService.card_number card))
           token) ->
  let '(_, session', _) := encrypt_existing_card_numbers session calls in
  Forall2
    (fun c c' =>
       mask_card_number (CardService.card_number c')
       = mask_card_number (CardService.card_number c))
    (CardService.objects session) (CardService.objects session').
Proof.
  intros Hlib.
  unfold encrypt_existing_card_numbers,
    CardService.encrypt_existing_card_numbers.
  destruct (CardService.encrypt_loop fernet_encrypt rnd
              (CardService.objects session) calls 0)
    as [[cards calls'] n] eqn:Hloop.
  destruct (encrypt_loop_keeps _ _ _ _ _ _ Hloop) as (HF & _).
  assert (HF' :
    Forall2
      (fun c c' =>
         mask_card_number (CardService.card_number c')
         = mask_card_number (CardService.card_number c))
      (CardService.objects session) cards).
  { eapply Forall2_impl_in; [exact HF|].
    intros c c' Hin (_ & _ & [->|(Hplain & i & Henc)]); [reflexivity|].
    unfold mask_card_number, CardService.mask_card_number.
    apply (mask_of_ciphertext fernet_encrypt fernet_decrypt
             urlsafe_b64decode decode (rnd i)).
    - unfold looks_unencrypted in Hplain. apply Nat.leb_le. exact Hplain.
    - exact Henc.
    - intros token Htoken. exact (Hlib i c token Hin Hplain Htoken). }
  destruct (0 <? n); [destruct (CardService.commit_error session)|];
    exact HF'.
Qed.

End Migration.

Lemma migration_run_twice_witness :
  exists session' session'',
    CardService.encrypt_existing_card_numbers
      Loopback.fernet_encrypt CardFixture.rnd CardFixture.session 0
    = (Ok 2, session', 2)
    /\ CardService.encrypt_existing_card_numbers
         Loopback.fernet_encrypt CardFixture.rnd session' 2
       = (Ok 1, session'', 3)
    /\ CardService.objects session'' = CardService.objects session'.
Proof.
  destruct (migration_run_twice
              Loopback.fernet_encrypt CardFixture.rnd CardFixture.session 0
              loopback_token_length eq_refl)
    as (s' & s'' & H1 & _ & H2 & H3 & _).
  exists s', s''. repeat split; assumption.
Defined.

Lemma migration_keeps_masked_numbers_witness :
  Forall2
    (fun c c' =>
       CardService.mask_card_number
         Loopback.fernet_decrypt Loopback.urlsafe_b64decode Loopback.decode
         (CardService.card_number c')
       = CardService.mask_card_number
           Loopback.fernet_decrypt Loopback.urlsafe_b64decode Loopback.decode
           (CardService.card_number c))
    CardFixture.cards
    (CardService.objects
       (snd (fst (CardService.encrypt_existing_card_numbers
                    Loopback.fernet_encrypt CardFixture.rnd
                    CardFixture.session 0)))).
Proof.
  pose proof (migration_keeps_masked_numbers
                Loopback.fernet_encrypt Loopback.fernet_decrypt
                Loopback.urlsafe_b64decode Loopback.decode CardFixture.rnd
                CardFixture.session 0) as H.
  destruct (CardService.encrypt_existing_card_numbers
              Loopback.fernet_encrypt CardFixture.rnd CardFixture.session 0)
    as [[r s'] c].
  apply H. clear H.
  intros i card token [<-|[<-|[<-|[]]]] Hplain Htoken;
    vm_compute in Hplain; try discriminate Hplain;
    vm_compute in Htoken; injection Htoken as <-;
    (split; [vm_compute; lia|]);
    unfold libraries_invert; repeat split; vm_compute; try reflexivity;
    discriminate.
Defined.

(** ** Sanitising: what the result can hold *)

Lemma all_chars_append (f : ascii -> bool) (s t : string) :
  all_chars f (s ++ t) = all_chars f s && all_chars f t.
Proof.
  induction s as [|c r IH]; [reflexivity|].
  change (f c && all_chars f (r ++ t) = f c && all_chars f r && all_chars f t).
  rewrite IH. apply andb_assoc.
Qed.

Lemma all_chars_impl (f g : ascii -> bool) (s : string) :
  (forall c, f c = true -> g c = true) ->
  all_chars f s = true -> all_chars g s = true.
Proof.
  intros Hfg. induction s as [|c r IH]; [reflexivity|].
  cbn [all_chars]. intros H. apply andb_prop in H. destruct H as [Hc Hr].
  rewrite (Hfg c Hc), (IH Hr). reflexivity.
Qed.

Lemma prefix_char (a c : ascii) (r : string) :
  String.prefix (String a "") (String c r) = Ascii.eqb a c.
Proof.
  cbn [String.prefix]. rewrite prefix_nil.
  destruct (Ascii.eqb_spec a c) as [->|Hne].
  - destruct (ascii_dec c c); [reflexivity|congruence].
  - destruct (ascii_dec a c); [congruence|reflexivity].
Qed.

Lemma substring_tail (c : ascii) (r : string) :
  substring 1 (String.length (String c r) - 1) (String c r) = r.
Proof.
  cbn [String.length substring Nat.sub]. rewrite Nat.sub_0_r.
  apply substring_whole. lia.
Qed.

(** Replacing one character by a text: what every character of the text
    satisfies, and every other character of the string, the result
    satisfies. *)
Lemma replace_fuel_char (f : ascii -> bool) (a : ascii) (new : string) :
  all_chars f new = true ->
  forall fuel s,
    String.length s <= fuel ->
    all_chars (fun c => Ascii.eqb a c || f c) s = true ->
    all_chars f (PyStr.replace_fuel fuel (String a "") new s) = true.
Proof.
  intros Hnew. induction fuel as [|fuel IH]; intros s Hlen Hs.
  - destruct s as [|c r]; [reflexivity|cbn in Hlen; lia].
  - destruct s as [|c r]; [reflexivity|].
    cbn [PyStr.replace_fuel]. rewrite prefix_char.
    cbn [all_chars] in Hs. apply andb_prop in Hs. destruct Hs as [Hc Hr].
    cbn [String.length] in Hlen.
    destruct (Ascii.eqb a c) eqn:Hac.
    + change (String.length (String a "")) with 1.
      rewrite substring_tail, all_chars_append, Hnew.
      apply IH; [lia|exact Hr].
    + cbn [orb] in Hc. cbn [all_chars]. rewrite Hc.
      apply IH; [lia|exact Hr].
Qed.

Lemma replace_char (f : ascii -> bool) (a : ascii) (new s : string) :
  all_chars f new = true ->
  all_chars (fun c => Ascii.eqb a c || f c) s = true ->
  all_chars f (PyStr.replace (String a "") new s) = true.
Proof.
  intros Hnew Hs. apply replace_fuel_char; [exact Hnew|lia|exact Hs].
Qed.

Lemma all_chars_lstrip (f : ascii -> bool) (s : string) :
  all_chars f s = true -> all_chars f (PyStr.lstrip s) = true.
Proof.
  induction s as [|c r IH]; [reflexivity|].
  intros H. cbn [PyStr.lstrip]. destruct (PyStr.isspace c); [|exact H].
  cbn [all_chars] in H. apply andb_prop in H. apply IH, H.
Qed.

Lemma all_chars_rstrip (f : ascii -> bool) (s : string) :
  all_chars f s = true -> all_chars f (PyStr.rstrip s) = true.
Proof.
  induction s as [|c r IH]; [reflexivity|].
  intros H. cbn [all_chars] in H. apply andb_prop in H. destruct H as [Hc Hr].
  cbn [PyStr.rstrip]. specialize (IH Hr).
  destruct (PyStr.rstrip r) as [|c' r'].
  - destruct (PyStr.isspace c); [reflexivity|]. cbn. rewrite Hc. reflexivity.
  - cbn [all_chars]. rewrite Hc. exact IH.
Qed.

Lemma escape_special_free_of_markup (s : string) :
  all_chars (fun c => negb (markup c)) (EncryptionService.escape_special s)
  = true.
Proof.
  unfold EncryptionService.escape_special.
  set (s1 := PyStr.replace "<" "&lt;" s).
  assert (H1 : all_chars (fun c => negb (Ascii.eqb c "<")) s1 = true).
  { apply replace_char; [reflexivity|].
    apply (all_chars_impl (fun _ => true)).
    - intros c _. rewrite (Ascii.eqb_sym "<"%char c).
      destruct (Ascii.eqb c "<"); reflexivity.
    - clear. induction s; [reflexivity|assumption]. }
  set (s2 := PyStr.replace ">" "&gt;" s1).
  assert (H2 : all_chars
                 (fun c => negb (Ascii.eqb c "<" || Ascii.eqb c ">")) s2 = true).
  { apply replace_char; [reflexivity|].
    revert H1. apply all_chars_impl. intros c Hc.
    rewrite (Ascii.eqb_sym ">"%char c).
    destruct (Ascii.eqb c "<"), (Ascii.eqb c ">"); auto. }
  set (s3 := PyStr.replace EncryptionService.double_quote "&quot;" s2).
  assert (H3 : all_chars
                 (fun c => negb (Ascii.eqb c "<" || Ascii.eqb c ">"
                                 || Ascii.eqb c "034")) s3 = true).
  { apply replace_char; [reflexivity|].
    revert H2. apply all_chars_impl. intros c Hc.
    rewrite (Ascii.eqb_sym "034"%char c).
    destruct (Ascii.eqb c "<"), (Ascii.eqb c ">"), (Ascii.eqb c "034"); auto. }
  set (s4 := PyStr.replace "'" "&#x27;" s3).
  assert (H4 : all_chars (fun c => negb (markup c)) s4 = true).
  { apply replace_char; [reflexivity|].
    revert H3. apply all_chars_impl. intros c Hc. unfold markup.
    rewrite (Ascii.eqb_sym "'"%char c).
    destruct (Ascii.eqb c "<"), (Ascii.eqb c ">"), (Ascii.eqb c "034"),
      (Ascii.eqb c "'"); auto. }
  apply replace_char; [reflexivity|].
  revert H4. apply all_chars_impl. intros c Hc. rewrite Hc. apply orb_true_r.
Qed.

Lemma sanitize_input_free_of_markup (s : string) :
  all_chars (fun c => negb (markup c)) (EncryptionService.sanitize_input s)
  = true.
Proof.
  unfold EncryptionService.sanitize_input.
  destruct s as [|c r]; [reflexivity|].
  cbn [EncryptionService.is_empty]. unfold PyStr.strip.
  apply all_chars_rstrip, all_chars_lstrip, escape_special_free_of_markup.
Qed.

Lemma lstrip_head (s : string) :
  PyStr.lstrip s = ""
  \/ exists c r, PyStr.lstrip s = String c r /\ PyStr.isspace c = false.
Proof.
  induction s as [|c r IH]; [left; reflexivity|].
  cbn [PyStr.lstrip]. destruct (PyStr.isspace c) eqn:Hc; [exact IH|].
  right. exists c, r. split; [reflexivity|exact Hc].
Qed.

Lemma rstrip_head (c : ascii) (r : string) :
  PyStr.isspace c = false ->
  exists r', PyStr.rstrip (String c r) = String c r'.
Proof.
  intros Hc. cbn [PyStr.rstrip]. destruct (PyStr.rstrip r) as [|c' r'].
  - rewrite Hc. exists "". reflexivity.
  - exists (String c' r'). reflexivity.
Qed.

Lemma rstrip_idem (s : string) :
  PyStr.rstrip (PyStr.rstrip s) = PyStr.rstrip s.
Proof.
  induction s as [|c r IH]; [reflexivity|].
  cbn [PyStr.rstrip]. destruct (PyStr.rstrip r) as [|c' r'] eqn:Hr.
  - destruct (PyStr.isspace c) eqn:Hc; [reflexivity|].
    cbn [PyStr.rstrip]. rewrite Hc. reflexivity.
  - change (PyStr.rstrip (String c (String c' r')))
      with (match PyStr.rstrip (String c' r') with
            | EmptyString =>
                if PyStr.isspace c then EmptyString else String c EmptyString
            | r'' => String c r''
            end).
    rewrite IH. reflexivity.
Qed.

Lemma strip_idem (s : string) : PyStr.strip (PyStr.strip s) = PyStr.strip s.
Proof.
  unfold PyStr.strip.
  destruct (lstrip_head s) as [->|(c & r & -> & Hc)]; [reflexivity|].
  destruct (rstrip_head c r Hc) as (r' & Hr). rewrite Hr.
  cbn [PyStr.lstrip]. rewrite Hc, <- Hr. apply rstrip_idem.
Qed.

(** X7: whatever the input, the text [sanitize_input] returns holds none
    of the characters <, >, double quote and apostrophe, and neither
    starts nor ends with white space (stripping it again changes
    nothing). *)
Theorem sanitize_input_result (input_data : string) :
  let sanitized := EncryptionService.sanitize_input input_data in
  all_chars (fun c => negb (markup c)) sanitized = true
  /\ PyStr.strip sanitized = sanitized.
Proof.
  split; [apply sanitize_input_free_of_markup|].
  unfold EncryptionService.sanitize_input.
  destruct input_data as [|c r]; [reflexivity|].
  cbn [EncryptionService.is_empty]. apply strip_idem.
Qed.

Lemma replace_fuel_absent (old new : string) :
  forall fuel s,
    PyStr.contains old s = false ->
    PyStr.replace_fuel fuel old new s = s.
Proof.
  induction fuel as [|fuel IH]; intros s H; [reflexivity|].
  destruct s as [|c r]; [reflexivity|].
  cbn [PyStr.replace_fuel]. cbn [PyStr.contains] in H.
  destruct (String.prefix old (String c r)); [discriminate|].
  rewrite (IH r H). reflexivity.
Qed.

Lemma replace_absent (old new s : string) :
  PyStr.contains old s = false -> PyStr.replace old new s = s.
Proof. apply replace_fuel_absent. Qed.

Lemma contains_char_absent (a : ascii) (s : string) :
  all_chars (fun c => negb (Ascii.eqb a c)) s = true ->
  PyStr.contains (String a "") s = false.
Proof.
  induction s as [|c r IH]; [reflexivity|].
  cbn [all_chars]. intros H. apply andb_prop in H. destruct H as [Hc Hr].
  cbn [PyStr.contains]. rewrite prefix_char.
  destruct (Ascii.eqb a c); [discriminate|]. apply IH, Hr.
Qed.

Lemma fold_left_fixed {A B : Type} (f : A -> B -> A) (l : list B) (a : A) :
  Forall (fun b => f a b = a) l -> fold_left f l a = a.
Proof.
  induction 1 as [|b l Hb _ IH]; [reflexivity|].
  cbn [fold_left]. rewrite Hb. exact IH.
Qed.

Lemma escape_special_plain (s : string) :
  all_chars (fun c => negb (special c)) s = true ->
  EncryptionService.escape_special s = s.
Proof.
  intros H. unfold EncryptionService.escape_special.
  assert (Hc : forall a : ascii,
             special a = true -> PyStr.contains (String a "") s = false).
  { intros a Ha. apply contains_char_absent.
    revert H. apply all_chars_impl. intros c Hc.
    destruct (Ascii.eqb_spec a c) as [->|]; [|reflexivity].
    rewrite Ha in Hc. discriminate. }
  rewrite (replace_absent "<" _ s) by (apply Hc; reflexivity).
  rewrite (replace_absent ">" _ s) by (apply Hc; reflexivity).
  rewrite (replace_absent EncryptionService.double_quote _ s)
    by (apply Hc; reflexivity).
  rewrite (replace_absent "'" _ s) by (apply Hc; reflexivity).
  apply replace_absent, Hc. reflexivity.
Qed.

(** X8: [sanitize_input] leaves alone what it does not look for.  A string
    that holds none of the three spellings (lower case, upper case,
    capitalised) of a listed pattern, none of the five characters the
    function escapes, and no white space at its ends, is returned as it
    is. *)
Theorem sanitize_input_keeps_plain_text (input_data : string) :
  forallb (fun pattern => negb (mentions input_data pattern))
    EncryptionService.dangerous_patterns = true ->
  all_chars (fun c => negb (special c)) input_data = true ->
  PyStr.strip input_data = input_data ->
  EncryptionService.sanitize_input input_data = input_data.
Proof.
  intros Hpat Hchars Hstrip. unfold EncryptionService.sanitize_input.
  destruct (EncryptionService.is_empty input_data); [reflexivity|].
  rewrite fold_left_fixed.
  - rewrite (escape_special_plain _ Hchars). exact Hstrip.
  - apply Stdlib.Lists.List.Forall_forall. intros p Hp.
    rewrite forallb_forall in Hpat. specialize (Hpat p Hp).
    unfold mentions in Hpat. apply negb_true_iff in Hpat.
    apply orb_false_elim in Hpat. destruct Hpat as [Hpat Hcap].
    apply orb_false_elim in Hpat. destruct Hpat as [Hlow Hup].
    unfold EncryptionService.remove_pattern.
    rewrite (replace_absent _ _ _ Hlow), (replace_absent _ _ _ Hup).
    apply replace_absent, Hcap.
Qed.

Lemma sanitize_input_keeps_plain_text_witness :
  EncryptionService.sanitize_input "Maria Lopez-Ortega, 4 High St. #2"
  = "Maria Lopez-Ortega, 4 High St. #2".
Proof.
  apply sanitize_input_keeps_plain_text; vm_compute; reflexivity.
Defined.

(** ** Input sanitizer: the data of a request body *)

Lemma value_ind_nested (P : InputSanitizer.value -> Prop) :
  P InputSanitizer.VNone ->
  (forall b, P (InputSanitizer.VBool b)) ->
  (forall z, P (InputSanitizer.VInt z)) ->
  (forall bits, P (InputSanitizer.VFloat bits)) ->
  (forall s, P (InputSanitizer.VStr s)) ->
  (forall items, Forall P items -> P (InputSanitizer.VList items)) ->
  (forall fields,
      Forall (fun kv => P (snd kv)) fields -> P (InputSanitizer.VDict fields)) ->
  forall v, P v.
Proof.
  intros HNone HBool HInt HFloat HStr HList HDict.
  fix IH 1. intros [| b | z | bits | s | items | fields].
  - exact HNone.
  - apply HBool.
  - apply HInt.
  - apply HFloat.
  - apply HStr.
  - apply HList. induction items as [|x items IHitems]; constructor.
    + apply IH.
    + exact IHitems.
  - apply HDict. induction fields as [|[k x] fields IHfields]; constructor.
    + apply IH.
    + exact IHfields.
Qed.

Section DictFacts.

Variable Q : string * InputSanitizer.value -> bool.

Lemma forallb_dict_set (key : string) (v : InputSanitizer.value)
  (d : list (string * InputSanitizer.value)) :
  Q (key, v) = true ->
  forallb Q d = true ->
  forallb Q (InputSanitizer.dict_set key v d) = true.
Proof.
  intros Hkv. induction d as [|[k x] d IH]; intros Hd.
  - cbn. rewrite Hkv. reflexivity.
  - cbn [InputSanitizer.dict_set]. cbn [forallb] in Hd.
    apply andb_prop in Hd. destruct Hd as [Hx Hd].
    destruct (String.eqb_spec k key) as [->|Hne].
    + cbn [forallb]. rewrite Hkv, Hd. reflexivity.
    + cbn [forallb]. rewrite Hx, (IH Hd). reflexivity.
Qed.

End DictFacts.

(** X9: in the data [_sanitize_data] returns, at any depth, no key of a
    dictionary and no string holds one of the characters <, >, double
    quote and apostrophe. *)
Theorem sanitize_data_free_of_markup (data : InputSanitizer.value) :
  free_of_markup (InputSanitizer._sanitize_data data) = true.
Proof.
  induction data as [| b | z | bits | s | items IH | fields IH]
    using value_ind_nested; try reflexivity.
  - apply sanitize_input_free_of_markup.
  - cbn [InputSanitizer._sanitize_data free_of_markup].
    induction IH as [|x items Hx _ IHitems]; [reflexivity|].
    cbn [List.map forallb]. rewrite Hx, IHitems. reflexivity.
  - cbn [InputSanitizer._sanitize_data free_of_markup].
    assert (Hacc : forallb
                     (fun kv => all_chars (fun c => negb (markup c)) (fst kv)
                                && free_of_markup (snd kv)) [] = true)
      by reflexivity.
    revert Hacc. generalize (@nil (string * InputSanitizer.value)) as acc.
    induction IH as [|[k x] fields Hx _ IHfields]; intros acc Hacc.
    + exact Hacc.
    + cbn [fold_left]. apply IHfields. apply forallb_dict_set; [|exact Hacc].
      cbn [fst snd] in *. rewrite sanitize_input_free_of_markup, Hx.
      reflexivity.
Qed.

Lemma find_app_first {A : Type} (f : A -> bool) (l1 l2 : list A) :
  find f (l1 ++ l2)%list
  = match find f l1 with Some x => Some x | None => find f l2 end.
Proof.
  induction l1 as [|a l1 IH]; [reflexivity|].
  cbn [List.app find]. destruct (f a); [reflexivity|exact IH].
Qed.

Lemma dict_get_dict_set (key key' : string) (v : InputSanitizer.value)
  (d : list (string * InputSanitizer.value)) :
  InputSanitizer.dict_get key (InputSanitizer.dict_set key' v d)
  = if String.eqb key' key then Some v else InputSanitizer.dict_get key d.
Proof.
  unfold InputSanitizer.dict_get.
  induction d as [|[k x] d IH].
  - cbn. destruct (String.eqb key' key); reflexivity.
  - cbn [InputSanitizer.dict_set].
    destruct (String.eqb_spec k key') as [->|Hne].
    + cbn [find fst snd]. destruct (String.eqb key' key); reflexivity.
    + cbn [find fst snd]. destruct (String.eqb_spec k key) as [->|Hne'].
      * destruct (String.eqb_spec key' key) as [->|]; [congruence|reflexivity].
      * exact IH.
Qed.

Lemma length_dict_set (key : string) (v : InputSanitizer.value)
  (d : list (string * InputSanitizer.value)) :
  List.length (InputSanitizer.dict_set key v d) <= S (List.length d).
Proof.
  induction d as [|[k x] d IH]; [cbn; lia|].
  cbn [InputSanitizer.dict_set].
  destruct (String.eqb k key); cbn [List.length]; lia.
Qed.

(** X10: a dictionary after [_sanitize_data].  Looking up a key gives the
    sanitised value of the last entry of the input whose sanitised key is
    that key, and nothing when there is no such entry: entries whose keys
    sanitise to the same text are merged and the later one wins, so the
    result never has more entries than the input and can have fewer. *)
Theorem sanitize_data_dict_lookup
  (fields : list (string * InputSanitizer.value)) (key : string) :
  let sanitized :=
    InputSanitizer.items
      (InputSanitizer._sanitize_data (InputSanitizer.VDict fields)) in
  InputSanitizer.dict_get key sanitized
  = match find (fun kv =>
                  String.eqb (EncryptionService.sanitize_input (fst kv)) key)
            (rev fields) with
    | Some kv => Some (InputSanitizer._sanitize_data (snd kv))
    | None => None
    end
  /\ List.length sanitized <= List.length fields.
Proof.
  cbn [InputSanitizer._sanitize_data InputSanitizer.items].
  set (step := fun sanitized kv =>
         InputSanitizer.dict_set
           (EncryptionService.sanitize_input (fst kv))
           (InputSanitizer._sanitize_data (snd kv)) sanitized).
  assert (H : forall acc,
    InputSanitizer.dict_get key (fold_left step fields acc)
    = match find (fun kv =>
                    String.eqb (EncryptionService.sanitize_input (fst kv)) key)
              (rev fields) with
      | Some kv => Some (InputSanitizer._sanitize_data (snd kv))
      | None => InputSanitizer.dict_get key acc
      end
    /\ List.length (fold_left step fields acc)
       <= List.length acc + List.length fields).
  { induction fields as [|kv fields IH]; intros acc.
    - cbn. split; [reflexivity|lia].
    - cbn [fold_left rev]. destruct (IH (step acc kv)) as (IH1 & IH2).
      split.
      + rewrite IH1, find_app_first.
        destruct (find _ (rev fields)); [reflexivity|].
        unfold step at 1. rewrite dict_get_dict_set. cbn [find].
        destruct (String.eqb (EncryptionService.sanitize_input (fst kv)) key);
          reflexivity.
      + assert (List.length (step acc kv) <= S (List.length acc))
          by apply length_dict_set.
        cbn [List.length]. lia. }
  destruct (H []) as (H1 & H2). split; [exact H1|exact H2].
Qed.

(** ** Rate limiter: what a run lets through *)

Lemma append_cancel_r (a b s : string) : a ++ s = b ++ s -> a = b.
Proof.
  revert b. induction a as [|c a IH]; intros [|d b] H.
  - reflexivity.
  - apply (f_equal String.length) in H. rewrite !length_append in H.
    cbn [String.length] in H. lia.
  - apply (f_equal String.length) in H. rewrite !length_append in H.
    cbn [String.length] in H. lia.
  - change (String c (a ++ s) = String d (b ++ s)) in H.
    injection H as -> H. rewrite (IH b H). reflexivity.
Qed.

Section RateGuarantee.

Import Http RateLimit RateLimitRun.

Variable fsub : Q -> Q -> Q.
Abbreviation evict := (RateLimit.evict fsub).
Abbreviation sweep := (RateLimit.sweep fsub).
Abbreviation _is_rate_limited := (RateLimit._is_rate_limited fsub).
Abbreviation _cleanup_old_requests := (RateLimit._cleanup_old_requests fsub).
Abbreviation periodic_cleanup := (RateLimit.periodic_cleanup fsub).
Abbreviation dispatch := (RateLimit.dispatch fsub).
Abbreviation serve := (RateLimit.serve fsub).
Abbreviation verdict := (RateLimitRun.verdict fsub).
Abbreviation passed_on := (RateLimitRun.passed_on fsub).

Hypothesis fsub_within : rounds_within fsub.

(** An entry whose computed age lies above a horizon is older than the
    horizon. *)
Lemma computed_age_above (h t x : Q) :
  is_horizon h -> Qgt_bool (fsub t x) h = true -> Qle_bool (t - x) h = false.
Proof.
  intros Hh Hgt. destruct (Qle_bool (t - x) h) eqn:Hle; [|reflexivity].
  apply Qle_bool_iff in Hle. apply (fsub_within _ _ _ Hh) in Hle.
  apply Qle_bool_iff in Hle. unfold Qgt_bool in Hgt. rewrite Hle in Hgt.
  discriminate.
Qed.

Lemma evict_split (h t : Q) (l : list Q) :
  exists pre,
    l = (pre ++ evict h t l)%list
    /\ Forall (fun x => Qgt_bool (fsub t x) h = true) pre.
Proof.
  induction l as [|x l (pre & Hl & Hpre)].
  - exists []. split; [reflexivity|constructor].
  - cbn [RateLimit.evict].
    destruct (Qgt_bool (fsub t x) h) eqn:Hx.
    + exists (x :: pre). split.
      * cbn [List.app]. rewrite <- Hl. reflexivity.
      * constructor; assumption.
    + exists []. split; [reflexivity|constructor].
Qed.

Lemma evict_idem (h t : Q) (l : list Q) :
  evict h t (evict h t l) = evict h t l.
Proof.
  induction l as [|x l IH]; [reflexivity|].
  cbn [RateLimit.evict]. destruct (Qgt_bool (fsub t x) h) eqn:Hx; [exact IH|].
  cbn [RateLimit.evict]. rewrite Hx. reflexivity.
Qed.

Lemma old_later (h now t x : Q) :
  (now <= t)%Q ->
  Qle_bool (now - x) h = false -> Qle_bool (t - x) h = false.
Proof.
  intros Hnow Hold. destruct (Qle_bool (t - x) h) eqn:Hle; [|reflexivity].
  apply Qle_bool_iff in Hle.
  assert (Hle' : (now - x <= h)%Q) by lra.
  apply Qle_bool_iff in Hle'. congruence.
Qed.

Lemma by_ip_app (ip : string) (l1 l2 : list (string * Q)) :
  by_ip ip (l1 ++ l2) = (by_ip ip l1 ++ by_ip ip l2)%list.
Proof.
  unfold by_ip. rewrite List.filter_app, List.map_app. reflexivity.
Qed.

Lemma filter_all_false {A : Type} (f : A -> bool) (l : list A) :
  Forall (fun x => f x = false) l -> List.filter f l = [].
Proof.
  induction 1 as [|x l Hx _ IH]; [reflexivity|].
  cbn [List.filter]. rewrite Hx. exact IH.
Qed.

Lemma length_filter_le {A : Type} (f : A -> bool) (l : list A) :
  List.length (List.filter f l) <= List.length l.
Proof.
  induction l as [|x l IH]; [reflexivity|].
  cbn [List.filter]. destruct (f x); cbn [List.length]; lia.
Qed.

Section Window.

Variable age : Q -> Q -> Q.
Variable get : t -> gmap string (list Q).
Variable suffix : string.
Variable horizon : Q.

(** What is used of [age]: an entry that is old stays old, and an entry
    that [evict] takes off is old. *)
Hypothesis age_later :
  forall now t x,
    (now <= t)%Q ->
    Qle_bool (age now x) horizon = false -> Qle_bool (age t x) horizon = false.
Hypothesis age_evicted :
  forall t x,
    Qgt_bool (fsub t x) horizon = true -> Qle_bool (age t x) horizon = false.

Let holds := window_holds_recent age get suffix horizon.

Lemma holds_after_eviction (log : list (string * Q)) (now t0 : Q)
    (self self' : t) :
  holds log now self ->
  (now <= t0)%Q ->
  (forall key,
      window (get self') key = window (get self) key
      \/ window (get self') key = evict horizon t0 (window (get self) key)) ->
  holds log t0 self'.
Proof.
  intros Hinv Hnow Hstep ip. destruct (Hinv ip) as (dropped & Hlog & Hold).
  assert (Hold' :
    Forall (fun x => Qle_bool (age t0 x) horizon = false) dropped).
  { eapply Forall_impl; [exact Hold|].
    intros x Hx. cbv beta in Hx |- *. eapply age_later; eassumption. }
  destruct (Hstep (ip ++ suffix)) as [-> | ->].
  - exists dropped. split; assumption.
  - destruct (evict_split horizon t0 (window (get self) (ip ++ suffix)))
      as (pre & Hsplit & Hpre).
    exists (dropped ++ pre)%list. split.
    + rewrite Hlog, <- List.app_assoc, <- Hsplit. reflexivity.
    + apply Forall_app. split; [exact Hold'|].
      eapply Forall_impl; [exact Hpre|].
      intros x Hx. apply age_evicted. exact Hx.
Qed.

Lemma holds_after_record (log : list (string * Q)) (t0 : Q)
    (self self' : t) (ip0 : string) :
  holds log t0 self ->
  (forall ip,
      window (get self') (ip ++ suffix)
      = if String.eqb ip0 ip
        then (window (get self) (ip ++ suffix) ++ [t0])%list
        else window (get self) (ip ++ suffix)) ->
  holds (log ++ [(ip0, t0)]) t0 self'.
Proof.
  intros Hinv Hstep ip. destruct (Hinv ip) as (dropped & Hlog & Hold).
  exists dropped. split; [|exact Hold].
  rewrite by_ip_app, Hlog, Hstep. unfold by_ip at 1. cbn [List.filter fst].
  destruct (String.eqb ip0 ip); cbn [List.map snd].
  - rewrite <- List.app_assoc. reflexivity.
  - rewrite List.app_nil_r. reflexivity.
Qed.

Lemma recent_bounded (log : list (string * Q)) (t0 : Q) (self : t)
    (ip : string) :
  holds log t0 self ->
  List.length
    (List.filter (fun x => Qle_bool (age t0 x) horizon) (by_ip ip log))
  <= List.length (window (get self) (ip ++ suffix)).
Proof.
  intros Hinv. destruct (Hinv ip) as (dropped & Hlog & Hold).
  rewrite Hlog, List.filter_app, List.length_app.
  rewrite (filter_all_false _ dropped Hold). cbn [List.length].
  apply length_filter_le.
Qed.

End Window.

Lemma window_insert_evict_cases (h t0 : Q) (d : gmap string (list Q))
    (k key : string) :
  window (<[k := evict h t0 (window d k)]> d) key = window d key
  \/ window (<[k := evict h t0 (window d k)]> d) key
     = evict h t0 (window d key).
Proof.
  destruct (decide (k = key)) as [->|Hne].
  - right. apply window_insert.
  - left. apply window_insert_other. exact Hne.
Qed.

(** What the sweep and the checks do to any deque. *)
Lemma periodic_cleanup_windows (self : t) (t0 : Q) (key : string) :
  let self' := periodic_cleanup self t0 in
  (window (burst_requests self') key = window (burst_requests self) key
   \/ window (burst_requests self') key
      = evict 10 t0 (window (burst_requests self) key))
  /\ (window (minute_requests self') key = window (minute_requests self) key
      \/ window (minute_requests self') key
         = evict 60 t0 (window (minute_requests self) key))
  /\ (window (hour_requests self') key = window (hour_requests self) key
      \/ window (hour_requests self') key
         = evict 3600 t0 (window (hour_requests self) key)).
Proof.
  unfold RateLimit.periodic_cleanup.
  destruct (Qgt_bool _ _); [|cbv zeta; auto].
  unfold RateLimit._cleanup_old_requests, set_last_cleanup, set_hour, set_minute,
    set_burst.
  cbn [burst_requests minute_requests hour_requests].
  rewrite !window_sweep. auto.
Qed.

Lemma is_rate_limited_windows (self : t) (ip path : string) (t0 : Q)
    (key : string) :
  let self' := snd (_is_rate_limited self ip path t0) in
  (window (burst_requests self') key = window (burst_requests self) key
   \/ window (burst_requests self') key
      = evict 10 t0 (window (burst_requests self) key))
  /\ (window (minute_requests self') key = window (minute_requests self) key
      \/ window (minute_requests self') key
         = evict 60 t0 (window (minute_requests self) key))
  /\ (window (hour_requests self') key = window (hour_requests self) key
      \/ window (hour_requests self') key
         = evict 3600 t0 (window (hour_requests self) key)).
Proof.
  unfold RateLimit._is_rate_limited. cbn.
  repeat match goal with
         | |- context [if ?c then _ else _] => destruct c
         end;
    cbn; repeat split;
    first [apply window_insert_evict_cases | left; reflexivity].
Qed.

Lemma is_rate_limited_config (self : t) (ip path : string) (t0 : Q) :
  same_config (snd (_is_rate_limited self ip path t0)) self.
Proof.
  unfold RateLimit._is_rate_limited, same_config. cbn.
  repeat match goal with
         | |- context [if ?c then _ else _] => destruct c
         end;
    cbn; auto.
Qed.

(** A request that passes found each of its three deques, once the old
    entries were taken off, below its limit. *)
Lemma is_rate_limited_false (self self' : t) (ip path : string) (t0 : Q) :
  _is_rate_limited self ip path t0 = (false, self') ->
  let burst :=
    evict 10 t0 (window (burst_requests self) (ip ++ ":burst")) in
  let minute :=
    evict 60 t0 (window (minute_requests self) (ip ++ ":minute")) in
  let hour :=
    evict 3600 t0 (window (hour_requests self) (ip ++ ":hour")) in
  window (burst_requests self') (ip ++ ":burst") = burst
  /\ window (minute_requests self') (ip ++ ":minute") = minute
  /\ window (hour_requests self') (ip ++ ":hour") = hour
  /\ (len burst < burst_limit self)%Z
  /\ (len minute < calls_per_minute self)%Z
  /\ (len hour < calls_per_hour self)%Z
  /\ (_is_sensitive_endpoint path = true ->
      (len minute < Z.min 10 (calls_per_minute self / 6))%Z).
Proof.
  unfold RateLimit._is_rate_limited.
  cbn [burst_limit calls_per_minute calls_per_hour set_burst set_minute
       set_hour burst_requests minute_requests hour_requests].
  destruct (Z.leb_spec (burst_limit self)
              (len (evict 10 t0
                      (window (burst_requests self) (ip ++ ":burst")))));
    [discriminate|].
  destruct (Z.leb_spec (calls_per_minute self)
              (len (evict 60 t0
                      (window (minute_requests self) (ip ++ ":minute")))));
    [discriminate|].
  destruct (Z.leb_spec (calls_per_hour self)
              (len (evict 3600 t0
                      (window (hour_requests self) (ip ++ ":hour")))));
    [discriminate|].
  destruct (_is_sensitive_endpoint path) eqn:Hs.
  - destruct (Z.leb_spec (Z.min 10 (calls_per_minute self / 6))
                (len (evict 60 t0
                        (window (minute_requests self) (ip ++ ":minute")))));
      [discriminate|].
    intros [= <-]. unfold set_hour, set_minute, set_burst.
    cbn [burst_requests minute_requests hour_requests].
    rewrite !window_insert. repeat split; auto.
  - intros [= <-]. unfold set_hour, set_minute, set_burst.
    cbn [burst_requests minute_requests hour_requests].
    rewrite !window_insert. repeat split; auto. discriminate.
Qed.

Lemma window_append_at (d : gmap string (list Q)) (ip0 ip sfx : string)
    (x : Q) :
  window (append d (ip0 ++ sfx) x) (ip ++ sfx)
  = if String.eqb ip0 ip then (window d (ip ++ sfx) ++ [x])%list
    else window d (ip ++ sfx).
Proof.
  destruct (String.eqb_spec ip0 ip) as [->|Hne].
  - apply window_append.
  - unfold append. apply window_insert_other.
    intros H. apply Hne. exact (append_cancel_r _ _ _ H).
Qed.

Lemma dispatch_state {S : Type} (call_next : Request -> S -> outcome * S)
    (t0 : Q) (stamp : string) (request : Request) (self : t) (s : S) :
  let r :=
    _is_rate_limited (periodic_cleanup self t0) (_get_client_ip request)
      (req_path request) t0 in
  snd (fst (dispatch call_next t0 stamp request self s))
  = if fst r then snd r
    else _record_request (snd r) (_get_client_ip request) t0.
Proof.
  unfold RateLimit.dispatch.
  destruct (_is_rate_limited (periodic_cleanup self t0)
              (_get_client_ip request) (req_path request) t0)
    as [limited self2].
  destruct limited; [reflexivity|].
  cbn [fst snd]. destruct (call_next request s) as [[p|e] s']; reflexivity.
Qed.

Lemma clock_from_later (now t0 : Q) (times : list Q) :
  (now <= t0)%Q -> clock_from t0 times -> clock_from now times.
Proof.
  destruct times as [|t1 times]; [trivial|].
  cbn [clock_from]. intros H (H1 & H2). split; [lra|exact H2].
Qed.

Ltac exact_age :=
  first [ intros ? ? ?; apply old_later
        | intros ? ?; apply computed_age_above; known_horizon ].

Section Runs.

Context {S : Type}.
Variable call_next : Request -> S -> outcome * S.

Let time_of (a : Request * Q * string) : Q := snd (fst a).

Lemma passed_on_bounded (arrivals : list (Request * Q * string)) :
  forall (self : t) (s : S) (log : list (string * Q)) (now : Q),
    window_holds_recent Qminus burst_requests ":burst" 10 log now self ->
    window_holds_recent Qminus minute_requests ":minute" 60 log now self ->
    window_holds_recent Qminus hour_requests ":hour" 3600 log now self ->
    clock_from now (List.map time_of arrivals) ->
    forall pre ip t0 post,
      passed_on call_next arrivals self s = (pre ++ (ip, t0) :: post)%list ->
      (Z.of_nat (recent 10 ip t0 (log ++ pre)) < burst_limit self)%Z
      /\ (Z.of_nat (recent 60 ip t0 (log ++ pre)) < calls_per_minute self)%Z
      /\ (Z.of_nat (recent 3600 ip t0 (log ++ pre)) < calls_per_hour self)%Z.
Proof.
  induction arrivals as [|[[request t1] stamp] rest IH];
    intros self s log now Hb Hm Hh Hclock pre ip t0 post Hrun.
  - destruct pre; discriminate Hrun.
  - cbn [List.map clock_from] in Hclock. unfold time_of at 1 in Hclock.
    cbn [fst snd] in Hclock. destruct Hclock as (Hnow & Hclock).
    cbn [RateLimitRun.passed_on] in Hrun.
    pose proof (dispatch_state call_next t1 stamp request self s) as Hstate.
    destruct (dispatch call_next t1 stamp request self s)
      as [[o self'] s'] eqn:Hdispatch.
    cbn [fst snd] in Hstate. cbv zeta in Hstate.
    unfold RateLimitRun.verdict in Hrun.
    set (self1 := periodic_cleanup self t1) in *.
    assert (Hcfg1 : same_config self1 self) by apply periodic_cleanup_config.
    assert (Hb1 : window_holds_recent Qminus burst_requests ":burst" 10 log t1 self1).
    { eapply holds_after_eviction; [exact_age|exact_age|exact Hb|exact Hnow|].
      intros key. apply (periodic_cleanup_windows self t1 key). }
    assert (Hm1 :
      window_holds_recent Qminus minute_requests ":minute" 60 log t1 self1).
    { eapply holds_after_eviction; [exact_age|exact_age|exact Hm|exact Hnow|].
      intros key. apply (periodic_cleanup_windows self t1 key). }
    assert (Hh1 : window_holds_recent Qminus hour_requests ":hour" 3600 log t1 self1).
    { eapply holds_after_eviction; [exact_age|exact_age|exact Hh|exact Hnow|].
      intros key. apply (periodic_cleanup_windows self t1 key). }
    pose proof (is_rate_limited_config self1 (_get_client_ip request)
                  (req_path request) t1) as Hcfg2.
    pose proof (fun key =>
                  is_rate_limited_windows self1 (_get_client_ip request)
                    (req_path request) t1 key) as Hwin.
    destruct (_is_rate_limited self1 (_get_client_ip request)
                (req_path request) t1) as [limited self2] eqn:Hcheck.
    cbn [fst snd] in *.
    assert (Hb2 : window_holds_recent Qminus burst_requests ":burst" 10 log t1 self2).
    { eapply holds_after_eviction; [exact_age|exact_age|exact Hb1|lra|].
      intros key. apply (Hwin key). }
    assert (Hm2 :
      window_holds_recent Qminus minute_requests ":minute" 60 log t1 self2).
    { eapply holds_after_eviction; [exact_age|exact_age|exact Hm1|lra|].
      intros key. apply (Hwin key). }
    assert (Hh2 : window_holds_recent Qminus hour_requests ":hour" 3600 log t1 self2).
    { eapply holds_after_eviction; [exact_age|exact_age|exact Hh1|lra|].
      intros key. apply (Hwin key). }
    assert (Hlimits :
      burst_limit self2 = burst_limit self
      /\ calls_per_minute self2 = calls_per_minute self
      /\ calls_per_hour self2 = calls_per_hour self).
    { destruct Hcfg1 as (A1 & A2 & A3 & _), Hcfg2 as (B1 & B2 & B3 & _).
      repeat split; congruence. }
    destruct Hlimits as (Lb & Lm & Lh).
    destruct limited.
    + (* the request is answered with 429 *)
      subst self'. cbn [List.app] in Hrun.
      destruct (IH self2 s' log t1 Hb2 Hm2 Hh2 Hclock pre ip t0 post Hrun)
        as (B & M & H).
      rewrite Lb in B. rewrite Lm in M. rewrite Lh in H. auto.
    + (* the request is passed on *)
      subst self'.
      destruct (is_rate_limited_false _ _ _ _ _ Hcheck)
        as (Wb & Wm & Wh & Nb & Nm & Nh & _).
      destruct pre as [|entry pre].
      * cbn [List.app] in Hrun. injection Hrun as <- <- _.
        rewrite List.app_nil_r.
        assert (Rb :
          recent 10 (_get_client_ip request) t1 log
          <= List.length
               (window (burst_requests self2) (_get_client_ip request ++ ":burst")))
          by exact (recent_bounded Qminus burst_requests ":burst" 10 log t1 self2
                      (_get_client_ip request) Hb2).
        assert (Rm :
          recent 60 (_get_client_ip request) t1 log
          <= List.length
               (window (minute_requests self2) (_get_client_ip request ++ ":minute")))
          by exact (recent_bounded Qminus minute_requests ":minute" 60 log t1 self2
                      (_get_client_ip request) Hm2).
        assert (Rh :
          recent 3600 (_get_client_ip request) t1 log
          <= List.length
               (window (hour_requests self2) (_get_client_ip request ++ ":hour")))
          by exact (recent_bounded Qminus hour_requests ":hour" 3600 log t1 self2
                      (_get_client_ip request) Hh2).
        rewrite Wb in Rb. rewrite Wm in Rm. rewrite Wh in Rh.
        destruct Hcfg1 as (A1 & A2 & A3 & _).
        unfold len in Nb, Nm, Nh. rewrite <- A3, <- A1, <- A2.
        repeat split; lia.
      * cbn [List.app] in Hrun. injection Hrun as <- Hrun.
        set (ip0 := _get_client_ip request) in *.
        assert (Hb3 :
          window_holds_recent Qminus burst_requests ":burst" 10
            (log ++ [(ip0, t1)]) t1 (_record_request self2 ip0 t1)).
        { eapply holds_after_record; [exact Hb2|]. intros ip'.
          unfold _record_request.
          cbn [burst_requests set_burst set_minute set_hour].
          apply window_append_at. }
        assert (Hm3 :
          window_holds_recent Qminus minute_requests ":minute" 60
            (log ++ [(ip0, t1)]) t1 (_record_request self2 ip0 t1)).
        { eapply holds_after_record; [exact Hm2|]. intros ip'.
          unfold _record_request.
          cbn [minute_requests set_burst set_minute set_hour].
          apply window_append_at. }
        assert (Hh3 :
          window_holds_recent Qminus hour_requests ":hour" 3600
            (log ++ [(ip0, t1)]) t1 (_record_request self2 ip0 t1)).
        { eapply holds_after_record; [exact Hh2|]. intros ip'.
          unfold _record_request.
          cbn [hour_requests set_burst set_minute set_hour].
          apply window_append_at. }
        destruct (IH _ s' _ t1 Hb3 Hm3 Hh3 Hclock pre ip t0 post Hrun)
          as (B & M & H).
        rewrite <- !List.app_assoc in B, M, H. cbn [List.app] in B, M, H.
        unfold _record_request in B, M, H.
        cbn [burst_limit calls_per_minute calls_per_hour
             set_burst set_minute set_hour] in B, M, H.
        rewrite Lb in B. rewrite Lm in M. rewrite Lh in H. auto.
Qed.

Lemma holds_at_start (age : Q -> Q -> Q) (get : t -> gmap string (list Q))
    (suffix : string) (horizon now : Q) (self : t) :
  get self = empty -> window_holds_recent age get suffix horizon [] now self.
Proof.
  intros Hempty ip. exists []. split; [|constructor].
  unfold window. rewrite Hempty, lookup_empty. reflexivity.
Qed.

(** X11: what the limiter guarantees over a run.  Starting with empty
    deques and with a clock that never goes back, every request that is
    let through had, among the requests of the same client let through
    before it, fewer than [burst_limit] in the 10 seconds before it,
    fewer than [calls_per_minute] in the 60 seconds before it, and fewer
    than [calls_per_hour] in the 3600 seconds before it, whatever the
    other clients and the application do.  The code computes the ages by
    the subtraction of doubles, of which [rounds_within] is used: an
    entry that [evict] takes off is older than the horizon. *)
Theorem limiter_keeps_every_window_below_its_limit
    (arrivals : list (Request * Q * string)) (self : t) (s : S)
    (pre post : list (string * Q)) (ip : string) (t0 : Q) :
  burst_requests self = empty ->
  minute_requests self = empty ->
  hour_requests self = empty ->
  clock_runs_forward (List.map time_of arrivals) ->
  passed_on call_next arrivals self s = (pre ++ (ip, t0) :: post)%list ->
  (Z.of_nat (recent 10 ip t0 pre) < burst_limit self)%Z
  /\ (Z.of_nat (recent 60 ip t0 pre) < calls_per_minute self)%Z
  /\ (Z.of_nat (recent 3600 ip t0 pre) < calls_per_hour self)%Z.
Proof.
  intros Hb Hm Hh Hclock Hrun.
  destruct arrivals as [|a rest].
  - destruct pre; discriminate Hrun.
  - apply (passed_on_bounded (a :: rest) self s [] (time_of a)
             (holds_at_start _ _ _ _ _ _ Hb) (holds_at_start _ _ _ _ _ _ Hm)
             (holds_at_start _ _ _ _ _ _ Hh)
             (conj (Qle_refl _) Hclock) pre ip t0 post Hrun).
Qed.

Lemma dispatch_cases
    (t0 : Q) (stamp : string) (request : Request) (self : t) (s : S) :
  let ip := _get_client_ip request in
  let '(o, self', s') := dispatch call_next t0 stamp request self s in
  same_config self' self
  /\ (forall key,
        (key <> ip ++ ":burst" ->
         window (burst_requests self') key
           `suffix_of` window (burst_requests self) key)
        /\ (key <> ip ++ ":minute" ->
            window (minute_requests self') key
              `suffix_of` window (minute_requests self) key)
        /\ (key <> ip ++ ":hour" ->
            window (hour_requests self') key
              `suffix_of` window (hour_requests self) key))
  /\ if verdict t0 request self
     then o = Returned (_create_rate_limit_response ip request stamp)
          /\ s' = s
          /\ nothing_appended self self'
     else (exists o0,
              call_next request s = (o0, s')
              /\ o = match o0 with
                     | Returned p =>
                         Returned (_add_rate_limit_headers self' p ip t0)
                     | Raised e => Raised e
                     end)
          /\ window (burst_requests self') (ip ++ ":burst")
             = (evict 10 t0 (window (burst_requests self) (ip ++ ":burst"))
                ++ [t0])%list
          /\ window (minute_requests self') (ip ++ ":minute")
             = (evict 60 t0 (window (minute_requests self) (ip ++ ":minute"))
                ++ [t0])%list
          /\ window (hour_requests self') (ip ++ ":hour")
             = (evict 3600 t0 (window (hour_requests self) (ip ++ ":hour"))
                ++ [t0])%list.
Proof.
  cbv zeta. unfold RateLimit.dispatch, RateLimitRun.verdict.
  set (ip := _get_client_ip request).
  set (self1 := periodic_cleanup self t0).
  pose proof (periodic_cleanup_config fsub self t0) as Hcfg1.
  pose proof (periodic_cleanup_nothing_appended fsub self t0) as Hna1.
  pose proof (fun key => periodic_cleanup_windows self t0 key) as Hwin1.
  fold self1 in Hcfg1, Hna1, Hwin1. cbv zeta in Hwin1.
  pose proof (is_rate_limited_config self1 ip (req_path request) t0) as Hcfg2.
  pose proof (is_rate_limited_nothing_appended fsub self1 ip (req_path request) t0)
    as Hna2.
  destruct (_is_rate_limited self1 ip (req_path request) t0)
    as [limited self2] eqn:Hcheck.
  cbn [fst snd] in *.
  pose proof (same_config_trans _ _ _ Hcfg2 Hcfg1) as Hcfg.
  pose proof (nothing_appended_trans _ _ _ Hna1 Hna2) as Hna.
  destruct limited.
  - split; [exact Hcfg|]. split.
    + intros key. destruct (Hna key) as (A & B & C). auto.
    + auto.
  - destruct (is_rate_limited_false _ _ _ _ _ Hcheck)
      as (Wb & Wm & Wh & _).
    assert (Hstate :
      same_config (_record_request self2 ip t0) self
      /\ (forall key,
            (key <> ip ++ ":burst" ->
             window (burst_requests (_record_request self2 ip t0)) key
               `suffix_of` window (burst_requests self) key)
            /\ (key <> ip ++ ":minute" ->
                window (minute_requests (_record_request self2 ip t0)) key
                  `suffix_of` window (minute_requests self) key)
            /\ (key <> ip ++ ":hour" ->
                window (hour_requests (_record_request self2 ip t0)) key
                  `suffix_of` window (hour_requests self) key))
      /\ window (burst_requests (_record_request self2 ip t0)) (ip ++ ":burst")
         = (evict 10 t0 (window (burst_requests self) (ip ++ ":burst"))
            ++ [t0])%list
      /\ window (minute_requests (_record_request self2 ip t0))
           (ip ++ ":minute")
         = (evict 60 t0 (window (minute_requests self) (ip ++ ":minute"))
            ++ [t0])%list
      /\ window (hour_requests (_record_request self2 ip t0)) (ip ++ ":hour")
         = (evict 3600 t0 (window (hour_requests self) (ip ++ ":hour"))
            ++ [t0])%list).
    { split; [exact Hcfg|]. split.
      - intros key. destruct (Hna key) as (A & B & C).
        unfold _record_request, append.
        cbn [burst_requests minute_requests hour_requests
             set_burst set_minute set_hour].
        repeat split; intros Hkey;
          (rewrite window_insert_other by congruence); assumption.
      - unfold _record_request.
        cbn [burst_requests minute_requests hour_requests
             set_burst set_minute set_hour].
        rewrite !window_append, Wb, Wm, Wh.
        destruct (Hwin1 (ip ++ ":burst")) as ([-> | ->] & _);
          destruct (Hwin1 (ip ++ ":minute")) as (_ & [-> | ->] & _);
          destruct (Hwin1 (ip ++ ":hour")) as (_ & _ & [-> | ->]);
          rewrite ?evict_idem; auto. }
    destruct (call_next request s) as [[p|e] s'] eqn:Hnext.
    + destruct Hstate as (A & B & C). split; [exact A|]. split; [exact B|].
      split; [|exact C]. eexists. split; reflexivity.
    + destruct Hstate as (A & B & C). split; [exact A|]. split; [exact B|].
      split; [|exact C]. eexists. split; reflexivity.
Qed.


Lemma verdict_false_bounds (t0 : Q) (request : Request) (self : t) :
  verdict t0 request self = false ->
  let ip := _get_client_ip request in
  (len (evict 10 t0 (window (burst_requests self) (ip ++ ":burst")))
   < burst_limit self)%Z
  /\ (len (evict 60 t0 (window (minute_requests self) (ip ++ ":minute")))
      < calls_per_minute self)%Z
  /\ (len (evict 3600 t0 (window (hour_requests self) (ip ++ ":hour")))
      < calls_per_hour self)%Z
  /\ (_is_sensitive_endpoint (req_path request) = true ->
      (len (evict 60 t0 (window (minute_requests self) (ip ++ ":minute")))
       < Z.min 10 (calls_per_minute self / 6))%Z).
Proof.
  unfold RateLimitRun.verdict. intros Hv. cbv zeta.
  set (ip := _get_client_ip request) in *.
  pose proof (periodic_cleanup_config fsub self t0) as (C1 & C2 & C3 & _).
  pose proof (fun key => periodic_cleanup_windows self t0 key) as Hwin.
  cbv zeta in Hwin.
  destruct (_is_rate_limited (periodic_cleanup self t0) ip (req_path request)
              t0) as [limited self2] eqn:Hcheck.
  cbn [fst] in Hv. subst limited.
  destruct (is_rate_limited_false _ _ _ _ _ Hcheck)
    as (_ & _ & _ & Nb & Nm & Nh & Ns).
  rewrite C1 in Nm, Ns. rewrite C2 in Nh. rewrite C3 in Nb.
  destruct (Hwin (ip ++ ":burst")) as ([Eb | Eb] & _);
    destruct (Hwin (ip ++ ":minute")) as (_ & [Em | Em] & _);
    destruct (Hwin (ip ++ ":hour")) as (_ & _ & [Eh | Eh]);
    rewrite Eb in Nb; rewrite Em in Nm, Ns; rewrite Eh in Nh;
    rewrite ?evict_idem in Nb; rewrite ?evict_idem in Nm;
    rewrite ?evict_idem in Nh; rewrite ?evict_idem in Ns;
    repeat split; assumption.
Qed.

(** X13: the stricter limit of the authentication endpoints is
    [min(10, calls_per_minute // 6)].  A request to a path that contains
    [/auth/login], [/auth/logout] or [/auth/me] passes only if the client's
    minute deque holds fewer entries than that; so with [calls_per_minute]
    below 6 the limit is 0 or less and every such request is answered
    with 429, in any state and without the application being called. *)
Theorem sensitive_endpoint_limit
    (t0 : Q) (stamp : string) (request : Request) (self : t) (s : S) :
  _is_sensitive_endpoint (req_path request) = true ->
  let ip := _get_client_ip request in
  (verdict t0 request self = false ->
   (len (evict 60 t0 (window (minute_requests self) (ip ++ ":minute")))
    < Z.min 10 (calls_per_minute self / 6))%Z)
  /\ ((calls_per_minute self < 6)%Z ->
      verdict t0 request self = true
      /\ exists self',
           dispatch call_next t0 stamp request self s
           = (Returned (_create_rate_limit_response ip request stamp),
              self', s)).
Proof.
  intros Hs ip. split.
  - intros Hv. apply (verdict_false_bounds t0 request self Hv). exact Hs.
  - intros Hsmall.
    assert (Hv : verdict t0 request self = true).
    { destruct (verdict t0 request self) eqn:Hv; [reflexivity|].
      destruct (verdict_false_bounds t0 request self Hv) as (_ & _ & _ & N).
      specialize (N Hs). unfold len in N.
      assert (calls_per_minute self / 6 < 1)%Z
        by (apply Z.div_lt_upper_bound; lia).
      lia. }
    split; [exact Hv|].
    pose proof (dispatch_cases t0 stamp request self s) as H.
    cbv zeta in H.
    destruct (dispatch call_next t0 stamp request self s) as [[o self'] s'].
    rewrite Hv in H. destruct H as (_ & _ & -> & -> & _).
    exists self'. reflexivity.
Qed.

Lemma add_rate_limit_headers_get (self : t) (p : Response) (ip : string)
    (t0 : Q) :
  let q := _add_rate_limit_headers self p ip t0 in
  status_code q = status_code p
  /\ content q = content p
  /\ header_get "X-RateLimit-Limit-Minute" (resp_headers q)
     = Some (PyStr.str_of_Z (calls_per_minute self))
  /\ header_get "X-RateLimit-Remaining-Minute" (resp_headers q)
     = Some (PyStr.str_of_Z
               (Z.max 0 (calls_per_minute self
                         - len (window (minute_requests self)
                                  (ip ++ ":minute")))))
  /\ header_get "X-RateLimit-Limit-Hour" (resp_headers q)
     = Some (PyStr.str_of_Z (calls_per_hour self))
  /\ header_get "X-RateLimit-Remaining-Hour" (resp_headers q)
     = Some (PyStr.str_of_Z
               (Z.max 0 (calls_per_hour self
                         - len (window (hour_requests self) (ip ++ ":hour")))))
  /\ header_get "X-RateLimit-Reset" (resp_headers q)
     = Some (PyStr.str_of_Z
               (int_of_Q t0 + (60 - int_of_Q t0 mod 60))%Z)
  /\ forall name,
       ~ In (PyStr.lower name)
            ["x-ratelimit-limit-minute"; "x-ratelimit-remaining-minute";
             "x-ratelimit-limit-hour"; "x-ratelimit-remaining-hour";
             "x-ratelimit-reset"] ->
       header_get name (resp_headers q) = header_get name (resp_headers p).
Proof.
  cbv zeta. unfold _add_rate_limit_headers, with_header.
  cbn [resp_headers status_code content].
  split; [reflexivity|]. split; [reflexivity|].
  repeat split;
    try (rewrite ?header_get_set_other by (vm_compute; discriminate);
         apply header_get_set).
  intros name Hname.
  rewrite !header_get_set_other; [reflexivity| | | | |];
    intros E; apply Hname; rewrite <- E; vm_compute;
    repeat (first [left; reflexivity | right]).
Qed.


End Runs.

End RateGuarantee.

Lemma limiter_keeps_every_window_below_its_limit_witness :
  (Z.of_nat (RateLimitRun.recent 60 "10.0.0.7" 102
               [("10.0.0.7", 100%Q); ("10.0.0.7", 101%Q)]) < 3)%Z.
Proof.
  apply (limiter_keeps_every_window_below_its_limit
           Fixture.fsub fixture_rounds_within Fixture.route
           [(Fixture.request, 100%Q, "g1"); (Fixture.request, 101%Q, "g2");
            (Fixture.request, 102%Q, "g3"); (Fixture.request, 103%Q, "g4");
            (Fixture.request, 104%Q, "g5")]
           (RateLimit.init 3 1000 10 300 0) 0
           [("10.0.0.7", 100%Q); ("10.0.0.7", 101%Q)] []
           "10.0.0.7" 102).
  - reflexivity.
  - reflexivity.
  - reflexivity.
  - vm_compute. repeat split; discriminate.
  - vm_compute. reflexivity.
Defined.

Lemma sensitive_endpoint_limit_witness :
  RateLimitRun.verdict Fixture.fsub 100
    (Http.mk_request [] (Some "testclient") "/auth/login" "POST" None)
    (RateLimit.init 5 1000 10 300 0) = true.
Proof.
  apply (sensitive_endpoint_limit Fixture.fsub Fixture.route 100 "g"
           (Http.mk_request [] (Some "testclient") "/auth/login" "POST" None)
           (RateLimit.init 5 1000 10 300 0) 0).
  - vm_compute. reflexivity.
  - vm_compute. reflexivity.
Defined.


(** ** The retry loop, for any operation *)
Section RetrySchedule.
Import DatabaseErrorHandler.

Context {W A : Type}.
Variable operation : W -> result A * W.
Variable operation_name : string.

Lemma retry_loop_schedule (fuel : nat) :
  forall h w slept tried seen r h' w',
    Database.retry_loop operation operation_name fuel h w slept tried seen
    = Some (r, h', w') ->
    exists k,
      Database.sleeps r
      = (slept ++ List.map
                    (fun n => (retry_delay h * inject_Z (Z.of_nat n))%Q)
                    (seq (S (retry_count h)) k))%list
      /\ Database.attempts r = tried + S k
      /\ k <= max_retries h - retry_count h
      /\ match Database.outcome r with
         | Ok _ =>
             retry_count h' = 0
             /\ List.length (Database.reports r) = List.length seen + k
         | Raise e =>
             retry_count h' = retry_count h + k
             /\ if is_Exception e
                then List.length (Database.reports r) = List.length seen + S k
                     /\ (_is_recoverable_error e = false
                         \/ max_retries h <= retry_count h')
                else List.length (Database.reports r) = List.length seen + k
         end.
Proof.
  induction fuel as [|fuel IH]; intros h w slept tried seen r h' w' E;
    [discriminate|].
  cbn [Database.retry_loop] in E.
  destruct (operation w) as [[v|e] w1].
  - injection E as <- <- <-. exists 0. cbn.
    rewrite List.app_nil_r. repeat split; lia.
  - destruct (is_Exception e) eqn:Hexc.
    + destruct (should_retry h e) eqn:Hretry.
      * unfold should_retry in Hretry.
        destruct (Nat.leb_spec (max_retries h) (retry_count h)) as [|Hlt];
          [discriminate|].
        apply IH in E. destruct E as (k & Hs & Ha & Hk & Ho).
        cbn [increment_retry retry_count max_retries retry_delay]
          in Hs, Hk, Ho.
        exists (S k). split; [|split; [|split]].
        -- rewrite Hs, <- List.app_assoc. cbn [List.app seq List.map].
           replace (retry_count h + 1) with (S (retry_count h)) by lia.
           reflexivity.
        -- lia.
        -- lia.
        -- destruct (Database.outcome r) as [v|e'].
           ++ rewrite List.length_app in Ho. cbn [List.length] in Ho. lia.
           ++ rewrite List.length_app in Ho. cbn [List.length] in Ho.
              destruct Ho as (H1 & H2). split; [lia|].
              destruct (is_Exception e'); [|lia].
              destruct H2 as (H2 & H3). split; [lia|].
              destruct H3 as [H3|H3]; [left; exact H3|right; lia].
      * injection E as <- <- <-. exists 0. cbn. rewrite Hexc.
        rewrite List.app_nil_r, List.length_app. cbn [List.length].
        repeat split; try lia.
        unfold should_retry in Hretry.
        destruct (Nat.leb_spec (max_retries h) (retry_count h));
          [right; lia|left; exact Hretry].
    + injection E as <- <- <-. exists 0. cbn. rewrite Hexc.
      rewrite List.app_nil_r. repeat split; lia.
Qed.

Lemma execute_with_retry_run (g : option t) (w : W) :
  let h := fst (get_db_error_handler g) in
  exists r h' w' k,
    Database.execute_with_retry operation operation_name g w
    = Some (r, Some h', w')
    /\ Database.sleeps r
       = List.map (fun n => (retry_delay h * inject_Z (Z.of_nat n))%Q)
           (seq (S (retry_count h)) k)
    /\ Database.attempts r = S k
    /\ k <= max_retries h - retry_count h
    /\ max_retries h' = max_retries h
    /\ retry_delay h' = retry_delay h
    /\ match Database.outcome r with
       | Ok _ =>
           retry_count h' = 0 /\ List.length (Database.reports r) = k
       | Raise e =>
           retry_count h' = retry_count h + k
           /\ if is_Exception e
              then List.length (Database.reports r) = S k
                   /\ (_is_recoverable_error e = false
                       \/ max_retries h <= retry_count h')
              else List.length (Database.reports r) = k
       end.
Proof.
  cbv zeta.
  destruct (execute_with_retry_returns operation operation_name g w)
    as (r & h' & w' & E).
  exists r, h', w'.
  unfold Database.execute_with_retry in E |- *.
  destruct (get_db_error_handler g) as [h g1] eqn:Hg. cbn [fst].
  destruct (Database.retry_loop operation operation_name
              (S (max_retries h - retry_count h)) h w [] 0 [])
    as [[[r0 h0] w0]|] eqn:Hloop; [|discriminate].
  injection E as <- <- <-.
  destruct (retry_loop_schedule _ _ _ _ _ _ _ _ _ Hloop)
    as (k & Hs & Ha & Hk & Ho).
  destruct (retry_loop_handler operation operation_name _ _ _ _ _ _ _ _ _
              Hloop) as (Hm & Hd & _).
  exists k. split; [reflexivity|]. split; [exact Hs|].
  split; [exact Ha|]. split; [exact Hk|]. split; [exact Hm|].
  split; [exact Hd|]. exact Ho.
Qed.


End RetrySchedule.


(** ** The middleware stack: what becomes of a route's outcome *)
Section StackOutcomes.
Import Http.

Variable fsub : Q -> Q -> Q.
Variable uuid4 : nat -> string.
Variable preflight_response : headers -> Response.
Variable simple_response : headers -> Response -> Response.
Context {S : Type}.
Variable route : Request -> S -> outcome * S.

Abbreviation app :=
  (App.app fsub uuid4 preflight_response simple_response route).

(** The stack inside the CORS middleware. *)
Lemma handled_outcomes (a : App.arrival) (calls : nat)
    (limiter : RateLimit.t) (s : S) :
  let cid := uuid4 calls in
  let request := set_correlation_id cid (App.request a) in
  exists o calls' limiter' s',
    App.handled fsub uuid4 route a (calls, (limiter, s))
    = (o, (calls', (limiter', s')))
    /\ if RateLimitRun.verdict fsub (App.current_time a) request limiter
       then exists resp,
              o = Returned resp
              /\ status_code resp = 429%Z
              /\ body_error_field "code" resp
                 = Some (JStr "RATE_LIMIT_EXCEEDED")
              /\ s' = s
       else
         match route request s with
         | (Returned p, s1) =>
             exists resp,
               o = Returned resp
               /\ status_code resp = status_code p
               /\ content resp = content p
               /\ s' = s1
         | (Raised (HTTPException status detail), s1) =>
             exists resp,
               o = Returned resp
               /\ status_code resp = status
               /\ body_error_field "code" resp = Some (JStr "HTTP_EXCEPTION")
               /\ body_error_field "message" resp = Some (JStr detail)
               /\ s' = s1
         | (Raised (RequestValidationError errors), s1) =>
             exists resp,
               o = Returned resp
               /\ status_code resp = 422%Z
               /\ body_error_field "code" resp
                  = Some (JStr "VALIDATION_ERROR")
               /\ s' = s1
         | (Raised (StarletteHTTPException status detail hs), s1) =>
             exists resp,
               o = Returned resp
               /\ status_code resp = status
               /\ content resp
                  = (if ErrorHandler.is_body_allowed_for_status_code status
                     then JObj [("detail", JStr detail)]
                     else JNull)
               /\ s' = s1
         | (Raised (SQLAlchemyError _), s1) =>
             exists resp,
               o = Returned resp
               /\ status_code resp = 500%Z
               /\ content resp
                  = content
                      (ErrorHandler._create_error_response 500
                         "DATABASE_ERROR"
                         "Error interno del servidor - problema de base de datos"
                         cid request (App.timestamp a) None)
               /\ s' = s1
         | (Raised (OtherException e), s1) =>
             if is_Exception e
             then exists resp,
                    o = Returned resp
                    /\ status_code resp = 500%Z
                    /\ content resp
                       = content
                           (ErrorHandler._create_error_response 500
                              "INTERNAL_SERVER_ERROR"
                              "Error interno del servidor"
                              cid request (App.timestamp a) None)
                    /\ s' = s1
             else o = Raised (OtherException e) /\ s' = s1
         end.
Proof.
  intros cid request.
  unfold App.handled, ErrorHandler.dispatch, App.limited_routes,
    RateLimit.dispatch, ErrorHandler.exception_handlers, RateLimitRun.verdict.
  fold cid. fold request.
  destruct (RateLimit._is_rate_limited _ _ _ _ _) as [[|] limiter1] eqn:E;
    cbn [fst].
  - eexists _, _, _, _. split; [reflexivity|].
    eexists. repeat split.
  - destruct (route request s) as [[p|e] s1] eqn:R.
    + eexists _, _, _, _. split; [reflexivity|]. eexists. repeat split.
    + destruct e as [status detail|errors|e|e|status detail hs].
      * eexists _, _, _, _. split; [reflexivity|]. eexists. repeat split.
      * eexists _, _, _, _. split; [reflexivity|]. eexists. repeat split.
      * eexists _, _, _, _. split; [reflexivity|]. eexists. repeat split.
      * destruct (is_Exception e).
        -- eexists _, _, _, _. split; [reflexivity|]. eexists. repeat split.
        -- eexists _, _, _, _. split; [reflexivity|]. repeat split.
      * eexists _, _, _, _. split; [reflexivity|]. eexists.
        split; [reflexivity|].
        unfold ErrorHandler.default_http_exception_handler.
        destruct (ErrorHandler.is_body_allowed_for_status_code status);
          repeat split.
Qed.

(** X16: what the stack of [main.py] answers to a request that the CORS
    middleware does not answer itself.  A limited client gets 429 and the
    route is not run.  Otherwise the route runs once: its response keeps
    status and content; a [fastapi.HTTPException] gives its own status
    with its detail as message; a validation failure gives 422; an
    [HTTPException] of Starlette itself, as the router raises for an
    unknown path, gives its status with the body [{"detail": ...}] of
    FastAPI's handler; a database exception and any other exception that
    derives from [Exception] give 500 with a body made of a fixed code and
    message, the correlation identifier, the clock text, the path and the
    method only, so that nothing of the exception reaches the client; an
    exception outside [Exception] is answered by nobody and leaves the
    stack. *)
Theorem stack_status_codes (a : App.arrival) (calls : nat)
    (limiter : RateLimit.t) (s : S) :
  App.completes_headers simple_response ->
  App.answered_by_cors a = false ->
  let cid := uuid4 calls in
  let request := set_correlation_id cid (App.request a) in
  exists o calls' limiter' s',
    app a (calls, (limiter, s)) = (o, (calls', (limiter', s')))
    /\ if RateLimitRun.verdict fsub (App.current_time a) request limiter
       then exists resp,
              o = Returned resp
              /\ status_code resp = 429%Z
              /\ body_error_field "code" resp
                 = Some (JStr "RATE_LIMIT_EXCEEDED")
              /\ s' = s
       else
         match route request s with
         | (Returned p, s1) =>
             exists resp,
               o = Returned resp
               /\ status_code resp = status_code p
               /\ content resp = content p
               /\ s' = s1
         | (Raised (HTTPException status detail), s1) =>
             exists resp,
               o = Returned resp
               /\ status_code resp = status
               /\ body_error_field "code" resp = Some (JStr "HTTP_EXCEPTION")
               /\ body_error_field "message" resp = Some (JStr detail)
               /\ s' = s1
         | (Raised (RequestValidationError errors), s1) =>
             exists resp,
               o = Returned resp
               /\ status_code resp = 422%Z
               /\ body_error_field "code" resp
                  = Some (JStr "VALIDATION_ERROR")
               /\ s' = s1
         | (Raised (StarletteHTTPException status detail hs), s1) =>
             exists resp,
               o = Returned resp
               /\ status_code resp = status
               /\ content resp
                  = (if ErrorHandler.is_body_allowed_for_status_code status
                     then JObj [("detail", JStr detail)]
                     else JNull)
               /\ s' = s1
         | (Raised (SQLAlchemyError _), s1) =>
             exists resp,
               o = Returned resp
               /\ status_code resp = 500%Z
               /\ content resp
                  = content
                      (ErrorHandler._create_error_response 500
                         "DATABASE_ERROR"
                         "Error interno del servidor - problema de base de datos"
                         cid request (App.timestamp a) None)
               /\ s' = s1
         | (Raised (OtherException e), s1) =>
             if is_Exception e
             then exists resp,
                    o = Returned resp
                    /\ status_code resp = 500%Z
                    /\ content resp
                       = content
                           (ErrorHandler._create_error_response 500
                              "INTERNAL_SERVER_ERROR"
                              "Error interno del servidor"
                              cid request (App.timestamp a) None)
                    /\ s' = s1
             else o = Raised (OtherException e) /\ s' = s1
         end.
Proof.
  intros Hcors Hpre cid request.
  destruct (handled_outcomes a calls limiter s)
    as (o & calls' & limiter' & s' & E & H).
  fold cid in H. fold request in H.
  unfold App.app. unfold App.answered_by_cors in Hpre.
  destruct (header_get "origin" _) as [origin|];
    [|exists o, calls', limiter', s'; split; [exact E|exact H]].
  rewrite Hpre, E.
  assert (Hkeep : forall (P : Response -> Prop) resp,
             (forall r r', status_code r' = status_code r ->
                           content r' = content r -> P r -> P r') ->
             P resp ->
             P (simple_response (req_headers (App.request a)) resp)).
  { intros P resp HP Hresp.
    destruct (Hcors (req_headers (App.request a)) resp) as (Hs & Hc & _).
    exact (HP resp _ Hs Hc Hresp). }
  unfold body_error_field in *.
  destruct o as [resp|e].
  - exists (Returned (simple_response (req_headers (App.request a)) resp)),
      calls', limiter', s'.
    split; [reflexivity|].
    destruct (Hcors (req_headers (App.request a)) resp) as (Hs & Hc & _).
    destruct (RateLimitRun.verdict _ _ _ _).
    + destruct H as (resp' & [= <-] & H1 & H2 & H3).
      eexists. split; [reflexivity|]. rewrite Hs, Hc. auto.
    + destruct (route request s) as [[p|e] s1].
      * destruct H as (resp' & [= <-] & H1 & H2 & H3).
        eexists. split; [reflexivity|]. rewrite Hs, Hc. auto.
      * destruct e as [status detail|errors|e|e|status detail hs].
        -- destruct H as (resp' & [= <-] & H1 & H2 & H3 & H4).
           eexists. split; [reflexivity|]. rewrite Hs, Hc. auto.
        -- destruct H as (resp' & [= <-] & H1 & H2 & H3).
           eexists. split; [reflexivity|]. rewrite Hs, Hc. auto.
        -- destruct H as (resp' & [= <-] & H1 & H2 & H3).
           eexists. split; [reflexivity|]. rewrite Hs, Hc. auto.
        -- destruct (is_Exception e).
           ++ destruct H as (resp' & [= <-] & H1 & H2 & H3).
              eexists. split; [reflexivity|]. rewrite Hs, Hc. auto.
           ++ destruct H as ([=] & _).
        -- destruct H as (resp' & [= <-] & H1 & H2 & H3).
           eexists. split; [reflexivity|]. rewrite Hs, Hc. auto.
  - exists (Raised e), calls', limiter', s'. split; [reflexivity|].
    destruct (RateLimitRun.verdict _ _ _ _).
    + destruct H as (resp' & [=] & _).
    + destruct (route request s) as [[p|e'] s1].
      * destruct H as (resp' & [=] & _).
      * destruct e' as [status detail|errors|e'|e'|status detail hs];
          try (destruct H as (resp' & [=] & _)).
        destruct (is_Exception e'); [destruct H as (resp' & [=] & _)|].
        exact H.
Qed.

End StackOutcomes.

Lemma stack_status_codes_witness :
  exists calls' limiter' s',
    App.app Fixture.fsub Fixture.uuid4 Fixture.preflight_response
      Fixture.simple_response Fixture.interrupted_route
      (App.mk_arrival Fixture.cross_origin_request 100 "t1" "g1")
      (7, (RateLimit.init 60 1000 10 300 0, 0))
    = (Http.Raised
         (Http.OtherException (mk_exc "KeyboardInterrupt" "" false)),
       (calls', (limiter', s'))).
Proof.
  destruct (stack_status_codes Fixture.fsub Fixture.uuid4
              Fixture.preflight_response Fixture.simple_response
              Fixture.interrupted_route
              (App.mk_arrival Fixture.cross_origin_request 100 "t1" "g1")
              7 (RateLimit.init 60 1000 10 300 0) 0
              fixture_simple_response_completes eq_refl)
    as (o & calls' & limiter' & s' & E & H).
  vm_compute in H. destruct H as (-> & _).
  exists calls', limiter', s'. exact E.
Defined.

(** ** Rate limiter: the verdict in terms of the state before the request *)
Section Verdict.
Import Http RateLimit RateLimitRun.

Variable fsub : Q -> Q -> Q.
Abbreviation evict := (RateLimit.evict fsub).
Abbreviation sweep := (RateLimit.sweep fsub).
Abbreviation _is_rate_limited := (RateLimit._is_rate_limited fsub).
Abbreviation _cleanup_old_requests := (RateLimit._cleanup_old_requests fsub).
Abbreviation periodic_cleanup := (RateLimit.periodic_cleanup fsub).
Abbreviation dispatch := (RateLimit.dispatch fsub).
Abbreviation serve := (RateLimit.serve fsub).
Abbreviation verdict := (RateLimitRun.verdict fsub).
Abbreviation passed_on := (RateLimitRun.passed_on fsub).

Lemma is_rate_limited_passes (self : t) (ip path : string) (t0 : Q) :
  (len (evict 10 t0 (window (burst_requests self) (ip ++ ":burst")))
   < burst_limit self)%Z ->
  (len (evict 60 t0 (window (minute_requests self) (ip ++ ":minute")))
   < calls_per_minute self)%Z ->
  (len (evict 3600 t0 (window (hour_requests self) (ip ++ ":hour")))
   < calls_per_hour self)%Z ->
  (_is_sensitive_endpoint path = true ->
   (len (evict 60 t0 (window (minute_requests self) (ip ++ ":minute")))
    < Z.min 10 (calls_per_minute self / 6))%Z) ->
  fst (_is_rate_limited self ip path t0) = false.
Proof.
  intros Nb Nm Nh Ns. unfold RateLimit._is_rate_limited.
  cbn [burst_limit calls_per_minute calls_per_hour set_burst set_minute
       set_hour burst_requests minute_requests hour_requests].
  destruct (Z.leb_spec (burst_limit self)
              (len (evict 10 t0
                      (window (burst_requests self) (ip ++ ":burst")))));
    [lia|].
  destruct (Z.leb_spec (calls_per_minute self)
              (len (evict 60 t0
                      (window (minute_requests self) (ip ++ ":minute")))));
    [lia|].
  destruct (Z.leb_spec (calls_per_hour self)
              (len (evict 3600 t0
                      (window (hour_requests self) (ip ++ ":hour")))));
    [lia|].
  destruct (_is_sensitive_endpoint path); [|reflexivity].
  specialize (Ns eq_refl).
  destruct (Z.leb_spec (Z.min 10 (calls_per_minute self / 6))
              (len (evict 60 t0
                      (window (minute_requests self) (ip ++ ":minute")))));
    [lia|reflexivity].
Qed.

(** X17: when [dispatch] lets a request through, in terms of the state it
    finds.  With the entries taken off the front of the client's three
    deques whose age, as the subtraction of doubles gives it, is above 10,
    60 and 3600 seconds, the request passes exactly
    when the burst deque is shorter than [burst_limit], the minute deque
    shorter than [calls_per_minute], the hour deque shorter than
    [calls_per_hour] and, for an authentication path, the minute deque
    shorter than [min(10, calls_per_minute // 6)]; whether the periodic
    sweep runs before the checks makes no difference. *)
Theorem verdict_characterised (t0 : Q) (request : Request) (self : t) :
  let ip := _get_client_ip request in
  let burst :=
    evict 10 t0 (window (burst_requests self) (ip ++ ":burst")) in
  let minute :=
    evict 60 t0 (window (minute_requests self) (ip ++ ":minute")) in
  let hour :=
    evict 3600 t0 (window (hour_requests self) (ip ++ ":hour")) in
  verdict t0 request self = false
  <-> (len burst < burst_limit self)%Z
      /\ (len minute < calls_per_minute self)%Z
      /\ (len hour < calls_per_hour self)%Z
      /\ (_is_sensitive_endpoint (req_path request) = true ->
          (len minute < Z.min 10 (calls_per_minute self / 6))%Z).
Proof.
  cbv zeta. split.
  - apply verdict_false_bounds.
  - intros (Nb & Nm & Nh & Ns). unfold RateLimitRun.verdict.
    set (ip := _get_client_ip request) in *.
    pose proof (periodic_cleanup_config fsub self t0) as (C1 & C2 & C3 & _).
    pose proof (fun key => periodic_cleanup_windows fsub self t0 key) as Hwin.
    cbv zeta in Hwin.
    apply is_rate_limited_passes; rewrite ?C1, ?C2, ?C3.
    + destruct (Hwin (ip ++ ":burst")) as ([-> | ->] & _);
        rewrite ?evict_idem; exact Nb.
    + destruct (Hwin (ip ++ ":minute")) as (_ & [-> | ->] & _);
        rewrite ?evict_idem; exact Nm.
    + destruct (Hwin (ip ++ ":hour")) as (_ & _ & [-> | ->]);
        rewrite ?evict_idem; exact Nh.
    + destruct (Hwin (ip ++ ":minute")) as (_ & [-> | ->] & _);
        rewrite ?evict_idem; exact Ns.
Qed.

Lemma lookup_sweep (h t0 : Q) (d : gmap string (list Q)) (key : string)
    (l : list Q) :
  sweep h t0 d !! key = Some l ->
  exists l0,
    d !! key = Some l0 /\ l = evict h t0 l0 /\ l <> [].
Proof.
  unfold RateLimit.sweep. rewrite lookup_omap.
  destruct (d !! key) as [l0|]; [|discriminate].
  cbn. destruct (evict h t0 l0) as [|x r] eqn:E; [discriminate|].
  intros [= <-]. exists l0. repeat split; [symmetry; exact E|discriminate].
Qed.

Lemma evict_head_kept (h t0 : Q) (l : list Q) (x : Q) :
  List.head (evict h t0 l) = Some x -> (fsub t0 x <= h)%Q.
Proof.
  induction l as [|y l IH]; [discriminate|].
  cbn [RateLimit.evict]. unfold Qgt_bool.
  destruct (Qle_bool (fsub t0 y) h) eqn:E; cbn [negb]; [|exact IH].
  cbn [List.head]. intros [= <-]. apply Qle_bool_iff. exact E.
Qed.

(** X18: what [_cleanup_old_requests] leaves behind.  In each of the three
    dictionaries every deque that remains is the old deque of that key
    with the entries taken off its front whose age, as the subtraction of
    doubles gives it, is above the horizon; it is not empty and the
    computed age of its first entry is at most the horizon; no key is
    added, and the configuration and the time of the last sweep are
    untouched. *)
Theorem cleanup_keeps_only_live_deques (self : t) (t0 : Q) :
  let self' := _cleanup_old_requests self t0 in
  same_config self' self
  /\ last_cleanup self' = last_cleanup self
  /\ forall key l,
       (burst_requests self' !! key = Some l ->
        exists l0 x,
          burst_requests self !! key = Some l0
          /\ l = evict 10 t0 l0
          /\ List.head l = Some x /\ (fsub t0 x <= 10)%Q)
       /\ (minute_requests self' !! key = Some l ->
           exists l0 x,
             minute_requests self !! key = Some l0
             /\ l = evict 60 t0 l0
             /\ List.head l = Some x /\ (fsub t0 x <= 60)%Q)
       /\ (hour_requests self' !! key = Some l ->
           exists l0 x,
             hour_requests self !! key = Some l0
             /\ l = evict 3600 t0 l0
             /\ List.head l = Some x /\ (fsub t0 x <= 3600)%Q).
Proof.
  cbv zeta.
  unfold RateLimit._cleanup_old_requests, set_hour, set_minute, set_burst.
  cbn [burst_requests minute_requests hour_requests last_cleanup].
  split; [repeat split|]. split; [reflexivity|].
  intros key l. repeat split; intros H;
    destruct (lookup_sweep _ _ _ _ _ H) as (l0 & H0 & Hl & Hne);
    (destruct l as [|x r]; [congruence|]);
    exists l0, x; (split; [exact H0|]); (split; [exact Hl|]);
    (split; [reflexivity|]);
    apply (evict_head_kept _ _ l0); rewrite <- Hl; reflexivity.
Qed.

End Verdict.

(** ** Authentication *)
Section AuthenticationFacts.

Variable bcrypt_rest : bytes -> bytes -> result bool.

Let authenticate_user := Authentication.authenticate_user bcrypt_rest.
Let verify_password := AuthService.verify_password bcrypt_rest.

Lemma find_first {A : Type} (f : A -> bool) (l : list A) (x : A) :
  find f l = Some x -> In x l /\ f x = true.
Proof.
  induction l as [|a l IH]; [discriminate|].
  cbn [find]. destruct (f a) eqn:E.
  - intros [= <-]. split; [left; reflexivity|exact E].
  - intros H. destruct (IH H) as (Hin & Hx). split; [right; exact Hin|exact Hx].
Qed.

Lemma find_none {A : Type} (f : A -> bool) (l : list A) :
  (forall x, In x l -> f x = false) -> find f l = None.
Proof.
  induction l as [|a l IH]; [reflexivity|].
  intros H. cbn [find]. rewrite (H a (or_introl eq_refl)).
  apply IH. intros x Hx. apply H. right. exact Hx.
Qed.

(** X19: whom [authenticate_user] lets in.  It returns a user only when
    that user is a row of the table, is active, has exactly the given
    name and bcrypt accepts the password for the stored hash.  When no
    active row has the name the answer is [None], whatever the password.
    The exceptions of [verify_password] are not caught: when the stored
    hash of the row found holds neither a dollar sign nor a NUL, and the
    UTF-8 form of the password has at most 72 octets and no NUL, the call
    raises [ValueError("Invalid salt")]. *)
Theorem authenticate_user_lets_in
    (users : list Authentication.User) (name password : string) :
  (forall user,
      authenticate_user users name password = Ok (Some user) ->
      In user users
      /\ Authentication.username user = name
      /\ Authentication.is_active user = true
      /\ verify_password password (Authentication.hashed_password user)
         = Ok true)
  /\ ((forall user,
          In user users ->
          Authentication.username user = name ->
          Authentication.is_active user = false) ->
      authenticate_user users name password = Ok None)
  /\ (forall user,
         find (fun u => String.eqb (Authentication.username u) name
                        && Authentication.is_active u) users = Some user ->
         AuthService.has_dollar_or_nul
           (Authentication.hashed_password user) = false ->
         String.length (PyStr.encode password) <= 72 ->
         PyStr.contains AuthService.nul password = false ->
         authenticate_user users name password
         = Raise (ValueError "Invalid salt")).
Proof.
  unfold authenticate_user, Authentication.authenticate_user.
  split; [|split].
  - intros user H.
    destruct (find _ users) as [found|] eqn:Hfind; [|discriminate].
    destruct (find_first _ _ _ Hfind) as (Hin & Hf).
    apply andb_prop in Hf. destruct Hf as (Hname & Hactive).
    apply String.eqb_eq in Hname.
    destruct (AuthService.verify_password bcrypt_rest password
                (Authentication.hashed_password found)) as [[|]|e] eqn:Hv;
      try discriminate.
    injection H as <-. auto.
  - intros Hnone. rewrite find_none; [reflexivity|].
    intros x Hx.
    destruct (String.eqb_spec (Authentication.username x) name) as [Hn|];
      [|reflexivity].
    rewrite (Hnone x Hx Hn). reflexivity.
  - intros user -> Hbad Hlen Hnul.
    unfold AuthService.verify_password, AuthService.checkpw.
    rewrite has_dollar_or_nul_encode, Hbad, plain_password_bytes_encode, Hnul.
    apply Nat.leb_le in Hlen. rewrite Hlen. reflexivity.
Qed.

End AuthenticationFacts.

Lemma authenticate_user_lets_in_witness :
  Authentication.authenticate_user Fixture.bcrypt_rest
    [Authentication.mk_user (Some 1%Z) "ADMIN001" "admin@carddemo.com"
       "not-a-hash" true "2024-01-01T00:00:00" None]
    "ADMIN001" "PASSWORD"
  = Raise (ValueError "Invalid salt").
Proof.
  apply (proj2 (proj2 (authenticate_user_lets_in Fixture.bcrypt_rest
                         [Authentication.mk_user (Some 1%Z) "ADMIN001"
                            "admin@carddemo.com" "not-a-hash" true
                            "2024-01-01T00:00:00" None]
                         "ADMIN001" "PASSWORD"))
           (Authentication.mk_user (Some 1%Z) "ADMIN001" "admin@carddemo.com"
              "not-a-hash" true "2024-01-01T00:00:00" None)).
  - vm_compute. reflexivity.
  - vm_compute. reflexivity.
  - vm_compute. lia.
  - vm_compute. reflexivity.
Defined.

(** ** Creating the schema *)
Section SchemaFacts.
Import DatabaseErrorHandler.

Context {W : Type}.
Variable create_all : W -> result unit * W.

Lemma create_loop_is_retry_loop (fuel : nat) :
  forall h w slept tried seen,
    Schema.create_loop create_all fuel h w slept tried seen
    = Database.retry_loop create_all "create_db_and_tables"
        fuel h w slept tried seen.
Proof.
  induction fuel as [|fuel IH]; intros h w slept tried seen; [reflexivity|].
  cbn [Schema.create_loop Database.retry_loop].
  destruct (create_all w) as [[[]|e] w1]; [reflexivity|].
  destruct (is_Exception e); [|reflexivity].
  destruct (should_retry h e); [apply IH|reflexivity].
Qed.

(** X20: [create_db_and_tables] retries as [execute_with_retry] does.  On
    the same database and the same state of the shared handler, its loop
    runs [create_all] as often, sleeps as long, reports the same
    classifications and leaves the handler in the same state as
    [execute_with_retry] called with [create_all] as the operation and
    the name [create_db_and_tables]. *)
Theorem create_db_and_tables_is_execute_with_retry
    (g : option t) (w : W) :
  Schema.create_db_and_tables create_all g w
  = Database.execute_with_retry create_all "create_db_and_tables" g w.
Proof.
  unfold Schema.create_db_and_tables, Database.execute_with_retry.
  destruct (get_db_error_handler g) as [h g1].
  rewrite create_loop_is_retry_loop. reflexivity.
Qed.

End SchemaFacts.

(** ** The retry budget across calls *)
Section SharedBudget.
Import DatabaseErrorHandler.

Context {W A : Type}.

Lemma sleeps_length_of_schedule (h : t) (k : nat) (l : list Q) :
  l = List.map (fun n => (retry_delay h * inject_Z (Z.of_nat n))%Q)
        (seq (S (retry_count h)) k) ->
  List.length l = k.
Proof. intros ->. rewrite List.length_map, List.length_seq. reflexivity. Qed.

Lemma execute_all_budget (calls : list ((W -> result A * W) * string)) :
  forall (g : option t) (w : W),
    let h := fst (get_db_error_handler g) in
    exists rs g' w',
      execute_all calls g w = Some (rs, g', w')
      /\ List.length rs = List.length calls
      /\ (Forall (fun r => exists e, Database.outcome r = Raise e) rs ->
          retries rs <= max_retries h - retry_count h).
Proof.
  induction calls as [|[operation name] rest IH]; intros g w h.
  - exists [], g, w. repeat split. intros _. cbn. lia.
  - destruct (execute_with_retry_run operation name g w)
      as (r & h' & w' & k & E & Hs & _ & Hk & Hm & _ & Ho).
    fold h in Hs, Hk, Hm, Ho.
    destruct (IH (Some h') w') as (rs & g'' & w'' & Erest & Hlen & Hbudget).
    cbn [get_db_error_handler fst] in Hbudget.
    exists (r :: rs), g'', w''. cbn [execute_all]. rewrite E, Erest.
    split; [reflexivity|]. split; [cbn [List.length]; lia|].
    intros Hall. inversion Hall as [|r0 rs0 (e & He) Hall' ]; subst.
    specialize (Hbudget Hall'). rewrite He in Ho.
    destruct Ho as (Hcount & _).
    unfold retries in *. cbn [List.map list_sum].
    rewrite (sleeps_length_of_schedule h k _ Hs).
    unfold list_sum in *. cbn [fold_right]. lia.
Qed.


End SharedBudget.


(** ** Rate limiter: the verdict in terms of the requests let through *)
Section SlidingWindow.
Import Http RateLimit RateLimitRun.

Variable fsub : Q -> Q -> Q.
Abbreviation evict := (RateLimit.evict fsub).
Abbreviation sweep := (RateLimit.sweep fsub).
Abbreviation _is_rate_limited := (RateLimit._is_rate_limited fsub).
Abbreviation _cleanup_old_requests := (RateLimit._cleanup_old_requests fsub).
Abbreviation periodic_cleanup := (RateLimit.periodic_cleanup fsub).
Abbreviation dispatch := (RateLimit.dispatch fsub).
Abbreviation serve := (RateLimit.serve fsub).
Abbreviation verdict := (RateLimitRun.verdict fsub).
Abbreviation passed_on := (RateLimitRun.passed_on fsub).

Hypothesis fsub_monotone : rounds_monotone fsub.

(** An entry whose computed age is above the horizon keeps such an age
    as the clock goes on. *)
Lemma computed_later (h now t x : Q) :
  (now <= t)%Q ->
  Qle_bool (fsub now x) h = false -> Qle_bool (fsub t x) h = false.
Proof.
  intros Hnow Hold. destruct (Qle_bool (fsub t x) h) eqn:Hle; [|reflexivity].
  apply Qle_bool_iff in Hle.
  pose proof (fsub_monotone now t x x Hnow (Qle_refl x)) as Hmono.
  assert (Hle' : (fsub now x <= h)%Q) by lra.
  apply Qle_bool_iff in Hle'. congruence.
Qed.

Lemma computed_evicted (h t x : Q) :
  Qgt_bool (fsub t x) h = true -> Qle_bool (fsub t x) h = false.
Proof. unfold Qgt_bool. apply negb_true_iff. Qed.

Ltac exact_computed :=
  first [ intros ? ? ?; apply computed_later
        | intros ? ?; apply computed_evicted ].

Lemma ascending_evict (h t0 : Q) (l : list Q) :
  ascending l -> ascending (evict h t0 l).
Proof.
  induction l as [|x l IH]; [trivial|].
  intros (Hx & Hl). cbn [RateLimit.evict].
  destruct (Qgt_bool (fsub t0 x) h); [apply IH, Hl|split; assumption].
Qed.

Lemma Forall_evict (P : Q -> Prop) (h t0 : Q) (l : list Q) :
  Forall P l -> Forall P (evict h t0 l).
Proof.
  induction 1 as [|x l Hx Hl IH]; [constructor|].
  cbn [RateLimit.evict]. destruct (Qgt_bool (fsub t0 x) h); [exact IH|].
  constructor; assumption.
Qed.

Lemma ascending_snoc (l : list Q) (x : Q) :
  ascending l -> Forall (fun y => (y <= x)%Q) l -> ascending (l ++ [x]).
Proof.
  induction l as [|a l IH]; intros Hl Hx.
  - cbn. split; [constructor|exact I].
  - destruct Hl as (Ha & Hl). inversion Hx as [|a' l' Hax Hlx]; subst.
    cbn [List.app ascending]. split.
    + apply Forall_app. split; [exact Ha|].
      constructor; [exact Hax|constructor].
    + apply IH; assumption.
Qed.

Lemma filter_all_true {A : Type} (f : A -> bool) (l : list A) :
  Forall (fun x => f x = true) l -> List.filter f l = l.
Proof.
  induction 1 as [|x l Hx _ IH]; [reflexivity|].
  cbn [List.filter]. rewrite Hx, IH. reflexivity.
Qed.

(** On a deque in the order of its times, taking the old entries off the
    front leaves exactly the entries that are not old. *)
Lemma evict_is_filter (h t0 : Q) (l : list Q) :
  ascending l ->
  List.filter (fun x => Qle_bool (fsub t0 x) h) l = evict h t0 l.
Proof.
  induction l as [|x l IH]; [reflexivity|].
  intros (Hx & Hl). cbn [RateLimit.evict List.filter]. unfold Qgt_bool.
  destruct (Qle_bool (fsub t0 x) h) eqn:E; cbn [negb].
  - f_equal. apply filter_all_true.
    eapply Forall_impl; [exact Hx|].
    intros y Hy. cbv beta in Hy |- *.
    apply Qle_bool_iff. apply Qle_bool_iff in E.
    pose proof (fsub_monotone t0 t0 y x (Qle_refl t0) Hy) as Hmono. lra.
  - apply IH, Hl.
Qed.

Section Field.

Variable get : t -> gmap string (list Q).

Lemma ascend_after_eviction (horizon now t0 : Q) (self self' : t) :
  windows_ascend get now self ->
  (now <= t0)%Q ->
  (forall key,
      window (get self') key = window (get self) key
      \/ window (get self') key = evict horizon t0 (window (get self) key)) ->
  windows_ascend get t0 self'.
Proof.
  intros Hinv Hnow Hstep key. destruct (Hinv key) as (Hasc & Hle).
  assert (Hle' : Forall (fun x => (x <= t0)%Q) (window (get self) key)).
  { eapply Forall_impl; [exact Hle|]. intros x Hx. cbv beta in *. lra. }
  destruct (Hstep key) as [-> | ->].
  - split; assumption.
  - split; [apply ascending_evict, Hasc|apply Forall_evict, Hle'].
Qed.

Lemma ascend_after_record (t0 : Q) (self self' : t) :
  windows_ascend get t0 self ->
  (forall key,
      window (get self') key = window (get self) key
      \/ window (get self') key = (window (get self) key ++ [t0])%list) ->
  windows_ascend get t0 self'.
Proof.
  intros Hinv Hstep key. destruct (Hinv key) as (Hasc & Hle).
  destruct (Hstep key) as [-> | ->].
  - split; assumption.
  - split; [apply ascending_snoc; assumption|].
    apply Forall_app. split; [exact Hle|].
    constructor; [apply Qle_refl|constructor].
Qed.

(** The number of logged requests within the horizon is the length of the
    deque once its old entries are taken off. *)
Lemma recent_is_evicted (suffix : string) (horizon now t0 : Q)
    (log : list (string * Q)) (self : t) (ip : string) :
  window_holds_recent fsub get suffix horizon log now self ->
  windows_ascend get now self ->
  (now <= t0)%Q ->
  computed_recent fsub horizon ip t0 log
  = List.length (evict horizon t0 (window (get self) (ip ++ suffix))).
Proof.
  intros Hholds Hasc Hnow.
  destruct (Hholds ip) as (dropped & Hlog & Hold).
  destruct (Hasc (ip ++ suffix)) as (Ha & _).
  unfold computed_recent. rewrite Hlog, List.filter_app, List.length_app.
  rewrite (filter_all_false _ dropped).
  - rewrite (evict_is_filter _ _ _ Ha). reflexivity.
  - eapply Forall_impl; [exact Hold|].
    intros x Hx. cbv beta in *. eapply computed_later; eassumption.
Qed.

End Field.

Lemma window_append_cases (d : gmap string (list Q)) (k key : string)
    (x : Q) :
  window (append d k x) key = window d key
  \/ window (append d k x) key = (window d key ++ [x])%list.
Proof.
  destruct (decide (k = key)) as [->|Hne].
  - right. apply window_append.
  - left. unfold append. apply window_insert_other. exact Hne.
Qed.

Section Served.

Context {S : Type}.
Variable call_next : Request -> S -> outcome * S.

Let time_of (a : Request * Q * string) : Q := snd (fst a).

(** One request keeps the state in line with the log. *)
Lemma dispatch_tracks (log : list (string * Q)) (now t1 : Q) (stamp : string)
    (request : Request) (self : t) (s : S) :
  limiter_tracks fsub log now self ->
  (now <= t1)%Q ->
  let self' := snd (fst (dispatch call_next t1 stamp request self s)) in
  limiter_tracks fsub
    (log ++ (if verdict t1 request self then []
             else [(_get_client_ip request, t1)]))
    t1 self'
  /\ same_config self' self.
Proof.
  intros (Hb & Hm & Hh & Ab & Am & Ah) Hnow. cbv zeta.
  rewrite dispatch_state. cbv zeta. unfold RateLimitRun.verdict.
  set (ip := _get_client_ip request).
  set (self1 := periodic_cleanup self t1).
  pose proof (periodic_cleanup_config fsub self t1) as Hcfg1. fold self1 in Hcfg1.
  pose proof (fun key => periodic_cleanup_windows fsub self t1 key) as Hwin1.
  cbv zeta in Hwin1. fold self1 in Hwin1.
  pose proof (is_rate_limited_config fsub self1 ip (req_path request) t1) as Hcfg2.
  pose proof (fun key =>
                is_rate_limited_windows fsub self1 ip (req_path request) t1 key)
    as Hwin2.
  cbv zeta in Hwin2.
  destruct (_is_rate_limited self1 ip (req_path request) t1)
    as [limited self2] eqn:Hcheck.
  cbn [fst snd] in *.
  assert (Hb2 : window_holds_recent fsub burst_requests ":burst" 10 log t1 self2).
  { eapply holds_after_eviction;
      [exact_computed|exact_computed| |apply Qle_refl
      |intros key; apply (Hwin2 key)].
    eapply holds_after_eviction;
      [exact_computed|exact_computed|exact Hb|exact Hnow|].
    intros key. apply (Hwin1 key). }
  assert (Hm2 : window_holds_recent fsub minute_requests ":minute" 60 log t1 self2).
  { eapply holds_after_eviction;
      [exact_computed|exact_computed| |apply Qle_refl
      |intros key; apply (Hwin2 key)].
    eapply holds_after_eviction;
      [exact_computed|exact_computed|exact Hm|exact Hnow|].
    intros key. apply (Hwin1 key). }
  assert (Hh2 : window_holds_recent fsub hour_requests ":hour" 3600 log t1 self2).
  { eapply holds_after_eviction;
      [exact_computed|exact_computed| |apply Qle_refl
      |intros key; apply (Hwin2 key)].
    eapply holds_after_eviction;
      [exact_computed|exact_computed|exact Hh|exact Hnow|].
    intros key. apply (Hwin1 key). }
  assert (Ab2 : windows_ascend burst_requests t1 self2).
  { eapply ascend_after_eviction;
      [|apply Qle_refl|intros key; apply (Hwin2 key)].
    eapply ascend_after_eviction; [exact Ab|exact Hnow|].
    intros key. apply (Hwin1 key). }
  assert (Am2 : windows_ascend minute_requests t1 self2).
  { eapply ascend_after_eviction;
      [|apply Qle_refl|intros key; apply (Hwin2 key)].
    eapply ascend_after_eviction; [exact Am|exact Hnow|].
    intros key. apply (Hwin1 key). }
  assert (Ah2 : windows_ascend hour_requests t1 self2).
  { eapply ascend_after_eviction;
      [|apply Qle_refl|intros key; apply (Hwin2 key)].
    eapply ascend_after_eviction; [exact Ah|exact Hnow|].
    intros key. apply (Hwin1 key). }
  pose proof (same_config_trans _ _ _ Hcfg2 Hcfg1) as Hcfg.
  destruct limited.
  - rewrite List.app_nil_r.
    split; [|exact Hcfg].
    exact (conj Hb2 (conj Hm2 (conj Hh2 (conj Ab2 (conj Am2 Ah2))))).
  - split.
    + unfold limiter_tracks.
      refine (conj _ (conj _ (conj _ (conj _ (conj _ _))))).
      * eapply holds_after_record; [exact Hb2|]. intros ip'.
        unfold _record_request.
        cbn [burst_requests set_burst set_minute set_hour].
        apply window_append_at.
      * eapply holds_after_record; [exact Hm2|]. intros ip'.
        unfold _record_request.
        cbn [minute_requests set_burst set_minute set_hour].
        apply window_append_at.
      * eapply holds_after_record; [exact Hh2|]. intros ip'.
        unfold _record_request.
        cbn [hour_requests set_burst set_minute set_hour].
        apply window_append_at.
      * eapply ascend_after_record; [exact Ab2|]. intros key.
        unfold _record_request.
        cbn [burst_requests set_burst set_minute set_hour].
        apply window_append_cases.
      * eapply ascend_after_record; [exact Am2|]. intros key.
        unfold _record_request.
        cbn [minute_requests set_burst set_minute set_hour].
        apply window_append_cases.
      * eapply ascend_after_record; [exact Ah2|]. intros key.
        unfold _record_request.
        cbn [hour_requests set_burst set_minute set_hour].
        apply window_append_cases.
    + unfold _record_request, same_config in *.
      cbn [calls_per_minute calls_per_hour burst_limit cleanup_interval
           set_burst set_minute set_hour].
      exact Hcfg.
Qed.

Lemma last_cons {A : Type} (l : list A) :
  forall a d, List.last (a :: l) d = List.last l a.
Proof.
  induction l as [|b l IH]; intros a d; [reflexivity|].
  change (List.last (a :: b :: l) d) with (List.last (b :: l) d).
  rewrite (IH b d), (IH b a). reflexivity.
Qed.

(** The time of the last request served, or [now] when there was none. *)
Lemma clock_from_app (now t0 : Q) (times : list Q) :
  clock_from now (times ++ [t0]) ->
  clock_from now times /\ (List.last times now <= t0)%Q.
Proof.
  revert now. induction times as [|t1 times IH]; intros now.
  - cbn. intros (H & _). split; [exact I|exact H].
  - cbn [List.app clock_from]. intros (H1 & H2).
    destruct (IH t1 H2) as (H3 & H4). split; [split; assumption|].
    rewrite last_cons. exact H4.
Qed.

Lemma serve_tracks (arrivals : list (Request * Q * string)) :
  forall (log : list (string * Q)) (now : Q) (self : t) (s : S),
    limiter_tracks fsub log now self ->
    clock_from now (List.map time_of arrivals) ->
    let self' := snd (fst (serve call_next arrivals self s)) in
    limiter_tracks fsub (log ++ passed_on call_next arrivals self s)
      (List.last (List.map time_of arrivals) now) self'
    /\ same_config self' self.
Proof.
  induction arrivals as [|[[request t1] stamp] rest IH];
    intros log now self s Htracks Hclock.
  - cbn. rewrite List.app_nil_r. split; [exact Htracks|].
    repeat split.
  - cbn [List.map clock_from] in Hclock. unfold time_of at 1 in Hclock.
    cbn [fst snd] in Hclock. destruct Hclock as (Hnow & Hclock).
    pose proof (dispatch_tracks log now t1 stamp request self s Htracks Hnow)
      as Hstep.
    cbv zeta in Hstep. cbn [RateLimit.serve RateLimitRun.passed_on].
    destruct (dispatch call_next t1 stamp request self s)
      as [[o self1] s1] eqn:Hd.
    cbn [fst snd] in Hstep. destruct Hstep as (Htracks1 & Hcfg1).
    specialize (IH _ t1 self1 s1 Htracks1 Hclock). cbv zeta in IH.
    destruct (serve call_next rest self1 s1) as [[os self2] s2] eqn:Hs.
    cbn [fst snd] in IH |- *. destruct IH as (Htracks2 & Hcfg2).
    split.
    + rewrite <- List.app_assoc in Htracks2.
      replace (List.last (List.map time_of ((request, t1, stamp) :: rest)) now)
        with (List.last (List.map time_of rest) t1); [exact Htracks2|].
      cbn [List.map]. rewrite last_cons. reflexivity.
    + eapply same_config_trans; eassumption.
Qed.

Lemma limiter_tracks_start (now : Q) (self : t) :
  burst_requests self = empty ->
  minute_requests self = empty ->
  hour_requests self = empty ->
  limiter_tracks fsub [] now self.
Proof.
  intros Hb Hm Hh. unfold limiter_tracks.
  refine (conj _ (conj _ (conj _ (conj _ (conj _ _)))));
    try (apply holds_at_start; assumption);
    intros key; unfold window; rewrite ?Hb, ?Hm, ?Hh, lookup_empty;
    split; constructor.
Qed.

(** X22: the limiter is a sliding window over the requests it let
    through.  After any run that started with empty deques, with a clock
    that never goes back, the next request passes exactly when the
    requests of its client that were let through and whose age is at most
    10 seconds are fewer than [burst_limit], those of at most 60 seconds
    fewer than [calls_per_minute], those of at most 3600 seconds fewer
    than [calls_per_hour] and, on an authentication path, those of at
    most 60 seconds fewer than [min(10, calls_per_minute // 6)].  The age
    of a request is the difference of the two clock readings as the
    subtraction of doubles gives it, of which only its monotonicity is
    used.  Requests that were answered with 429 do not count. *)
Theorem limiter_is_a_sliding_window
    (before : list (Request * Q * string)) (self : t) (s : S)
    (request : Request) (t0 : Q) :
  burst_requests self = empty ->
  minute_requests self = empty ->
  hour_requests self = empty ->
  clock_runs_forward (List.map time_of before ++ [t0]) ->
  let self' := snd (fst (serve call_next before self s)) in
  let log := passed_on call_next before self s in
  let ip := _get_client_ip request in
  verdict t0 request self' = false
  <-> (Z.of_nat (computed_recent fsub 10 ip t0 log) < burst_limit self)%Z
      /\ (Z.of_nat (computed_recent fsub 60 ip t0 log) < calls_per_minute self)%Z
      /\ (Z.of_nat (computed_recent fsub 3600 ip t0 log) < calls_per_hour self)%Z
      /\ (_is_sensitive_endpoint (req_path request) = true ->
          (Z.of_nat (computed_recent fsub 60 ip t0 log)
           < Z.min 10 (calls_per_minute self / 6))%Z).
Proof.
  intros Hb Hm Hh Hclock. cbv zeta.
  assert (Hrun :
    exists now,
      limiter_tracks fsub (passed_on call_next before self s) now
        (snd (fst (serve call_next before self s)))
      /\ (now <= t0)%Q
      /\ same_config (snd (fst (serve call_next before self s))) self).
  { destruct before as [|a rest].
    - exists t0. cbn. split; [apply limiter_tracks_start; assumption|].
      split; [apply Qle_refl|repeat split].
    - cbn [List.map List.app clock_runs_forward] in Hclock.
      assert (Hclock' :
        clock_from (time_of a) (List.map time_of (a :: rest) ++ [t0])).
      { cbn [List.map List.app clock_from]. split; [apply Qle_refl|].
        exact Hclock. }
      destruct (clock_from_app _ _ _ Hclock') as (Hc1 & Hc2).
      destruct (serve_tracks (a :: rest) [] (time_of a) self s
                  (limiter_tracks_start _ _ Hb Hm Hh) Hc1) as (Ht & Hcfg).
      eexists. split; [exact Ht|]. split; [exact Hc2|exact Hcfg]. }
  destruct Hrun as (now & (Tb & Tm & Th & Ab & Am & Ah) & Hnow & Hcfg).
  set (self' := snd (fst (serve call_next before self s))) in *.
  set (log := passed_on call_next before self s) in *.
  set (ip := _get_client_ip request).
  rewrite (recent_is_evicted burst_requests ":burst" 10 now t0 log self' ip
             Tb Ab Hnow).
  rewrite (recent_is_evicted minute_requests ":minute" 60 now t0 log self' ip
             Tm Am Hnow).
  rewrite (recent_is_evicted hour_requests ":hour" 3600 now t0 log self' ip
             Th Ah Hnow).
  destruct Hcfg as (C1 & C2 & C3 & _). rewrite <- C1, <- C2, <- C3.
  split.
  - intros Hv. apply (verdict_false_bounds fsub t0 request self' Hv).
  - intros (Nb & Nm & Nh & Ns). unfold RateLimitRun.verdict. fold ip.
    pose proof (periodic_cleanup_config fsub self' t0) as (D1 & D2 & D3 & _).
    pose proof (fun key => periodic_cleanup_windows fsub self' t0 key) as Hwin.
    cbv zeta in Hwin.
    apply is_rate_limited_passes; rewrite ?D1, ?D2, ?D3.
    + destruct (Hwin (ip ++ ":burst")) as ([-> | ->] & _);
        rewrite ?evict_idem; exact Nb.
    + destruct (Hwin (ip ++ ":minute")) as (_ & [-> | ->] & _);
        rewrite ?evict_idem; exact Nm.
    + destruct (Hwin (ip ++ ":hour")) as (_ & _ & [-> | ->]);
        rewrite ?evict_idem; exact Nh.
    + destruct (Hwin (ip ++ ":minute")) as (_ & [-> | ->] & _);
        rewrite ?evict_idem; exact Ns.
Qed.

End Served.

End SlidingWindow.

Lemma limiter_is_a_sliding_window_witness :
  RateLimitRun.verdict Fixture.fsub 102 Fixture.request
    (snd (fst (RateLimit.serve Fixture.fsub Fixture.route
                 [(Fixture.request, 100%Q, "g1");
                  (Fixture.request, 101%Q, "g2")]
                 (RateLimit.init 3 1000 10 300 0) 0)))
  = false.
Proof.
  assert (Hclock :
    RateLimitRun.clock_runs_forward
      (List.map (fun a : Http.Request * Q * string => snd (fst a))
         [(Fixture.request, 100%Q, "g1"); (Fixture.request, 101%Q, "g2")]
       ++ [102%Q])).
  { vm_compute. repeat split; discriminate. }
  destruct (limiter_is_a_sliding_window Fixture.fsub fixture_rounds_monotone
              Fixture.route
              [(Fixture.request, 100%Q, "g1"); (Fixture.request, 101%Q, "g2")]
              (RateLimit.init 3 1000 10 300 0) 0 Fixture.request 102
              eq_refl eq_refl eq_refl Hclock) as [_ H].
  apply H. vm_compute. repeat split; try reflexivity.
  intros Hs. discriminate Hs.
Defined.
